(** * ESP32 LDPC encoder client: a shallow embedding of [src/main.cpp]

    The client talks to an encoding device over UART2: it waits for the
    synchronisation tag, sends the message length, receives the block
    parameters K and N, and moves the message block by block, collecting the
    encoded bytes.

    The embedding is a state-and-fault monad over one record, [State], that
    holds the sketch's global variables together with the part of the board
    the sketch can observe: the millisecond clock, the UART2 receive queue
    (each byte with its arrival time), the bytes written to UART2 and the
    byte dumps printed on the USB console.

    What the embedding assumes of the board: time advances in [delay] only,
    by the amount asked for; the receive queue holds every byte until it is
    read; a write to UART2 always goes through.  The status lines printed
    with [Serial.println] and [Serial.printf] carry no state and are left
    out; [printBytes] is kept as a console event, and [printBytes_text]
    gives the characters it writes for the event.  What the user types on
    the USB console is an argument of [handleEncoding] and [loop]. *)

From Stdlib Require Import ZArith Lia List Bool Ascii String.
From Stdlib Require Import Init.Byte Strings.Byte.
From stdpp Require Import base list.
Import ListNotations.

Local Open Scope Z_scope.

(** ** Machine integers *)

(** [uint8_t], [uint16_t] and [unsigned long] values are integers reduced
    modulo a power of two at every assignment. *)
Definition wrap8 (z : Z) : Z := z mod 256.
Definition wrap16 (z : Z) : Z := z mod 65536.
Definition wrap32 (z : Z) : Z := z mod 4294967296.

Definition Z_of_byte (b : byte) : Z := Z.of_N (Byte.to_N b).

(** The conversion [(uint8_t) z]. *)
Definition u8 (z : Z) : byte :=
  match Byte.of_N (Z.to_N (wrap8 z)) with
  | Some b => b
  | None => x00
  end.

(** ** Protocol constants *)

Definition LDPC_TAG_0 : Z := 0xde.
Definition LDPC_TAG_1 : Z := 0xad.
Definition LDPC_TAG_2 : Z := 0xc0.
Definition LDPC_TAG_3 : Z := 0xde.
Definition MAX_MESSAGE_LENGTH : Z := 1024.

Inductive SystemState : Set :=
| STATE_IDLE
| STATE_WAITING_FOR_TAG
| STATE_WAITING_FOR_PARAMS
| STATE_ENCODING
| STATE_RECEIVING_RESULT.

Inductive InputMode : Set :=
| INPUT_TEXT
| INPUT_HEX
| INPUT_HEX_MANUAL.

Definition InputMode_eqb (a b : InputMode) : bool :=
  match a, b with
  | INPUT_TEXT, INPUT_TEXT => true
  | INPUT_HEX, INPUT_HEX => true
  | INPUT_HEX_MANUAL, INPUT_HEX_MANUAL => true
  | _, _ => false
  end.

(** ** The state of the sketch and of the board *)

(** What reaches the USB console: a byte dump of [printBytes], the status
    report of menu entry 4, and the "no results" line of menu entry 5. *)
Inductive console_event : Type :=
| PrintedBytes (data : list byte) (asHex : bool)
| StatusReport (state : SystemState) (k n bits : Z)
| NoResultsYet.

Record State : Type := mkState {
  clock : Z;                      (* milliseconds since boot *)
  rx : list (Z * byte);           (* UART2 inbound, (arrival time, byte) *)
  tx : list byte;                 (* UART2 outbound, oldest first *)
  console : list console_event;   (* USB console, oldest first *)
  currentState : SystemState;
  inputMode : InputMode;
  K : Z;
  N : Z;
  message_bits : Z;
  message_buffer : list byte;
  encoded_buffer : list byte;
  lastInputMode : InputMode
}.

Definition set_clock (s : State) (v : Z) : State :=
  mkState v (rx s) (tx s) (console s) (currentState s) (inputMode s) (K s)
          (N s) (message_bits s) (message_buffer s) (encoded_buffer s)
          (lastInputMode s).

Definition set_rx (s : State) (v : list (Z * byte)) : State :=
  mkState (clock s) v (tx s) (console s) (currentState s) (inputMode s) (K s)
          (N s) (message_bits s) (message_buffer s) (encoded_buffer s)
          (lastInputMode s).

Definition set_tx (s : State) (v : list byte) : State :=
  mkState (clock s) (rx s) v (console s) (currentState s) (inputMode s) (K s)
          (N s) (message_bits s) (message_buffer s) (encoded_buffer s)
          (lastInputMode s).

Definition set_console (s : State) (v : list console_event) : State :=
  mkState (clock s) (rx s) (tx s) v (currentState s) (inputMode s) (K s)
          (N s) (message_bits s) (message_buffer s) (encoded_buffer s)
          (lastInputMode s).

Definition set_K (s : State) (v : Z) : State :=
  mkState (clock s) (rx s) (tx s) (console s) (currentState s) (inputMode s) v
          (N s) (message_bits s) (message_buffer s) (encoded_buffer s)
          (lastInputMode s).

Definition set_N (s : State) (v : Z) : State :=
  mkState (clock s) (rx s) (tx s) (console s) (currentState s) (inputMode s)
          (K s) v (message_bits s) (message_buffer s) (encoded_buffer s)
          (lastInputMode s).

Definition set_message_bits (s : State) (v : Z) : State :=
  mkState (clock s) (rx s) (tx s) (console s) (currentState s) (inputMode s)
          (K s) (N s) v (message_buffer s) (encoded_buffer s)
          (lastInputMode s).

Definition set_message_buffer (s : State) (v : list byte) : State :=
  mkState (clock s) (rx s) (tx s) (console s) (currentState s) (inputMode s)
          (K s) (N s) (message_bits s) v (encoded_buffer s)
          (lastInputMode s).

Definition set_encoded_buffer (s : State) (v : list byte) : State :=
  mkState (clock s) (rx s) (tx s) (console s) (currentState s) (inputMode s)
          (K s) (N s) (message_bits s) (message_buffer s) v
          (lastInputMode s).

Definition set_lastInputMode (s : State) (v : InputMode) : State :=
  mkState (clock s) (rx s) (tx s) (console s) (currentState s) (inputMode s)
          (K s) (N s) (message_bits s) (message_buffer s) (encoded_buffer s)
          v.

(** The state right after the global initialisers have run: both buffers are
    zero-filled arrays of their declared sizes. *)
Definition initial_state (now : Z) (inbound : list (Z * byte)) : State :=
  mkState now inbound [] [] STATE_IDLE INPUT_TEXT 0 0 0
          (repeat x00 (Z.to_nat MAX_MESSAGE_LENGTH))
          (repeat x00 (Z.to_nat (MAX_MESSAGE_LENGTH * 2)))
          INPUT_TEXT.

(** ** The monad *)

(** Behaviour the C++ standard leaves undefined ends the run with a fault. *)
Inductive fault : Set :=
| DivisionByZero
| ReadOverrun (index : Z)             (* a read past the end of an array *)
| MessageBufferOverrun (index : Z)    (* a store past [message_buffer] *)
| EncodedBufferOverrun (index : Z).   (* a store past [encoded_buffer] *)

(** [Starved] is the loop-fuel artefact of the embedding: every loop of the
    sketch is bounded, by a deadline or by a 16-bit counter, and is given
    that many iterations.  The [_run] lemmas below show that [waitForTag],
    [receiveParameters] and [sendMessageData] never end that way, and the
    [_ends] lemmas that no pass of [loop] does. *)
Inductive outcome (A : Type) : Type :=
| Ok (a : A) (s : State)
| Fault (f : fault) (s : State)
| Starved.

Arguments Ok {A} a s.
Arguments Fault {A} f s.
Arguments Starved {A}.

Definition M (A : Type) : Type := State -> outcome A.

Definition ret {A} (a : A) : M A := fun s => Ok a s.

Definition bind {A B} (c : M A) (k : A -> M B) : M B :=
  fun s =>
    match c s with
    | Ok a s' => k a s'
    | Fault f s' => Fault f s'
    | Starved => Starved
    end.

Definition raise {A} (f : fault) : M A := fun s => Fault f s.

Notation "'let!' x ':=' c 'in' k" := (bind c (fun x => k))
  (at level 10, x pattern, c at level 100, k at level 200).

Definition get {A} (f : State -> A) : M A := fun s => Ok (f s) s.

(** ** The board: clock and UART2 *)

Definition millis : M Z := fun s => Ok (wrap32 (clock s)) s.

Definition delay (ms : Z) : M unit := fun s => Ok tt (set_clock s (clock s + ms)).

(** [now - startTime] on [unsigned long]. *)
Definition elapsed (now startTime : Z) : Z := wrap32 (now - startTime).

(** The bytes at the head of the queue that have arrived by time [now]. *)
Fixpoint arrived (now : Z) (q : list (Z * byte)) : Z :=
  match q with
  | (t, _) :: q' => if t <=? now then 1 + arrived now q' else 0
  | [] => 0
  end.

Definition Serial2_available : M Z := fun s => Ok (arrived (clock s) (rx s)) s.

(** [Serial2.read()] returns the next byte, or -1 when none has arrived. *)
Definition Serial2_read : M Z :=
  fun s =>
    match rx s with
    | (t, b) :: q' =>
        if t <=? clock s then Ok (Z_of_byte b) (set_rx s q') else Ok (-1) s
    | [] => Ok (-1) s
    end.

Definition Serial2_write (b : byte) : M unit :=
  fun s => Ok tt (set_tx s (tx s ++ [b])).

(** ** [waitForTag] *)

(** One pass through the if-chain of the loop body: either the fourth tag
    byte has just matched and the function returns [true], or the loop goes
    on with a new [tagIndex].  The local array [tagBytes] is written and
    never read; it is left out. *)
Inductive tag_action : Set :=
| TagFound
| TagIndex (tagIndex : Z).

Definition waitForTag_chain (receivedByte tagIndex : Z) : tag_action :=
  if (receivedByte =? LDPC_TAG_0) && (tagIndex =? 0) then TagIndex 1
  else if (receivedByte =? LDPC_TAG_1) && (tagIndex =? 1) then TagIndex 2
  else if (receivedByte =? LDPC_TAG_2) && (tagIndex =? 2) then TagIndex 3
  else if (receivedByte =? LDPC_TAG_3) && (tagIndex =? 3) then TagFound
  else TagIndex 0.

Fixpoint waitForTag_loop (fuel : nat) (startTime tagIndex : Z) : M bool :=
  let! now := millis in
  if elapsed now startTime <? 5000 then
    match fuel with
    | O => fun _ => Starved
    | S fuel' =>
        let! avail := Serial2_available in
        if negb (avail =? 0) then
          let! r := Serial2_read in
          let receivedByte := Z_of_byte (u8 r) in
          match waitForTag_chain receivedByte tagIndex with
          | TagFound => ret true
          | TagIndex tagIndex' =>
              let! _ := delay 1 in
              waitForTag_loop fuel' startTime tagIndex'
          end
        else
          let! _ := delay 1 in
          waitForTag_loop fuel' startTime tagIndex
    end
  else ret false.

Definition waitForTag : M bool :=
  let! startTime := millis in
  waitForTag_loop (Z.to_nat 5000) startTime 0.

(** ** [sendMessageLength] *)

Definition sendMessageLength (bits : Z) : M bool :=
  let len_hi := u8 (Z.shiftr bits 8) in
  let len_lo := u8 (Z.land bits 0xFF) in
  let! _ := Serial2_write len_hi in
  let! _ := delay 10 in
  let! _ := Serial2_write len_lo in
  let! _ := delay 10 in
  ret true.

(** ** [receiveParameters] *)

Definition store_K (v : Z) : M unit := fun s => Ok tt (set_K s v).
Definition store_N (v : Z) : M unit := fun s => Ok tt (set_N s v).

Fixpoint receiveParameters_loop (fuel : nat) (startTime : Z) : M bool :=
  let! now := millis in
  if elapsed now startTime <? 3000 then
    match fuel with
    | O => fun _ => Starved
    | S fuel' =>
        let! avail := Serial2_available in
        if 4 <=? avail then
          let! r0 := Serial2_read in
          let k_hi := u8 r0 in
          let! r1 := Serial2_read in
          let k_lo := u8 r1 in
          let! r2 := Serial2_read in
          let n_hi := u8 r2 in
          let! r3 := Serial2_read in
          let n_lo := u8 r3 in
          let! _ := store_K (wrap16 (Z.lor (Z.shiftl (Z_of_byte k_hi) 8)
                                           (Z_of_byte k_lo))) in
          let! _ := store_N (wrap16 (Z.lor (Z.shiftl (Z_of_byte n_hi) 8)
                                           (Z_of_byte n_lo))) in
          ret true
        else
          let! _ := delay 10 in
          receiveParameters_loop fuel' startTime
    end
  else ret false.

Definition receiveParameters : M bool :=
  let! startTime := millis in
  receiveParameters_loop (Z.to_nat 300) startTime.

(** ** [sendMessageData] *)

(** [(x + 7) / 8] and [(bits + K - 1) / K] are computed on [int]; C++
    division truncates towards zero, and a zero divisor is undefined. *)
Definition bytes_for (bits : Z) : Z := (bits + 7) ÷ 8.

Definition blocks_for (bits k : Z) : M Z :=
  if k =? 0 then raise DivisionByZero else ret ((bits + k - 1) ÷ k).

(** [data[dataIndex]]. *)
Definition load (data : list byte) (index : Z) : M byte :=
  if (0 <=? index) && (index <? Z.of_nat (length data)) then
    ret (nth (Z.to_nat index) data x00)
  else raise (ReadOverrun index).

(** [encoded_buffer[index] = b]. *)
Definition store_encoded (index : Z) (b : byte) : M unit :=
  fun s =>
    if (0 <=? index) && (index <? Z.of_nat (length (encoded_buffer s))) then
      Ok tt (set_encoded_buffer s (<[Z.to_nat index := b]> (encoded_buffer s)))
    else Fault (EncodedBufferOverrun index) s.

(** The byte of the padded message at [dataIndex]. *)
Definition byteToSend (data : list byte) (messageBits dataIndex : Z) : M byte :=
  if dataIndex <? bytes_for messageBits then load data dataIndex else ret x00.

(** The [for (i ...)] loop that writes one block. *)
Fixpoint send_block_loop (fuel : nat) (data : list byte) (messageBits : Z)
    (block K_bytes i : Z) : M unit :=
  if i <? K_bytes then
    match fuel with
    | O => fun _ => Starved
    | S fuel' =>
        let dataIndex := wrap16 (block * K_bytes + i) in
        let! b := byteToSend data messageBits dataIndex in
        let! _ := Serial2_write b in
        let! _ := delay 10 in
        send_block_loop fuel' data messageBits block K_bytes (wrap16 (i + 1))
    end
  else ret tt.

(** The [while] loop that collects one block's encoded bytes; it returns the
    final [receivedBytes]. *)
Fixpoint receive_block_loop (fuel : nat) (block N_bytes startTime
    receivedBytes : Z) : M Z :=
  let! now := millis in
  if (receivedBytes <? N_bytes) && (elapsed now startTime <? 3000) then
    match fuel with
    | O => fun _ => Starved
    | S fuel' =>
        let! avail := Serial2_available in
        if negb (avail =? 0) then
          let! r := Serial2_read in
          let! _ := store_encoded (block * N_bytes + receivedBytes) (u8 r) in
          let! _ := delay 1 in
          receive_block_loop fuel' block N_bytes startTime
                             (wrap16 (receivedBytes + 1))
        else
          let! _ := delay 1 in
          receive_block_loop fuel' block N_bytes startTime receivedBytes
    end
  else ret receivedBytes.

(** The body of the [for (block ...)] loop: [true] when the block's encoded
    bytes all came in, [false] when the function returns [false]. *)
Definition transfer_block (data : list byte) (messageBits K_bytes block : Z)
    : M bool :=
  let! _ := send_block_loop (Z.to_nat 65536) data messageBits block K_bytes 0 in
  let! n := get N in
  let N_bytes := wrap16 (bytes_for n) in
  let! startTime := millis in
  let! receivedBytes := receive_block_loop (Z.to_nat 3000) block N_bytes startTime 0 in
  if receivedBytes <? N_bytes then ret false else ret true.

Fixpoint sendMessageData_loop (fuel : nat) (data : list byte)
    (messageBits K_bytes C block : Z) : M bool :=
  if block <? C then
    match fuel with
    | O => fun _ => Starved
    | S fuel' =>
        let! ok := transfer_block data messageBits K_bytes block in
        if ok then
          sendMessageData_loop fuel' data messageBits K_bytes C
                               (wrap16 (block + 1))
        else ret false
    end
  else ret true.

Definition sendMessageData (data : list byte) (messageBits calculationBits : Z)
    : M bool :=
  let! k := get K in
  let K_bytes := wrap16 (bytes_for k) in
  let bitsForCalculation :=
    if 0 <? calculationBits then calculationBits else messageBits in
  let! c := blocks_for bitsForCalculation k in
  let C := wrap16 c in
  sendMessageData_loop (Z.to_nat 65536) data messageBits K_bytes C 0.

(** ** The codecs: [textToBits] and [hexToBits] *)

(** [buffer[index] = b] with [buffer] pointing at [message_buffer], the only
    array the codecs are called with. *)
Definition store_message (index : Z) (b : byte) : M unit :=
  fun s =>
    if (0 <=? index) && (index <? Z.of_nat (length (message_buffer s))) then
      Ok tt (set_message_buffer s (<[Z.to_nat index := b]> (message_buffer s)))
    else Fault (MessageBufferOverrun index) s.

Definition strlen (text : string) : Z := Z.of_nat (String.length text).

(** [text.charAt(i)], for [i] inside the string. *)
Definition charAt (text : string) (i : Z) : ascii :=
  match String.get (Z.to_nat i) text with
  | Some c => c
  | None => zero
  end.

Fixpoint textToBits_loop (fuel : nat) (text : string) (byteCount i : Z)
    : M unit :=
  if i <? byteCount then
    match fuel with
    | O => fun _ => Starved
    | S fuel' =>
        let! _ := store_message i (byte_of_ascii (charAt text i)) in
        textToBits_loop fuel' text byteCount (wrap16 (i + 1))
    end
  else ret tt.

Definition textToBits (text : string) : M Z :=
  let byteCount := Z.min (wrap16 (strlen text)) (wrap16 (MAX_MESSAGE_LENGTH - 1)) in
  let! _ := textToBits_loop (Z.to_nat 1024) text byteCount 0 in
  ret (wrap16 (byteCount * 8)).

(** [cleanHex.replace(c, "")] for the three one-character patterns. *)
Fixpoint remove_char (c : ascii) (text : string) : string :=
  match text with
  | EmptyString => EmptyString
  | String d rest =>
      if Ascii.eqb c d then remove_char c rest
      else String d (remove_char c rest)
  end.

Definition toupper (c : ascii) : ascii :=
  let n := Z.of_N (N_of_ascii c) in
  if (97 <=? n) && (n <=? 122) then ascii_of_N (Z.to_N (n - 32)) else c.

Fixpoint toUpperCase (text : string) : string :=
  match text with
  | EmptyString => EmptyString
  | String d rest => String (toupper d) (toUpperCase rest)
  end.

(** The C library's [strtol(text, NULL, 16)], without the clamp to
    [LONG_MAX], which the two-character arguments of [hexToBits] never
    reach: white space, an optional sign, an optional [0x], then digits. *)
Definition isspace (c : ascii) : bool :=
  let n := Z.of_N (N_of_ascii c) in
  (n =? 32) || ((9 <=? n) && (n <=? 13)).

Definition hex_digit (c : ascii) : option Z :=
  let n := Z.of_N (N_of_ascii c) in
  if (48 <=? n) && (n <=? 57) then Some (n - 48)
  else if (65 <=? n) && (n <=? 70) then Some (n - 55)
  else if (97 <=? n) && (n <=? 102) then Some (n - 87)
  else None.

Fixpoint skip_spaces (text : string) : string :=
  match text with
  | String c rest => if isspace c then skip_spaces rest else text
  | EmptyString => EmptyString
  end.

Fixpoint strtol_digits (acc : Z) (text : string) : Z :=
  match text with
  | String c rest =>
      match hex_digit c with
      | Some d => strtol_digits (acc * 16 + d) rest
      | None => acc
      end
  | EmptyString => acc
  end.

Definition strtol16 (text : string) : Z :=
  let t1 := skip_spaces text in
  let '(neg, t2) :=
    match t1 with
    | String "-" rest => (true, rest)
    | String "+" rest => (false, rest)
    | _ => (false, t1)
    end in
  let t3 :=
    match t2 with
    | String "0" (String "x" rest) => rest
    | String "0" (String "X" rest) => rest
    | _ => t2
    end in
  let acc := strtol_digits 0 t3 in
  if neg : bool then - acc else acc.

Fixpoint hexToBits_loop (fuel : nat) (cleanHex : string) (byteCount i : Z)
    : M Z :=
  if (i <? strlen cleanHex) && (i + 1 <? strlen cleanHex)
     && (byteCount <? MAX_MESSAGE_LENGTH) then
    match fuel with
    | O => fun _ => Starved
    | S fuel' =>
        let hexByte := substring (Z.to_nat i) 2 cleanHex in
        let! _ := store_message byteCount (u8 (strtol16 hexByte)) in
        hexToBits_loop fuel' cleanHex (wrap16 (byteCount + 1)) (wrap16 (i + 2))
    end
  else ret byteCount.

Definition hexToBits (hexStr : string) : M Z :=
  let cleanHex :=
    toUpperCase
      (remove_char "013" (remove_char "010" (remove_char " " hexStr))) in
  let! byteCount := hexToBits_loop (Z.to_nat 1024) cleanHex 0 0 in
  ret (wrap16 (byteCount * 8)).

(** ** [printBytes] *)

(** Both branches walk [data[0 .. length)]; what they print is recorded as
    one console event. *)
Definition printBytes (data : list byte) (length : Z) (asHex : bool) : M unit :=
  fun s =>
    if length <=? Z.of_nat (List.length data) then
      Ok tt (set_console s (console s ++
                            [PrintedBytes (take (Z.to_nat length) data) asHex]))
    else Fault (ReadOverrun (Z.of_nat (List.length data))) s.

(** The characters the two branches write for the bytes they walk, that is
    for the bytes of the console event.  [Serial.println()] ends a line
    with a carriage return and a line feed; [%02X] is two upper-case
    hexadecimal digits. *)
Definition CRLF : string := String "013" (String "010" EmptyString).

Definition hex_upper (d : Z) : ascii :=
  ascii_of_N (Z.to_N (if d <? 10 then 48 + d else 55 + d)).

Definition printf_02X (b : byte) : string :=
  String (hex_upper (Z_of_byte b ÷ 16))
    (String (hex_upper (Z.rem (Z_of_byte b) 16)) EmptyString).

Fixpoint printBytes_hex (i : Z) (data : list byte) : string :=
  match data with
  | [] => EmptyString
  | b :: rest =>
      String.append (printf_02X b)
        (String.append
           (if Z.rem (i + 1) 16 =? 0 then CRLF
            else if Z.rem (i + 1) 4 =? 0 then String " " EmptyString
            else EmptyString)
           (printBytes_hex (wrap16 (i + 1)) rest))
  end.

Definition printable (b : byte) : bool :=
  (32 <=? Z_of_byte b) && (Z_of_byte b <=? 126).

Fixpoint printBytes_ascii (data : list byte) : string :=
  match data with
  | [] => EmptyString
  | b :: rest =>
      String (if printable b then ascii_of_byte b else ".")
        (printBytes_ascii rest)
  end.

Definition printBytes_text (data : list byte) (asHex : bool) : string :=
  if asHex then
    String.append (printBytes_hex 0 data)
      (if negb (Z.rem (Z.of_nat (List.length data)) 16 =? 0) then CRLF
       else EmptyString)
  else String.append (printBytes_ascii data) CRLF.

(** ** [handleEncoding] *)

(** What the user types during one call: how many 100 ms polls pass before
    each line is there, the value [lengthInput.toInt()] of the first line
    (mode 3 only), and the trimmed second line. *)
Record UserInput : Type := mkUserInput {
  length_polls : Z;
  lengthInput_toInt : Z;
  message_polls : Z;
  userInput : string
}.

Definition store_message_bits (v : Z) : M unit :=
  fun s => Ok tt (set_message_bits s v).

Definition store_lastInputMode (v : InputMode) : M unit :=
  fun s => Ok tt (set_lastInputMode s v).

(** The number of encoded bytes dumped for a given bit count:
    [uint16_t totalEncodedBytes = ((bits + K - 1) / K) * ((N + 7) / 8)]. *)
Definition totalEncodedBytes (bits : Z) : M Z :=
  let! k := get K in
  let! n := get N in
  let! c := blocks_for bits k in
  ret (wrap16 (c * bytes_for n)).

Definition handleEncoding (mode : InputMode) (ui : UserInput) : M unit :=
  let! _ := store_lastInputMode mode in
  let! _ := (if InputMode_eqb mode INPUT_HEX_MANUAL
             then delay (100 * length_polls ui) else ret tt) in
  let manual_message_bits := wrap16 (lengthInput_toInt ui) in
  let! _ := delay (100 * message_polls ui) in
  if strlen (userInput ui) =? 0 then ret tt else
  let! bits := (if InputMode_eqb mode INPUT_TEXT
                then textToBits (userInput ui) else hexToBits (userInput ui)) in
  let! _ := store_message_bits bits in
  let! tag := waitForTag in
  if negb tag then ret tt else
  let! message_bits_now := get message_bits in
  let! sent := sendMessageLength (if InputMode_eqb mode INPUT_HEX_MANUAL
                                  then manual_message_bits
                                  else message_bits_now) in
  if negb sent then ret tt else
  let! params := receiveParameters in
  if negb params then ret tt else
  let bitsUsedForCalculation :=
    if InputMode_eqb mode INPUT_HEX_MANUAL then manual_message_bits
    else message_bits_now in
  let! buffer := get message_buffer in
  let! done := sendMessageData buffer message_bits_now
                 (if InputMode_eqb mode INPUT_HEX_MANUAL
                  then manual_message_bits else 0) in
  if negb done then ret tt else
  let! _ := printBytes buffer (bytes_for message_bits_now)
                       (negb (InputMode_eqb mode INPUT_TEXT)) in
  let! total := totalEncodedBytes bitsUsedForCalculation in
  let! encoded := get encoded_buffer in
  printBytes encoded total true.

(** ** [loop]: one pass with the menu choice the user typed, if any *)

Definition say (e : console_event) : M unit :=
  fun s => Ok tt (set_console s (console s ++ [e])).

Definition showLastResults : M unit :=
  let! k := get K in
  let! n := get N in
  let! bits := get message_bits in
  if (0 <? k) && (0 <? n) && (0 <? bits) then
    let! buffer := get message_buffer in
    let! last := get lastInputMode in
    let! _ := printBytes buffer (bytes_for bits) (InputMode_eqb last INPUT_HEX) in
    let! total := totalEncodedBytes bits in
    let! encoded := get encoded_buffer in
    printBytes encoded total true
  else say NoResultsYet.

Definition loop (choice : option ascii) (ui : UserInput) : M unit :=
  let! _ :=
    match choice with
    | Some "1"%char => handleEncoding INPUT_TEXT ui
    | Some "2"%char => handleEncoding INPUT_HEX ui
    | Some "3"%char => handleEncoding INPUT_HEX_MANUAL ui
    | Some "4"%char =>
        let! st := get currentState in
        let! k := get K in
        let! n := get N in
        let! bits := get message_bits in
        say (StatusReport st k n bits)
    | Some "5"%char => showLastResults
    | _ => ret tt
    end in
  delay 10.

(** The sketch after [setup]: [loop] over and over, each pass with what the
    user typed, if anything. *)
Fixpoint loops (inputs : list (option ascii * UserInput)) : M unit :=
  match inputs with
  | [] => ret tt
  | (choice, ui) :: rest => let! _ := loop choice ui in loops rest
  end.

(** ** Specification-side notions *)

(** [c] is the ceiling of [a / b]. *)
Definition is_ceiling (c a b : Z) : Prop := b * (c - 1) < a <= b * c.

(** The match cursor of the sync detector as the design describes it: a
    byte equal to the tag byte under the cursor moves the cursor one place
    on, any other byte puts it back to zero. *)
Definition SYNC_TAG : list Z := [LDPC_TAG_0; LDPC_TAG_1; LDPC_TAG_2; LDPC_TAG_3].

Definition cursor_step (cursor : Z) (b : byte) : Z :=
  if Z_of_byte b =? nth (Z.to_nat cursor) SYNC_TAG (-1) then cursor + 1 else 0.

Fixpoint cursor_run (cursor : Z) (stream : list byte) : Z :=
  match stream with
  | [] => cursor
  | b :: stream' => cursor_run (cursor_step cursor b) stream'
  end.

Definition bytes_of (q : list (Z * byte)) : list byte := map snd q.

(** The four tag bytes as they travel on the wire. *)
Definition TAG_BYTES : list byte := [xde; xad; xc0; xde].

(** The byte of the zero-padded message at an absolute byte index, and the
    bytes of one block. *)
Definition padded_byte (data : list byte) (messageBits index : Z) : byte :=
  if index <? bytes_for messageBits then nth (Z.to_nat index) data x00
  else x00.

Definition block_payload (data : list byte) (messageBits K_bytes block : Z)
    : list byte :=
  map (fun i => padded_byte data messageBits (block * K_bytes + i))
      (seqZ 0 K_bytes).

(** The bytes of [n] consecutive blocks, from block [first] on. *)
Definition payloads (data : list byte) (messageBits K_bytes first n : Z)
    : list byte :=
  concat (map (block_payload data messageBits K_bytes) (seqZ first n)).

(** ** Frames, observations and concrete environments *)

(** The state after a run that only read from UART2 and let time pass. *)
Definition only_read (s s' : State) : Prop :=
  s' = set_clock (set_rx s (rx s')) (clock s').

(** [s'] is [s] after the bytes [cs] were taken off the receive queue and
    stored in [encoded_buffer] from index [first] on, with time passing. *)
Definition received_into (s s' : State) (first : Z) (cs : list (Z * byte))
    : Prop :=
  rx s = cs ++ rx s' /\
  s' = set_clock
         (set_encoded_buffer (set_rx s (rx s'))
            (list_inserts (Z.to_nat first) (bytes_of cs) (encoded_buffer s)))
         (clock s').

(** [s'] is [s] after [sent] was written to UART2 and the bytes [cs] were
    taken off the receive queue into [encoded_buffer] from index [first] on.
    Nothing else but the clock differs. *)
Definition transferred (s s' : State) (sent : list byte) (first : Z)
    (cs : list (Z * byte)) : Prop :=
  rx s = cs ++ rx s' /\
  s' = set_clock
         (set_encoded_buffer
            (set_rx (set_tx s (tx s ++ sent)) (rx s'))
            (list_inserts (Z.to_nat first) (bytes_of cs) (encoded_buffer s)))
         (clock s').

(** A computation that leaves [currentState] as it found it, however it
    ends. *)
Definition keeps_currentState {A} (c : M A) : Prop :=
  forall s,
    match c s with
    | Ok _ s' | Fault _ s' => currentState s' = currentState s
    | Starved => True
    end.

(** The run of [c] from [s] comes to an end, and when it returns a value the
    value and the state it leaves satisfy [Q]. *)
Definition ensures {A} (c : M A) (s : State) (Q : A -> State -> Prop) : Prop :=
  match c s with
  | Ok a s' => Q a s'
  | Fault _ _ => True
  | Starved => False
  end.

(** A computation that leaves a view of the state as it found it, however
    it ends. *)
Definition leaves {A V} (view : State -> V) (c : M A) : Prop :=
  forall s,
    match c s with
    | Ok _ s' | Fault _ s' => view s' = view s
    | Starved => True
    end.

(** The variables that hold what the user entered. *)
Definition entered (s : State) : InputMode * InputMode * Z * list byte :=
  (inputMode s, lastInputMode s, message_bits s, message_buffer s).

(** The byte dumps printed so far, with the variables they are made from. *)
Definition shown (s : State)
    : list console_event * InputMode * Z * list byte :=
  (console s, lastInputMode s, message_bits s, message_buffer s).

(** What holds of the variables of the sketch between any two passes of
    [loop]: K and N are 16-bit values, [message_bits] counts no more bytes
    than the 1024 of [message_buffer]. *)
Definition well_formed (s : State) : Prop :=
  0 <= K s < 65536 /\ 0 <= N s < 65536 /\
  0 <= message_bits s /\ bytes_for (message_bits s) <= MAX_MESSAGE_LENGTH /\
  Z.of_nat (length (message_buffer s)) = MAX_MESSAGE_LENGTH.

(** The three ways in which a run can go wrong: a division by K = 0, a
    store past the end of [encoded_buffer], a dump of more bytes than
    [encoded_buffer] has. *)
Definition encoded_side_fault (f : fault) (s : State) : Prop :=
  f = DivisionByZero \/
  (exists index, f = EncodedBufferOverrun index) \/
  f = ReadOverrun (Z.of_nat (length (encoded_buffer s))).

(** The run of [c] from [s] comes to an end; a value it returns satisfies
    [Q], and a fault it ends with is one of the three, in a well-formed
    state. *)
Definition behaves {A} (c : M A) (s : State) (Q : A -> State -> Prop)
    : Prop :=
  match c s with
  | Ok a s' => Q a s'
  | Fault f s' => well_formed s' /\ encoded_side_fault f s'
  | Starved => False
  end.

(** The value a run returns, when it returns one. *)
Definition returned {A} (o : outcome A) : option A :=
  match o with
  | Ok a _ => Some a
  | _ => None
  end.

Definition faulted {A} (o : outcome A) : option fault :=
  match o with
  | Fault f _ => Some f
  | _ => None
  end.

Definition final_console {A} (o : outcome A) : option (list console_event) :=
  match o with
  | Ok _ s' => Some (console s')
  | _ => None
  end.

(** Every byte of the list is in the receive queue at time [t]. *)
Definition queued (t : Z) (l : list byte) : list (Z * byte) :=
  map (fun b => (t, b)) l.

(** The bytes of the list arrive one a millisecond, the first at time [t]. *)
Fixpoint spaced (t : Z) (l : list byte) : list (Z * byte) :=
  match l with
  | [] => []
  | b :: l' => (t, b) :: spaced (t + 1) l'
  end.

(** The user types a line at once. *)
Definition typed (line : string) : UserInput := mkUserInput 0 0 0 line.

(** The bytes of a queue are there when the sync detector comes to them:
    the first by [now], the next a millisecond later, and so on. *)
Fixpoint on_time (now : Z) (q : list (Z * byte)) : Prop :=
  match q with
  | [] => True
  | (t, _) :: q' => t <= now /\ on_time (now + 1) q'
  end.

(** The bytes there are to see before a timeout elapses: what a reader gets
    that looks at the receive queue once a millisecond, [ticks] times from
    [now] on, and takes one byte when one has arrived. *)
Fixpoint polled (ticks : nat) (now : Z) (q : list (Z * byte))
    : list (Z * byte) :=
  match ticks, q with
  | S ticks', (t, b) :: q' =>
      if t <=? now then (t, b) :: polled ticks' (now + 1) q'
      else polled ticks' (now + 1) q
  | _, _ => []
  end.

(** The cursor, started at [cursor], reaches 4 on the last byte of the
    stream and not before. *)
Fixpoint hits_at_end (cursor : Z) (stream : list byte) : Prop :=
  match stream with
  | [] => False
  | b :: stream' =>
      if cursor_step cursor b =? 4 then stream' = []
      else hits_at_end (cursor_step cursor b) stream'
  end.

(** The hexadecimal digits of a dump, two a byte, without its blanks and
    line ends. *)
Fixpoint digits_of (data : list byte) : string :=
  match data with
  | [] => EmptyString
  | b :: rest => String.append (printf_02X b) (digits_of rest)
  end.

(** The replies of the device, one list a block, are there when the
    transfer comes to them: a block of [K_bytes] bytes takes 10 ms a byte to
    send, and its reply is then read one byte a millisecond. *)
Fixpoint blocks_on_time (now K_bytes : Z) (replies : list (list (Z * byte)))
    : Prop :=
  match replies with
  | [] => True
  | reply :: replies' =>
      on_time (now + 10 * K_bytes) reply /\
      blocks_on_time (now + 10 * K_bytes + Z.of_nat (length reply)) K_bytes
                     replies'
  end.

(** The message a line of input stands for: the characters of a text, as
    far as the buffer takes them, or the bytes its pairs of hexadecimal
    digits spell once blanks and line ends are gone. *)
Definition text_bytes (text : string) : list byte :=
  map byte_of_ascii
      (take (Z.to_nat (Z.min (wrap16 (strlen text)) (MAX_MESSAGE_LENGTH - 1)))
            (list_ascii_of_string text)).

Definition cleaned (hexStr : string) : string :=
  toUpperCase (remove_char "013" (remove_char "010" (remove_char " " hexStr))).

Definition hex_pair (cleanHex : string) (j : Z) : byte :=
  u8 (strtol16 (substring (Z.to_nat (2 * j)) 2 cleanHex)).

Definition hex_bytes (hexStr : string) : list byte :=
  map (hex_pair (cleaned hexStr))
      (seqZ 0 (Z.min (strlen (cleaned hexStr) ÷ 2) MAX_MESSAGE_LENGTH)).

Definition message_of (mode : InputMode) (line : string) : list byte :=
  if InputMode_eqb mode INPUT_TEXT then text_bytes line else hex_bytes line.

(** A buffer after [bytes] went into its first places. *)
Definition overwritten (bytes buffer : list byte) : list byte :=
  bytes ++ drop (length bytes) buffer.

(** The length [handleEncoding] announces and computes the block count
    from. *)
Definition announced_bits (mode : InputMode) (ui : UserInput) : Z :=
  if InputMode_eqb mode INPUT_HEX_MANUAL then wrap16 (lengthInput_toInt ui)
  else 8 * Z.of_nat (length (message_of mode (userInput ui))).

(** The time [handleEncoding] spends waiting for the user's lines. *)
Definition typing_time (mode : InputMode) (ui : UserInput) : Z :=
  (if InputMode_eqb mode INPUT_HEX_MANUAL then 100 * length_polls ui else 0)
  + 100 * message_polls ui.

(** The state in which [handleEncoding] starts to wait for the tag, when a
    line was typed and the message fits the buffer. *)
Definition before_sync (mode : InputMode) (ui : UserInput) (s : State)
    : State :=
  set_message_bits
    (set_message_buffer
       (set_clock (set_lastInputMode s mode) (clock s + typing_time mode ui))
       (overwritten (message_of mode (userInput ui)) (message_buffer s)))
    (8 * Z.of_nat (length (message_of mode (userInput ui)))).

(** * Proofs *)

(** ** Bytes and machine arithmetic *)

Lemma Z_of_byte_range (b : byte) : 0 <= Z_of_byte b < 256.
Proof.
  unfold Z_of_byte. pose proof (Byte.to_N_bounded b). lia.
Qed.

Lemma u8_Z_of_byte (b : byte) : u8 (Z_of_byte b) = b.
Proof.
  unfold u8, wrap8. rewrite Z.mod_small by apply Z_of_byte_range.
  unfold Z_of_byte. rewrite N2Z.id, Byte.of_to_N. reflexivity.
Qed.

Lemma Z_of_byte_inj (a b : byte) : Z_of_byte a = Z_of_byte b -> a = b.
Proof.
  intros H. rewrite <- (u8_Z_of_byte a), <- (u8_Z_of_byte b). now rewrite H.
Qed.

Lemma elapsed_after (t0 d : Z) :
  0 <= d < 4294967296 -> elapsed (wrap32 (t0 + d)) (wrap32 t0) = d.
Proof.
  intros Hd. unfold elapsed, wrap32.
  rewrite Zminus_mod_idemp_l, Zminus_mod_idemp_r.
  replace (t0 + d - t0) with d by lia. now apply Z.mod_small.
Qed.

Lemma elapsed_clock (t0 : Z) (s : State) :
  0 <= clock s - t0 < 4294967296 ->
  elapsed (wrap32 (clock s)) (wrap32 t0) = clock s - t0.
Proof.
  intros H. rewrite <- (elapsed_after t0 (clock s - t0)) by lia.
  do 2 f_equal. lia.
Qed.

Lemma arrived_nonneg (now : Z) (q : list (Z * byte)) : 0 <= arrived now q.
Proof.
  induction q as [|[t b] q IH]; simpl; [lia|]. destruct (t <=? now); lia.
Qed.

(** ** The sync detector *)

Lemma waitForTag_chain_cursor (b : byte) (tagIndex : Z) :
  0 <= tagIndex < 4 ->
  waitForTag_chain (Z_of_byte b) tagIndex =
    if cursor_step tagIndex b =? 4 then TagFound
    else TagIndex (cursor_step tagIndex b).
Proof.
  intros H. unfold cursor_step. generalize (Z_of_byte b) as z. intros z.
  assert (tagIndex = 0 \/ tagIndex = 1 \/ tagIndex = 2 \/ tagIndex = 3)
    as [-> | [-> | [-> | ->]]] by lia;
    unfold waitForTag_chain, cursor_step, SYNC_TAG, LDPC_TAG_0, LDPC_TAG_1,
      LDPC_TAG_2, LDPC_TAG_3;
    simpl (nth _ _ _);
    destruct (Z.eqb_spec z 222); destruct (Z.eqb_spec z 173);
    destruct (Z.eqb_spec z 192); try lia; reflexivity.
Qed.

Lemma cursor_step_range (cursor : Z) (b : byte) :
  0 <= cursor < 4 -> 0 <= cursor_step cursor b <= 4.
Proof.
  intros H. unfold cursor_step.
  destruct (_ =? _); lia.
Qed.

Lemma only_read_refl (s : State) : only_read s s.
Proof. destruct s; reflexivity. Qed.

Lemma only_read_step (s s' : State) (q : list (Z * byte)) (t : Z) :
  only_read (set_clock (set_rx s q) t) s' -> only_read s s'.
Proof. unfold only_read. intros ->. destruct s; reflexivity. Qed.

Lemma only_read_tick (s s' : State) (t : Z) :
  only_read (set_clock s t) s' -> only_read s s'.
Proof. unfold only_read. intros ->. destruct s; reflexivity. Qed.

(** The loop, one iteration unfolded, as a function of the state. *)
Lemma waitForTag_loop_O (startTime tagIndex : Z) (s : State) :
  waitForTag_loop O startTime tagIndex s =
    if elapsed (wrap32 (clock s)) startTime <? 5000 then Starved
    else Ok false s.
Proof.
  simpl. unfold bind, millis. destruct (_ <? _); reflexivity.
Qed.

Lemma waitForTag_loop_S (fuel : nat) (startTime tagIndex : Z) (s : State) :
  waitForTag_loop (S fuel) startTime tagIndex s =
    if elapsed (wrap32 (clock s)) startTime <? 5000 then
      if arrived (clock s) (rx s) =? 0 then
        waitForTag_loop fuel startTime tagIndex (set_clock s (clock s + 1))
      else
        match Serial2_read s with
        | Ok r s1 =>
            match waitForTag_chain (Z_of_byte (u8 r)) tagIndex with
            | TagFound => Ok true s1
            | TagIndex tagIndex' =>
                waitForTag_loop fuel startTime tagIndex'
                                (set_clock s1 (clock s1 + 1))
            end
        | Fault f s1 => Fault f s1
        | Starved => Starved
        end
    else Ok false s.
Proof.
  cbn [waitForTag_loop]. unfold bind, millis, Serial2_available, delay, ret.
  destruct (_ <? _); [|reflexivity].
  destruct (_ =? _); cbv beta iota delta [negb]; [reflexivity|].
  destruct (Serial2_read s); try reflexivity.
  destruct (waitForTag_chain _ _); reflexivity.
Qed.

Lemma Serial2_read_head (s : State) (t : Z) (b : byte) (q : list (Z * byte)) :
  rx s = (t, b) :: q -> t <= clock s ->
  Serial2_read s = Ok (Z_of_byte b) (set_rx s q).
Proof.
  intros Hrx Ht. unfold Serial2_read. rewrite Hrx.
  destruct (Z.leb_spec t (clock s)); [reflexivity|lia].
Qed.

Lemma waitForTag_loop_run (fuel : nat) :
  forall (t0 : Z) (s : State) (tagIndex : Z),
    0 <= clock s - t0 <= 5000 ->
    5000 - (clock s - t0) <= Z.of_nat fuel ->
    0 <= tagIndex < 4 ->
    exists (r : bool) (s' : State) (cs : list (Z * byte)),
      waitForTag_loop fuel (wrap32 t0) tagIndex s = Ok r s' /\
      rx s = cs ++ rx s' /\
      only_read s s' /\
      (forall p q, bytes_of cs = p ++ q -> q <> [] ->
                   0 <= cursor_run tagIndex p < 4) /\
      (if r then cursor_run tagIndex (bytes_of cs) = 4 /\
                 clock s <= clock s' < t0 + 5000
       else 0 <= cursor_run tagIndex (bytes_of cs) < 4 /\
            clock s' = t0 + 5000).
Proof.
  assert (Hnil : forall c (p q : list byte), [] = p ++ q -> q <> [] ->
                                             0 <= cursor_run c p < 4).
  { intros c p q Hpq Hq. destruct p; destruct q; simpl in *; congruence. }
  induction fuel as [|fuel IH]; intros t0 s tagIndex Ht Hfuel Hidx.
  - exists false, s, []. rewrite waitForTag_loop_O, elapsed_clock by lia.
    destruct (Z.ltb_spec (clock s - t0) 5000); [lia|].
    split; [reflexivity|]. split; [reflexivity|].
    split; [apply only_read_refl|]. split; [apply Hnil|]. simpl. lia.
  - rewrite waitForTag_loop_S, elapsed_clock by lia.
    destruct (Z.ltb_spec (clock s - t0) 5000) as [Hlt|Hge].
    2:{ exists false, s, [].
        split; [reflexivity|]. split; [reflexivity|].
        split; [apply only_read_refl|]. split; [apply Hnil|]. simpl. lia. }
    destruct (Z.eqb_spec (arrived (clock s) (rx s)) 0) as [Hnone|Hsome].
    + (* no byte has arrived *)
      destruct (IH t0 (set_clock s (clock s + 1)) tagIndex)
        as (r & s' & cs & Hrun & Hq & Hfr & Hpre & Hres);
        try (simpl; lia).
      exists r, s', cs. rewrite Hrun. simpl in Hq.
      split; [reflexivity|]. split; [assumption|].
      split; [eauto using only_read_tick|]. split; [assumption|].
      destruct r; simpl in Hres; intuition lia.
    + (* a byte is there: read it *)
      destruct (rx s) as [|[t b] q] eqn:Hrx; [simpl in Hsome; lia|].
      simpl in Hsome. destruct (Z.leb_spec t (clock s)) as [Harr|]; [|lia].
      rewrite (Serial2_read_head s t b q Hrx Harr).
      rewrite u8_Z_of_byte, waitForTag_chain_cursor by lia.
      pose proof (cursor_step_range tagIndex b Hidx) as Hstep.
      destruct (Z.eqb_spec (cursor_step tagIndex b) 4) as [H4|Hn4].
      * exists true, (set_rx s q), [(t, b)].
        split; [reflexivity|]. split; [reflexivity|].
        split; [unfold only_read; destruct s; reflexivity|].
        split; [|simpl; lia].
        intros p q0 Hpq Hq0.
        destruct p as [|b0 [|b1 p]]; simpl in Hpq |- *; try lia;
          destruct q0; simpl in *; congruence.
      * destruct (IH t0 (set_clock (set_rx s q) (clock (set_rx s q) + 1))
                     (cursor_step tagIndex b))
          as (r & s' & cs & Hrun & Hq & Hfr & Hpre & Hres);
          try (simpl; lia).
        exists r, s', ((t, b) :: cs). rewrite Hrun.
        simpl in Hq. rewrite Hq.
        split; [reflexivity|]. split; [reflexivity|].
        split; [eauto using only_read_step|].
        split.
        -- intros p q0 Hpq Hq0.
           destruct p as [|b0 p]; simpl in Hpq |- *; [lia|].
           injection Hpq as <- Hpq. apply (Hpre p q0 Hpq Hq0).
        -- destruct r; simpl in Hres |- *; intuition lia.
Qed.

Lemma waitForTag_run (s : State) :
  exists (r : bool) (s' : State) (cs : list (Z * byte)),
    waitForTag s = Ok r s' /\
    rx s = cs ++ rx s' /\
    only_read s s' /\
    (forall p q, bytes_of cs = p ++ q -> q <> [] -> 0 <= cursor_run 0 p < 4) /\
    (if r then cursor_run 0 (bytes_of cs) = 4 /\
               clock s <= clock s' < clock s + 5000
     else 0 <= cursor_run 0 (bytes_of cs) < 4 /\
          clock s' = clock s + 5000).
Proof.
  unfold waitForTag, bind, millis.
  apply waitForTag_loop_run; lia.
Qed.

Lemma cursor_step_match (cursor : Z) (b : byte) :
  0 <= cursor <= 4 -> cursor_step cursor b <> 0 ->
  cursor < 4 /\ cursor_step cursor b = cursor + 1 /\
  take (Z.to_nat (cursor + 1)) TAG_BYTES =
    take (Z.to_nat cursor) TAG_BYTES ++ [b].
Proof.
  intros Hc. unfold cursor_step, SYNC_TAG, LDPC_TAG_0, LDPC_TAG_1, LDPC_TAG_2,
    LDPC_TAG_3.
  pose proof (Z_of_byte_range b) as Hb.
  assert (cursor = 0 \/ cursor = 1 \/ cursor = 2 \/ cursor = 3 \/ cursor = 4)
    as [-> | [-> | [-> | [-> | ->]]]] by lia;
    simpl (nth _ _ _);
    match goal with
    | |- context [Z_of_byte b =? ?v] => destruct (Z.eqb_spec (Z_of_byte b) v) as [E|E]
    end; try congruence; try lia; intros _;
    (split; [lia|]; split; [reflexivity|]).
  - rewrite (Z_of_byte_inj b xde E). reflexivity.
  - rewrite (Z_of_byte_inj b xad E). reflexivity.
  - rewrite (Z_of_byte_inj b xc0 E). reflexivity.
  - rewrite (Z_of_byte_inj b xde E). reflexivity.
Qed.

Lemma cursor_step_cases (cursor : Z) (b : byte) :
  cursor_step cursor b = cursor + 1 \/ cursor_step cursor b = 0.
Proof. unfold cursor_step. destruct (_ =? _); auto. Qed.

(** Whatever the cursor shows is a prefix of the tag that has just gone by. *)
Lemma cursor_run_tail (stream : list byte) :
  forall (seen : list byte) (cursor : Z),
    0 <= cursor <= 4 ->
    (exists pre, seen = pre ++ take (Z.to_nat cursor) TAG_BYTES) ->
    exists pre,
      seen ++ stream =
        pre ++ take (Z.to_nat (cursor_run cursor stream)) TAG_BYTES.
Proof.
  induction stream as [|b stream IH]; intros seen cursor Hc [pre Hseen].
  - exists pre. simpl. now rewrite app_nil_r.
  - simpl. replace (seen ++ b :: stream) with ((seen ++ [b]) ++ stream)
      by (rewrite <- app_assoc; reflexivity).
    destruct (Z.eq_dec (cursor_step cursor b) 0) as [E0|En0].
    + rewrite E0. apply IH; [lia|]. exists (seen ++ [b]).
      simpl. now rewrite app_nil_r.
    + destruct (cursor_step_match cursor b Hc En0) as (Hlt & Hs & Htake).
      rewrite Hs. apply IH; [lia|]. exists pre.
      rewrite Htake, Hseen, app_assoc. reflexivity.
Qed.

Lemma cursor_run_accepts (stream : list byte) :
  cursor_run 0 stream = 4 -> exists pre, stream = pre ++ TAG_BYTES.
Proof.
  intros H4.
  destruct (cursor_run_tail stream [] 0) as [pre Hpre]; [lia| now exists [] |].
  rewrite H4 in Hpre. now exists pre.
Qed.

Lemma bytes_of_app (a b : list (Z * byte)) :
  bytes_of (a ++ b) = bytes_of a ++ bytes_of b.
Proof. apply map_app. Qed.

(** C2, the claim as stated, refuted: with DE DE AD C0 DE in the receive
    queue from the start, [waitForTag] reads all five bytes and still runs
    into its timeout. *)
Lemma sync_overlapping_tag_times_out :
  returned (waitForTag (initial_state 0 (queued 0 [xde; xde; xad; xc0; xde])))
    = Some false.
Proof. vm_compute. reflexivity. Qed.

(** C2, amended: on the stream DE DE AD C0 DE, whenever its bytes arrive,
    [waitForTag] returns [false] once the 5000 ms have passed (the second DE
    resets the cursor and is not taken as a new start); and whenever
    [waitForTag] returns [true], the last four bytes it has read are exactly
    DE AD C0 DE. *)
Theorem sync_accepts_only_exact_tag (s : State) :
  (bytes_of (rx s) = [xde; xde; xad; xc0; xde] ->
   exists s', waitForTag s = Ok false s' /\ clock s' = clock s + 5000) /\
  (forall s', waitForTag s = Ok true s' ->
   exists cs pre, rx s = cs ++ rx s' /\ bytes_of cs = pre ++ TAG_BYTES).
Proof.
  destruct (waitForTag_run s) as (r & s1 & cs & Hrun & Hrx & _ & _ & Hres).
  split.
  - intros Hstream. rewrite Hrx, bytes_of_app in Hstream.
    destruct r.
    + exfalso. destruct Hres as [H4 _].
      destruct (bytes_of cs) as [|b0 [|b1 [|b2 [|b3 [|b4 [|b5 l]]]]]];
        simpl in Hstream; try discriminate;
        repeat match goal with
               | H : _ :: _ = _ :: _ |- _ => injection H as ? H; subst
               end;
        vm_compute in H4; discriminate.
    + exists s1. split; [assumption|]. apply Hres.
  - intros s' Hok. rewrite Hrun in Hok. injection Hok as -> ->.
    destruct Hres as [H4 _].
    destruct (cursor_run_accepts _ H4) as [pre Hpre].
    exists cs, pre. split; assumption.
Qed.

(** The theorem at a queue that holds the five bytes from 3 ms on. *)
Lemma sync_accepts_only_exact_tag_witness :
  exists s',
    waitForTag (initial_state 0 (queued 3 [xde; xde; xad; xc0; xde]))
      = Ok false s' /\ clock s' = 5000.
Proof.
  apply (proj1 (sync_accepts_only_exact_tag
                  (initial_state 0 (queued 3 [xde; xde; xad; xc0; xde])))).
  reflexivity.
Defined.

Lemma polled_nil (ticks : nat) (now : Z) : polled ticks now [] = [].
Proof. destruct ticks; reflexivity. Qed.

(** The bytes the loop reads are bytes polled, in their order; when the
    loop gives up it has read all of them. *)
Lemma waitForTag_loop_polled (fuel : nat) :
  forall (t0 : Z) (s : State) (tagIndex : Z),
    0 <= clock s - t0 <= 5000 ->
    Z.of_nat fuel = 5000 - (clock s - t0) ->
    0 <= tagIndex < 4 ->
    exists (r : bool) (s' : State) (cs later : list (Z * byte)),
      waitForTag_loop fuel (wrap32 t0) tagIndex s = Ok r s' /\
      rx s = cs ++ rx s' /\
      polled fuel (clock s) (rx s) = cs ++ later /\
      (r = false -> later = []).
Proof.
  induction fuel as [|fuel IH]; intros t0 s tagIndex Ht Hfuel Hidx.
  - exists false, s, [], []. rewrite waitForTag_loop_O, elapsed_clock by lia.
    destruct (Z.ltb_spec (clock s - t0) 5000); [lia|].
    split; [reflexivity|]. split; [reflexivity|].
    split; [reflexivity|reflexivity].
  - rewrite waitForTag_loop_S, elapsed_clock by lia.
    destruct (Z.ltb_spec (clock s - t0) 5000) as [Hlt|Hge]; [|lia].
    destruct (rx s) as [|[t b] q] eqn:Hrx.
    + (* nothing in the queue *)
      cbn [arrived]. change (0 =? 0) with true. cbv iota.
      destruct (IH t0 (set_clock s (clock s + 1)) tagIndex)
        as (r & s' & cs & later & Hrun & Hq & Hpoll & Hlast);
        try (simpl; lia).
      simpl in Hq, Hpoll. rewrite Hrx in Hq, Hpoll.
      rewrite polled_nil in Hpoll.
      exists r, s', cs, later. rewrite Hrun.
      split; [reflexivity|]. split; [exact Hq|].
      split; [exact Hpoll|exact Hlast].
    + cbn [arrived polled].
      destruct (Z.leb_spec t (clock s)) as [Harr|Hlate].
      * (* a byte is there: read it *)
        pose proof (arrived_nonneg (clock s) q).
        destruct (Z.eqb_spec (1 + arrived (clock s) q) 0); [lia|].
        rewrite (Serial2_read_head s t b q Hrx Harr).
        rewrite u8_Z_of_byte, waitForTag_chain_cursor by lia.
        pose proof (cursor_step_range tagIndex b Hidx) as Hstep.
        destruct (Z.eqb_spec (cursor_step tagIndex b) 4) as [H4|Hn4].
        -- exists true, (set_rx s q), [(t, b)], (polled fuel (clock s + 1) q).
           split; [reflexivity|]. split; [reflexivity|].
           split; [reflexivity|discriminate].
        -- destruct (IH t0 (set_clock (set_rx s q) (clock (set_rx s q) + 1))
                       (cursor_step tagIndex b))
             as (r & s' & cs & later & Hrun & Hq & Hpoll & Hlast);
             try (simpl; lia).
           simpl in Hq, Hpoll.
           exists r, s', ((t, b) :: cs), later. rewrite Hrun.
           split; [reflexivity|]. split; [simpl; now rewrite Hq|].
           split; [simpl; now rewrite Hpoll|exact Hlast].
      * (* the first byte has not arrived *)
        change (0 =? 0) with true. cbv iota.
        destruct (IH t0 (set_clock s (clock s + 1)) tagIndex)
          as (r & s' & cs & later & Hrun & Hq & Hpoll & Hlast);
          try (simpl; lia).
        simpl in Hq, Hpoll. rewrite Hrx in Hq, Hpoll.
        exists r, s', cs, later. rewrite Hrun.
        split; [reflexivity|]. split; [exact Hq|].
        split; [exact Hpoll|exact Hlast].
Qed.

Lemma waitForTag_polled (s : State) :
  exists (r : bool) (s' : State) (cs later : list (Z * byte)),
    waitForTag s = Ok r s' /\
    rx s = cs ++ rx s' /\
    polled (Z.to_nat 5000) (clock s) (rx s) = cs ++ later /\
    (r = false -> later = []).
Proof.
  unfold waitForTag, bind, millis.
  apply waitForTag_loop_polled; lia.
Qed.

(** C7: in [waitForTag], a byte equal to the tag byte under the cursor moves
    the cursor one place on (the fourth match ends the function with
    [true]); any other byte puts the cursor back to zero, also when that byte
    is the first tag byte, which is not tried again at position 0.  The bytes
    the function reads are the bytes there are to see before the timeout
    elapses, one a millisecond for 5000 ms, in their order, up to the first
    on which the cursor of the design reaches 4: it returns [true] exactly
    when the cursor reaches 4 on some byte of them, less than 5000 ms after
    the call and having read no byte beyond that one; otherwise it has read
    them all and returns [false] after exactly 5000 ms. *)
Theorem sync_cursor_discipline :
  (forall receivedByte tagIndex,
      0 <= tagIndex < 4 ->
      receivedByte = nth (Z.to_nat tagIndex) SYNC_TAG (-1) ->
      waitForTag_chain receivedByte tagIndex =
        if tagIndex =? 3 then TagFound else TagIndex (tagIndex + 1)) /\
  (forall receivedByte tagIndex,
      0 <= tagIndex < 4 ->
      receivedByte <> nth (Z.to_nat tagIndex) SYNC_TAG (-1) ->
      waitForTag_chain receivedByte tagIndex = TagIndex 0) /\
  waitForTag_chain LDPC_TAG_0 1 = TagIndex 0 /\
  waitForTag_chain LDPC_TAG_0 2 = TagIndex 0 /\
  (forall s, exists r s' cs later,
      waitForTag s = Ok r s' /\
      rx s = cs ++ rx s' /\
      polled (Z.to_nat 5000) (clock s) (rx s) = cs ++ later /\
      (forall p q, bytes_of cs = p ++ q -> q <> [] -> cursor_run 0 p < 4) /\
      (r = true <-> cursor_run 0 (bytes_of cs) = 4) /\
      (r = true <->
       exists p q, polled (Z.to_nat 5000) (clock s) (rx s) = p ++ q /\
                   cursor_run 0 (bytes_of p) = 4) /\
      (r = true -> clock s' < clock s + 5000) /\
      (r = false -> clock s' = clock s + 5000 /\ later = [])).
Proof.
  split; [|split; [|split; [|split]]]; try reflexivity.
  - intros z i Hi Hz.
    assert (i = 0 \/ i = 1 \/ i = 2 \/ i = 3) as [-> | [-> | [-> | ->]]] by lia;
      subst z; reflexivity.
  - intros z i Hi Hz. unfold waitForTag_chain.
    assert (i = 0 \/ i = 1 \/ i = 2 \/ i = 3) as [-> | [-> | [-> | ->]]] by lia;
      unfold SYNC_TAG, LDPC_TAG_0, LDPC_TAG_1, LDPC_TAG_2, LDPC_TAG_3 in *;
      simpl (nth _ _ _) in Hz;
      destruct (Z.eqb_spec z 222); destruct (Z.eqb_spec z 173);
      destruct (Z.eqb_spec z 192); try lia; reflexivity.
  - intros s.
    destruct (waitForTag_run s) as (r & s' & cs & Hrun & Hrx & _ & Hpre & Hres).
    destruct (waitForTag_polled s)
      as (r1 & s1 & cs1 & later & Hrun1 & Hrx1 & Hpoll & Hlast).
    rewrite Hrun in Hrun1. injection Hrun1 as <- <-.
    rewrite Hrx in Hrx1. apply app_inv_tail in Hrx1. subst cs1.
    exists r, s', cs, later.
    split; [exact Hrun|]. split; [exact Hrx|]. split; [exact Hpoll|].
    split; [intros p q Hpq Hq; apply (Hpre p q Hpq Hq)|].
    split; [destruct r; intuition (try lia; try discriminate)|].
    split.
    + destruct r.
      * split; [intros _|reflexivity].
        exists cs, later. split; [exact Hpoll|apply Hres].
      * split; [discriminate|]. intros (p & q & Hpq & H4). exfalso.
        rewrite (Hlast eq_refl), app_nil_r in Hpoll.
        rewrite Hpoll in Hpq. destruct Hres as [Hlow _].
        destruct q as [|c q].
        -- rewrite app_nil_r in Hpq. subst p. lia.
        -- assert (Hlt : cursor_run 0 (bytes_of p) < 4).
           { apply (Hpre (bytes_of p) (bytes_of (c :: q))).
             - rewrite Hpq. apply bytes_of_app.
             - discriminate. }
           lia.
    + destruct r; (split; [intros Hr|intros Hr]);
        try discriminate; try (destruct Hres; lia).
      split; [apply Hres|apply Hlast; reflexivity].
Qed.

(** ** The parameter reply *)

Lemma land_shifted_byte (hi lo : Z) :
  0 <= lo < 256 -> Z.land (Z.shiftl hi 8) lo = 0.
Proof.
  intros Hlo. apply Z.bits_inj'. intros n Hn.
  rewrite Z.land_spec, Z.bits_0.
  destruct (Z.ltb_spec n 8) as [Hlow|Hhigh].
  - rewrite Z.shiftl_spec_low by lia. reflexivity.
  - destruct (Z.eq_dec lo 0) as [->|Hnz].
    + rewrite Z.bits_0. apply andb_false_r.
    + rewrite (Z.bits_above_log2 lo n); [apply andb_false_r|lia|].
      assert (Z.log2 lo < 8) by (apply Z.log2_lt_pow2; lia). lia.
Qed.

Lemma big_endian_16 (hi lo : byte) :
  wrap16 (Z.lor (Z.shiftl (Z_of_byte hi) 8) (Z_of_byte lo)) =
    256 * Z_of_byte hi + Z_of_byte lo.
Proof.
  pose proof (Z_of_byte_range hi) as Hhi.
  pose proof (Z_of_byte_range lo) as Hlo.
  pose proof (Z.add_lor_land (Z.shiftl (Z_of_byte hi) 8) (Z_of_byte lo)) as Hadd.
  rewrite land_shifted_byte in Hadd by assumption.
  rewrite Z.shiftl_mul_pow2 in * by lia.
  change (2 ^ 8) with 256 in *.
  unfold wrap16. rewrite Z.mod_small; lia.
Qed.

Lemma arrived_mono (q : list (Z * byte)) (t t' : Z) :
  t <= t' -> arrived t q <= arrived t' q.
Proof.
  intros Ht. induction q as [|[a b] q IH]; simpl; [lia|].
  destruct (Z.leb_spec a t); destruct (Z.leb_spec a t'); try lia.
  pose proof (arrived_nonneg t' q). lia.
Qed.

Lemma arrived_four (now : Z) (q : list (Z * byte)) :
  4 <= arrived now q ->
  exists t0 b0 t1 b1 t2 b2 t3 b3 rest,
    q = (t0, b0) :: (t1, b1) :: (t2, b2) :: (t3, b3) :: rest /\
    t0 <= now /\ t1 <= now /\ t2 <= now /\ t3 <= now.
Proof.
  intros H.
  destruct q as [|[t0 b0] [|[t1 b1] [|[t2 b2] [|[t3 b3] rest]]]];
    simpl in H;
    repeat match type of H with
           | context [?a <=? ?b] => destruct (Z.leb_spec a b)
           end; try lia.
  exists t0, b0, t1, b1, t2, b2, t3, b3, rest. repeat split; assumption.
Qed.

Lemma receiveParameters_loop_O (startTime : Z) (s : State) :
  receiveParameters_loop O startTime s =
    if elapsed (wrap32 (clock s)) startTime <? 3000 then Starved
    else Ok false s.
Proof.
  simpl. unfold bind, millis. destruct (_ <? _); reflexivity.
Qed.

Lemma receiveParameters_loop_wait (fuel : nat) (startTime : Z) (s : State) :
  elapsed (wrap32 (clock s)) startTime < 3000 ->
  arrived (clock s) (rx s) < 4 ->
  receiveParameters_loop (S fuel) startTime s =
    receiveParameters_loop fuel startTime (set_clock s (clock s + 10)).
Proof.
  intros Ht Ha. cbn [receiveParameters_loop].
  unfold bind, millis, Serial2_available, delay.
  destruct (Z.ltb_spec (elapsed (wrap32 (clock s)) startTime) 3000); [|lia].
  destruct (Z.leb_spec 4 (arrived (clock s) (rx s))); [lia|]. reflexivity.
Qed.

Lemma receiveParameters_loop_read (fuel : nat) (startTime : Z) (s : State)
    (t0 t1 t2 t3 : Z) (k_hi k_lo n_hi n_lo : byte) (rest : list (Z * byte)) :
  elapsed (wrap32 (clock s)) startTime < 3000 ->
  4 <= arrived (clock s) (rx s) ->
  rx s = (t0, k_hi) :: (t1, k_lo) :: (t2, n_hi) :: (t3, n_lo) :: rest ->
  receiveParameters_loop (S fuel) startTime s =
    Ok true (set_N (set_K (set_rx s rest)
                          (256 * Z_of_byte k_hi + Z_of_byte k_lo))
                   (256 * Z_of_byte n_hi + Z_of_byte n_lo)).
Proof.
  intros Ht Ha Hrx. cbn [receiveParameters_loop].
  unfold bind at 1. unfold millis at 1.
  destruct (Z.ltb_spec (elapsed (wrap32 (clock s)) startTime) 3000); [|lia].
  unfold bind at 1. unfold Serial2_available at 1.
  destruct (Z.leb_spec 4 (arrived (clock s) (rx s))); [|lia].
  rewrite Hrx in Ha. simpl in Ha.
  repeat match type of Ha with
         | context [?a <=? ?b] => destruct (Z.leb_spec a b)
         end; try lia.
  unfold bind.
  rewrite (Serial2_read_head s t0 k_hi _ Hrx) by assumption.
  rewrite (Serial2_read_head (set_rx s _) t1 k_lo _ eq_refl) by assumption.
  rewrite (Serial2_read_head (set_rx _ _) t2 n_hi _ eq_refl) by assumption.
  rewrite (Serial2_read_head (set_rx _ _) t3 n_lo _ eq_refl) by assumption.
  unfold store_K, store_N, ret.
  rewrite !u8_Z_of_byte, !big_endian_16.
  destruct s; reflexivity.
Qed.

(** The loop returns [false] when none of the polls still to come, one every
    10 ms while fewer than 3000 ms have passed, finds four bytes; and it
    reads the reply as soon as one of them does. *)
Lemma receiveParameters_loop_run (fuel : nat) :
  forall (t0 : Z) (s : State),
    0 <= clock s - t0 <= 3010 ->
    3000 - (clock s - t0) <= 10 * Z.of_nat fuel ->
    ((forall i, 0 <= i -> clock s - t0 + 10 * i < 3000 ->
                arrived (clock s + 10 * i) (rx s) < 4) ->
     exists t', receiveParameters_loop fuel (wrap32 t0) s
                  = Ok false (set_clock s t') /\ 3000 <= t' - t0 < 3010 + 1) /\
    (forall i, 0 <= i -> clock s - t0 + 10 * i < 3000 ->
               4 <= arrived (clock s + 10 * i) (rx s) ->
     exists tk k_hi tl k_lo tn n_hi tm n_lo rest t',
       rx s = (tk, k_hi) :: (tl, k_lo) :: (tn, n_hi) :: (tm, n_lo) :: rest /\
       receiveParameters_loop fuel (wrap32 t0) s =
         Ok true (set_N (set_K (set_rx (set_clock s t') rest)
                               (256 * Z_of_byte k_hi + Z_of_byte k_lo))
                        (256 * Z_of_byte n_hi + Z_of_byte n_lo)) /\
       clock s <= t' < t0 + 3000).
Proof.
  induction fuel as [|fuel IH]; intros t0 s Ht Hfuel.
  - split.
    + intros _. exists (clock s). rewrite receiveParameters_loop_O.
      rewrite elapsed_clock by lia.
      destruct (Z.ltb_spec (clock s - t0) 3000); [lia|].
      split; [destruct s; reflexivity|lia].
    + intros i Hi Hlt _. lia.
  - destruct (Z.lt_ge_cases (clock s - t0) 3000) as [Hlt|Hge].
    2:{ split.
        - intros _. exists (clock s). cbn [receiveParameters_loop].
          unfold bind, millis. rewrite elapsed_clock by lia.
          destruct (Z.ltb_spec (clock s - t0) 3000); [lia|].
          split; [destruct s; reflexivity|lia].
        - intros i Hi Hlt _. lia. }
    assert (Hel : elapsed (wrap32 (clock s)) (wrap32 t0) < 3000)
      by (rewrite elapsed_clock; lia).
    destruct (Z.lt_ge_cases (arrived (clock s) (rx s)) 4) as [Hfew|Hfour].
    + rewrite receiveParameters_loop_wait by assumption.
      destruct (IH t0 (set_clock s (clock s + 10))) as [IHno IHyes];
        try (simpl; lia).
      split.
      * intros Hnone. destruct IHno as (t' & Hrun & Hbound).
        { intros i Hi Hlt'. simpl in *.
          replace (clock s + 10 + 10 * i) with (clock s + 10 * (i + 1)) by lia.
          apply Hnone; lia. }
        exists t'. rewrite Hrun. split; [destruct s; reflexivity|lia].
      * intros i Hi Hlt' Hsee.
        assert (i <> 0)
          by (intros ->; replace (clock s + 10 * 0) with (clock s) in Hsee; lia).
        destruct (IHyes (i - 1)) as
          (tk & k_hi & tl & k_lo & tn & n_hi & tm & n_lo & rest & t' &
           Hrx & Hrun & Hbound); simpl; try lia.
        { replace (clock s + 10 + 10 * (i - 1)) with (clock s + 10 * i) by lia.
          assumption. }
        exists tk, k_hi, tl, k_lo, tn, n_hi, tm, n_lo, rest, t'.
        simpl in Hrx, Hbound. rewrite Hrun.
        split; [assumption|]. split; [destruct s; reflexivity|lia].
    + destruct (arrived_four _ _ Hfour) as
        (tk & k_hi & tl & k_lo & tn & n_hi & tm & n_lo & rest & Hrx & _).
      rewrite (receiveParameters_loop_read fuel (wrap32 t0) s
                 tk tl tn tm k_hi k_lo n_hi n_lo rest) by assumption.
      split.
      * intros Hnone. specialize (Hnone 0 ltac:(lia) ltac:(lia)).
        replace (clock s + 10 * 0) with (clock s) in Hnone by lia. lia.
      * intros i Hi Hlt' Hsee.
        exists tk, k_hi, tl, k_lo, tn, n_hi, tm, n_lo, rest, (clock s).
        split; [assumption|]. split; [destruct s; reflexivity|lia].
Qed.

(** C8, the claim as stated, refuted: four bytes that arrive 2995 ms after
    the call are available before the 3000 ms timeout, yet the last poll, at
    2990 ms, is over and [receiveParameters] returns [false]. *)
Lemma receiveParameters_misses_late_reply :
  arrived 2999 (queued 2995 [x10; x00; x20; x00]) = 4 /\
  returned (receiveParameters
              (initial_state 0 (queued 2995 [x10; x00; x20; x00])))
    = Some false.
Proof. vm_compute. split; reflexivity. Qed.

(** C8, amended: [receiveParameters] polls every 10 ms, the last time 2990 ms
    after the call.  When at least four bytes are available at one of these
    polls it returns [true], takes exactly the first four bytes off the
    queue, leaves every later byte there, and stores K = 256 * first + second
    and N = 256 * third + fourth; nothing else changes but the clock.  When
    fewer than four bytes are there at the last poll it returns [false] once
    the 3000 ms have passed, having read nothing. *)
Theorem receiveParameters_reads_big_endian_pair (s : State) :
  (4 <= arrived (clock s + 2990) (rx s) ->
   exists tk k_hi tl k_lo tn n_hi tm n_lo rest t',
     rx s = (tk, k_hi) :: (tl, k_lo) :: (tn, n_hi) :: (tm, n_lo) :: rest /\
     receiveParameters s =
       Ok true (set_N (set_K (set_rx (set_clock s t') rest)
                             (256 * Z_of_byte k_hi + Z_of_byte k_lo))
                      (256 * Z_of_byte n_hi + Z_of_byte n_lo)) /\
     clock s <= t' < clock s + 3000) /\
  (arrived (clock s + 2990) (rx s) < 4 ->
   exists t', receiveParameters s = Ok false (set_clock s t') /\
              clock s + 3000 <= t' <= clock s + 3010).
Proof.
  unfold receiveParameters, bind, millis.
  destruct (receiveParameters_loop_run (Z.to_nat 300) (clock s) s)
    as [Hno Hyes]; try lia.
  split.
  - intros Hsee. apply (Hyes 299); try lia.
    replace (clock s + 10 * 299) with (clock s + 2990) by lia. assumption.
  - intros Hfew. destruct Hno as (t' & Hrun & Hbound).
    + intros i Hi Hlt.
      pose proof (arrived_mono (rx s) (clock s + 10 * i) (clock s + 2990)).
      lia.
    + exists t'. split; [assumption|lia].
Qed.

(** The theorem at a reply of five bytes that arrives after 40 ms. *)
Lemma receiveParameters_reads_big_endian_pair_witness :
  exists tk k_hi tl k_lo tn n_hi tm n_lo rest t',
    queued 40 [x10; x00; x20; x00; x55] =
      (tk, k_hi) :: (tl, k_lo) :: (tn, n_hi) :: (tm, n_lo) :: rest /\
    receiveParameters (initial_state 0 (queued 40 [x10; x00; x20; x00; x55])) =
      Ok true
         (set_N (set_K (set_rx (set_clock
                                  (initial_state 0
                                     (queued 40 [x10; x00; x20; x00; x55])) t')
                               rest)
                       (256 * Z_of_byte k_hi + Z_of_byte k_lo))
                (256 * Z_of_byte n_hi + Z_of_byte n_lo)) /\
    0 <= t' < 0 + 3000.
Proof.
  apply (proj1 (receiveParameters_reads_big_endian_pair
                  (initial_state 0 (queued 40 [x10; x00; x20; x00; x55])))).
  vm_compute. discriminate.
Defined.

(** C3, the code at the failing input: a parameter reply of four zero bytes
    is accepted, [receiveParameters] returns [true] with K = 0 and N = 0, and
    the block count that [sendMessageData] computes next divides by zero; a
    whole session with the text message "A" ends that way. *)
Lemma receiveParameters_accepts_zero_K :
  (exists s1,
      receiveParameters (initial_state 0 (queued 0 [x00; x00; x00; x00]))
        = Ok true s1 /\
      K s1 = 0 /\ N s1 = 0 /\
      sendMessageData (message_buffer s1) 8 0 s1 = Fault DivisionByZero s1) /\
  faulted
    (handleEncoding INPUT_TEXT (typed "A")
       (initial_state 0
          (queued 0 [xde; xad; xc0; xde; x00; x00; x00; x00])))
    = Some DivisionByZero.
Proof.
  split.
  - eexists. split; [vm_compute; reflexivity|].
    split; [reflexivity|]. split; [reflexivity|]. vm_compute. reflexivity.
  - vm_compute. reflexivity.
Qed.

(** ** The block transfer *)

Lemma bytes_for_ceiling (bits : Z) :
  0 <= bits -> is_ceiling (bytes_for bits) bits 8.
Proof.
  intros H. unfold is_ceiling, bytes_for.
  rewrite Z.quot_div_nonneg by lia.
  pose proof (Z.div_mod (bits + 7) 8 ltac:(lia)).
  pose proof (Z.mod_pos_bound (bits + 7) 8 ltac:(lia)). lia.
Qed.

Lemma byteToSend_padded (data : list byte) (messageBits dataIndex : Z)
    (s : State) :
  0 <= dataIndex ->
  bytes_for messageBits <= Z.of_nat (length data) ->
  byteToSend data messageBits dataIndex s
    = Ok (padded_byte data messageBits dataIndex) s.
Proof.
  intros Hidx Hlen. unfold byteToSend, padded_byte, load.
  destruct (Z.ltb_spec dataIndex (bytes_for messageBits)); [|reflexivity].
  destruct (Z.leb_spec 0 dataIndex); [|lia].
  destruct (Z.ltb_spec dataIndex (Z.of_nat (length data))); [|lia].
  reflexivity.
Qed.

Lemma send_block_loop_done (fuel : nat) (data : list byte)
    (messageBits block K_bytes i : Z) (s : State) :
  K_bytes <= i ->
  send_block_loop fuel data messageBits block K_bytes i s = Ok tt s.
Proof.
  intros H. destruct fuel; simpl;
    destruct (Z.ltb_spec i K_bytes); try lia; reflexivity.
Qed.

Lemma send_block_loop_S (fuel : nat) (data : list byte)
    (messageBits block K_bytes i : Z) (s : State) :
  i < K_bytes ->
  send_block_loop (S fuel) data messageBits block K_bytes i s =
    match byteToSend data messageBits (wrap16 (block * K_bytes + i)) s with
    | Ok b s1 =>
        send_block_loop fuel data messageBits block K_bytes (wrap16 (i + 1))
          (set_clock (set_tx s1 (tx s1 ++ [b])) (clock s1 + 10))
    | Fault f s1 => Fault f s1
    | Starved => Starved
    end.
Proof.
  intros H. cbn [send_block_loop].
  destruct (Z.ltb_spec i K_bytes); [|lia].
  unfold bind, Serial2_write, delay.
  destruct (byteToSend _ _ _ s); reflexivity.
Qed.

Lemma send_block_loop_run (data : list byte) (messageBits block K_bytes : Z)
    (fuel : nat) :
  forall (i : Z) (s : State),
    0 <= i <= K_bytes ->
    K_bytes - i <= Z.of_nat fuel ->
    0 <= block * K_bytes ->
    block * K_bytes + K_bytes < 65536 ->
    bytes_for messageBits <= Z.of_nat (length data) ->
    send_block_loop fuel data messageBits block K_bytes i s =
      Ok tt (set_clock
               (set_tx s (tx s ++
                          map (fun j => padded_byte data messageBits
                                          (block * K_bytes + j))
                              (seqZ i (K_bytes - i))))
               (clock s + 10 * (K_bytes - i))).
Proof.
  induction fuel as [|fuel IH]; intros i s Hi Hfuel Hb Hfit Hlen.
  - assert (i = K_bytes) as -> by lia.
    rewrite send_block_loop_done by lia.
    rewrite Z.sub_diag, Z.mul_0_r, Z.add_0_r. simpl. rewrite app_nil_r.
    destruct s; reflexivity.
  - destruct (Z.eq_dec i K_bytes) as [->|Hne].
    + rewrite send_block_loop_done by lia.
      rewrite Z.sub_diag, Z.mul_0_r, Z.add_0_r. simpl. rewrite app_nil_r.
      destruct s; reflexivity.
    + rewrite send_block_loop_S by lia.
      unfold wrap16. rewrite !Z.mod_small by lia.
      rewrite byteToSend_padded by (assumption || lia).
      rewrite IH by (assumption || simpl; lia).
      rewrite (seqZ_cons i (K_bytes - i)) by lia. simpl.
      replace (Z.pred (K_bytes - i)) with (K_bytes - (i + 1)) by lia.
      replace (Z.succ i) with (i + 1) by lia.
      rewrite <- app_assoc. simpl.
      f_equal. destruct s; simpl. f_equal. lia.
Qed.

Lemma store_encoded_inside (index : Z) (b : byte) (s : State) :
  0 <= index < Z.of_nat (length (encoded_buffer s)) ->
  store_encoded index b s =
    Ok tt (set_encoded_buffer s (<[Z.to_nat index := b]> (encoded_buffer s))).
Proof.
  intros H. unfold store_encoded.
  destruct (Z.leb_spec 0 index); [|lia].
  destruct (Z.ltb_spec index (Z.of_nat (length (encoded_buffer s)))); [|lia].
  reflexivity.
Qed.

Lemma store_encoded_outside (index : Z) (b : byte) (s : State) :
  Z.of_nat (length (encoded_buffer s)) <= index ->
  store_encoded index b s = Fault (EncodedBufferOverrun index) s.
Proof.
  intros H. unfold store_encoded.
  destruct (Z.ltb_spec index (Z.of_nat (length (encoded_buffer s)))); [lia|].
  now rewrite andb_false_r.
Qed.

Lemma receive_block_loop_done (fuel : nat) (block N_bytes startTime
    receivedBytes : Z) (s : State) :
  N_bytes <= receivedBytes \/ 3000 <= elapsed (wrap32 (clock s)) startTime ->
  receive_block_loop fuel block N_bytes startTime receivedBytes s
    = Ok receivedBytes s.
Proof.
  intros H. destruct fuel; simpl; unfold bind, millis;
    destruct (Z.ltb_spec receivedBytes N_bytes);
    destruct (Z.ltb_spec (elapsed (wrap32 (clock s)) startTime) 3000);
    try lia; reflexivity.
Qed.

Lemma receive_block_loop_S (fuel : nat) (block N_bytes startTime
    receivedBytes : Z) (s : State) :
  receivedBytes < N_bytes ->
  elapsed (wrap32 (clock s)) startTime < 3000 ->
  receive_block_loop (S fuel) block N_bytes startTime receivedBytes s =
    if arrived (clock s) (rx s) =? 0 then
      receive_block_loop fuel block N_bytes startTime receivedBytes
                         (set_clock s (clock s + 1))
    else
      match Serial2_read s with
      | Ok r s1 =>
          match store_encoded (block * N_bytes + receivedBytes) (u8 r) s1 with
          | Ok _ s2 =>
              receive_block_loop fuel block N_bytes startTime
                                 (wrap16 (receivedBytes + 1))
                                 (set_clock s2 (clock s2 + 1))
          | Fault f s2 => Fault f s2
          | Starved => Starved
          end
      | Fault f s1 => Fault f s1
      | Starved => Starved
      end.
Proof.
  intros Hr Ht. cbn [receive_block_loop].
  unfold bind at 1. unfold millis at 1.
  destruct (Z.ltb_spec receivedBytes N_bytes); [|lia].
  destruct (Z.ltb_spec (elapsed (wrap32 (clock s)) startTime) 3000); [|lia].
  cbv beta iota delta [andb].
  unfold bind, Serial2_available, delay.
  destruct (_ =? _); cbv beta iota delta [negb]; [reflexivity|].
  destruct (Serial2_read s); try reflexivity.
Qed.

Lemma received_into_nothing (s : State) (first t : Z) :
  received_into s (set_clock s t) first [].
Proof. split; destruct s; reflexivity. Qed.

Lemma received_into_tick (s s' : State) (first : Z) (cs : list (Z * byte)) :
  received_into (set_clock s (clock s + 1)) s' first cs ->
  received_into s s' first cs.
Proof.
  intros [Hrx Hs]. split; [exact Hrx|]. rewrite Hs at 1.
  destruct s; reflexivity.
Qed.

Lemma received_into_byte (s s' : State) (first t : Z) (b : byte)
    (q cs : list (Z * byte)) :
  rx s = (t, b) :: q -> 0 <= first ->
  received_into
    (set_clock
       (set_encoded_buffer (set_rx s q)
                           (<[Z.to_nat first := b]> (encoded_buffer s)))
       (clock s + 1))
    s' (first + 1) cs ->
  received_into s s' first ((t, b) :: cs).
Proof.
  intros Hq Hfirst [Hrx Hs]. simpl in Hrx. split.
  - rewrite Hq, Hrx. reflexivity.
  - rewrite Hs at 1. simpl.
    replace (Z.to_nat (first + 1)) with (S (Z.to_nat first)) by lia.
    rewrite list_insert_inserts_lt by lia.
    destruct s; reflexivity.
Qed.

Lemma receive_block_loop_run (block N_bytes : Z) (fuel : nat) :
  forall (t0 receivedBytes : Z) (s : State),
    0 <= clock s - t0 <= 3000 ->
    3000 - (clock s - t0) <= Z.of_nat fuel ->
    0 <= receivedBytes <= N_bytes -> N_bytes < 65536 ->
    0 <= block * N_bytes ->
    match receive_block_loop fuel block N_bytes (wrap32 t0) receivedBytes s with
    | Ok r' s' =>
        exists cs,
          received_into s s' (block * N_bytes + receivedBytes) cs /\
          r' = receivedBytes + Z.of_nat (length cs) /\
          r' <= N_bytes /\
          (cs <> [] ->
           block * N_bytes + r' <= Z.of_nat (length (encoded_buffer s))) /\
          clock s <= clock s' <= t0 + 3000 /\
          (r' < N_bytes -> clock s' = t0 + 3000) /\
          Forall (fun c => fst c <= t0 + 2999) cs
    | Fault f s' =>
        exists index,
          f = EncodedBufferOverrun index /\
          Z.of_nat (length (encoded_buffer s)) <= index /\
          block * N_bytes + receivedBytes <= index < block * N_bytes + N_bytes /\
          tx s' = tx s
    | Starved => False
    end.
Proof.
  assert (Hstop : forall (s : State) (t0 r : Z),
             0 <= r <= N_bytes -> 0 <= clock s - t0 <= 3000 ->
             (r < N_bytes -> clock s = t0 + 3000) ->
             exists cs : list (Z * byte),
               received_into s s (block * N_bytes + r) cs /\
               r = r + Z.of_nat (length cs) /\ r <= N_bytes /\
               (cs <> [] ->
                block * N_bytes + r <= Z.of_nat (length (encoded_buffer s))) /\
               clock s <= clock s <= t0 + 3000 /\
               (r < N_bytes -> clock s = t0 + 3000) /\
               Forall (fun c => fst c <= t0 + 2999) cs).
  { intros s t0 r Hr Ht Hlate. exists [].
    split.
    - replace s with (set_clock s (clock s)) at 2 by (destruct s; reflexivity).
      apply received_into_nothing.
    - simpl. repeat split; try lia; try congruence; auto. }
  induction fuel as [|fuel IH]; intros t0 r s Ht Hfuel Hr HN Hbase.
  - rewrite receive_block_loop_done by (rewrite elapsed_clock; lia).
    apply Hstop; lia.
  - destruct (Z.eq_dec r N_bytes) as [->|Hless].
    { rewrite receive_block_loop_done by lia. apply Hstop; lia. }
    destruct (Z.eq_dec (clock s - t0) 3000) as [Hend|Hgo].
    { rewrite receive_block_loop_done by (rewrite elapsed_clock; lia).
      apply Hstop; lia. }
    rewrite receive_block_loop_S by (try rewrite elapsed_clock; lia).
    destruct (Z.eqb_spec (arrived (clock s) (rx s)) 0) as [Hnone|Hsome].
    + (* no byte has arrived *)
      specialize (IH t0 r (set_clock s (clock s + 1))).
      destruct (receive_block_loop fuel block N_bytes (wrap32 t0) r
                  (set_clock s (clock s + 1))) as [r' s'|f s'|];
        simpl in IH.
      * destruct IH as (cs & Hinto & Hr' & Hle & Hfit & Hclk & Hout & Hts);
          try lia.
        exists cs. split; [now apply received_into_tick|].
        repeat split; try assumption; lia.
      * apply IH; lia.
      * apply IH; lia.
    + (* a byte is there: read and store it *)
      destruct (rx s) as [|[t b] q] eqn:Hrx; [simpl in Hsome; lia|].
      simpl in Hsome. destruct (Z.leb_spec t (clock s)) as [Harr|]; [|lia].
      rewrite (Serial2_read_head s t b q Hrx Harr), u8_Z_of_byte.
      destruct (Z.lt_ge_cases (block * N_bytes + r)
                  (Z.of_nat (length (encoded_buffer s)))) as [Hin|Hout].
      * rewrite store_encoded_inside by (simpl; lia).
        unfold wrap16. rewrite Z.mod_small by lia.
        specialize (IH t0 (r + 1)
                      (set_clock
                         (set_encoded_buffer (set_rx s q)
                            (<[Z.to_nat (block * N_bytes + r) := b]>
                               (encoded_buffer s)))
                         (clock s + 1))).
        simpl in IH |- *.
        destruct (receive_block_loop fuel block N_bytes (wrap32 t0) (r + 1) _)
          as [r' s'|f s'|].
        -- destruct IH as (cs & Hinto & Hr' & Hle & Hfit & Hclk & Hlate & Hts);
             try lia.
           exists ((t, b) :: cs). split.
           { apply received_into_byte with (q := q); try assumption; try lia.
             replace (block * N_bytes + r + 1)
               with (block * N_bytes + (r + 1)) by lia.
             exact Hinto. }
           rewrite length_insert in Hfit.
           simpl length.
           split; [lia|]. split; [lia|]. split.
           { intros _. destruct cs as [|c cs]; [simpl in *; lia|].
             apply Hfit. discriminate. }
           split; [lia|]. split; [lia|].
           constructor; [simpl; lia|assumption].
        -- destruct IH as (index & Hf & Hlen & Hrange & Htx); try lia.
           exists index. rewrite length_insert in Hlen.
           repeat split; try assumption; lia.
        -- apply IH; lia.
      * rewrite store_encoded_outside by (simpl; lia).
        exists (block * N_bytes + r). repeat split; try lia.
Qed.

(** *** Block arithmetic *)

Lemma blocks_ceiling (bits k : Z) :
  0 < k -> 0 <= bits -> is_ceiling ((bits + k - 1) ÷ k) bits k.
Proof.
  intros Hk Hbits. unfold is_ceiling.
  rewrite Z.quot_div_nonneg by lia.
  pose proof (Z.div_mod (bits + k - 1) k ltac:(lia)).
  pose proof (Z.mod_pos_bound (bits + k - 1) k Hk). lia.
Qed.

Lemma is_ceiling_unique (c c' a b : Z) :
  0 < b -> is_ceiling c a b -> is_ceiling c' a b -> c = c'.
Proof. unfold is_ceiling. intros Hb H H'. nia. Qed.

Lemma is_ceiling_nonneg (c a b : Z) :
  0 < b -> 0 <= a -> is_ceiling c a b -> 0 <= c.
Proof. unfold is_ceiling. intros Hb Ha H. nia. Qed.

Lemma blocks_range (bits k : Z) :
  0 < k -> 0 <= bits < 65536 -> 0 <= (bits + k - 1) ÷ k < 65536.
Proof.
  intros Hk Hbits. pose proof (blocks_ceiling bits k Hk ltac:(lia)) as H.
  unfold is_ceiling in H. nia.
Qed.

Lemma bytes_for_range (bits : Z) :
  0 <= bits < 65536 -> 0 <= bytes_for bits <= 8192.
Proof.
  intros H. pose proof (bytes_for_ceiling bits ltac:(lia)) as Hc.
  unfold is_ceiling in Hc. lia.
Qed.

(** Every [dataIndex] of a transfer fits [uint16_t]. *)
Lemma block_index_fits (bits k : Z) :
  0 < k < 65536 -> 0 <= bits < 65536 ->
  (bits + k - 1) ÷ k * bytes_for k < 65536.
Proof.
  intros Hk Hbits.
  pose proof (blocks_ceiling bits k ltac:(lia) ltac:(lia)) as Hc.
  pose proof (bytes_for_ceiling k ltac:(lia)) as Hb.
  pose proof (blocks_range bits k ltac:(lia) Hbits) as Hr.
  unfold is_ceiling in *.
  set (c := (bits + k - 1) ÷ k) in *. set (kb := bytes_for k) in *.
  destruct (Z.le_gt_cases k 8).
  - assert (kb = 1) by lia. nia.
  - assert (9 * kb <= 2 * k) by lia.
    assert (9 * kb * c <= 2 * k * c) by (apply Z.mul_le_mono_nonneg_r; lia).
    nia.
Qed.

(** *** One block, then all of them *)

Lemma transferred_nothing (s : State) : transferred s s [] 0 [].
Proof.
  split; [reflexivity|]. simpl. rewrite app_nil_r. destruct s; reflexivity.
Qed.

Lemma transferred_first (s s' : State) (sent : list byte) (a b : Z) :
  transferred s s' sent a [] -> transferred s s' sent b [].
Proof. intros [H1 H2]. split; [exact H1|exact H2]. Qed.

Lemma transferred_frame (s s' : State) (sent : list byte) (first : Z)
    (cs : list (Z * byte)) :
  transferred s s' sent first cs ->
  tx s' = tx s ++ sent /\ K s' = K s /\ N s' = N s /\
  message_bits s' = message_bits s /\ message_buffer s' = message_buffer s /\
  console s' = console s /\ currentState s' = currentState s /\
  lastInputMode s' = lastInputMode s /\
  length (encoded_buffer s') = length (encoded_buffer s).
Proof.
  intros [_ ->]. simpl. rewrite length_inserts. repeat split.
Qed.

Lemma transferred_trans (s s1 s2 : State) (sent1 sent2 : list byte)
    (first : Z) (cs1 cs2 : list (Z * byte)) :
  0 <= first ->
  transferred s s1 sent1 first cs1 ->
  transferred s1 s2 sent2 (first + Z.of_nat (length cs1)) cs2 ->
  transferred s s2 (sent1 ++ sent2) first (cs1 ++ cs2).
Proof.
  intros Hfirst [Hrx1 Hs1] [Hrx2 Hs2]. split.
  - rewrite Hrx1, Hrx2, app_assoc. reflexivity.
  - rewrite Hs2 at 1. rewrite Hs1 at 1 2 3. simpl.
    rewrite bytes_of_app, list_inserts_app_l.
    assert (Hlen : length (bytes_of cs1) = length cs1) by apply length_map.
    rewrite Hlen.
    replace (Z.to_nat (first + Z.of_nat (length cs1)))
      with (length cs1 + Z.to_nat first)%nat by lia.
    rewrite <- app_assoc. destruct s; reflexivity.
Qed.

Lemma transfer_block_run (data : list byte) (messageBits K_bytes block : Z)
    (s : State) :
  0 <= K_bytes -> 0 <= block * K_bytes ->
  block * K_bytes + K_bytes < 65536 ->
  bytes_for messageBits <= Z.of_nat (length data) ->
  0 <= block * wrap16 (bytes_for (N s)) ->
  match transfer_block data messageBits K_bytes block s with
  | Ok ok s' =>
      exists cs,
        transferred s s' (block_payload data messageBits K_bytes block)
                    (block * wrap16 (bytes_for (N s))) cs /\
        (cs <> [] ->
         block * wrap16 (bytes_for (N s)) + Z.of_nat (length cs)
           <= Z.of_nat (length (encoded_buffer s))) /\
        Forall (fun c => fst c <= clock s + 10 * K_bytes + 2999) cs /\
        (if ok then Z.of_nat (length cs) = wrap16 (bytes_for (N s))
         else Z.of_nat (length cs) < wrap16 (bytes_for (N s)) /\
              clock s' = clock s + 10 * K_bytes + 3000)
  | Fault f s' =>
      exists index,
        f = EncodedBufferOverrun index /\
        Z.of_nat (length (encoded_buffer s)) <= index /\
        block * wrap16 (bytes_for (N s)) <= index
          < block * wrap16 (bytes_for (N s)) + wrap16 (bytes_for (N s)) /\
        tx s' = tx s ++ block_payload data messageBits K_bytes block
  | Starved => False
  end.
Proof.
  intros HK Hb Hfit Hlen HbN.
  set (Nb := wrap16 (bytes_for (N s))) in *.
  assert (HNb : 0 <= Nb < 65536) by (apply Z.mod_pos_bound; lia).
  unfold transfer_block, bind at 1.
  rewrite (send_block_loop_run data messageBits block K_bytes)
    by (assumption || lia).
  rewrite Z.sub_0_r. fold (block_payload data messageBits K_bytes block).
  set (s1 := set_clock _ _).
  unfold bind at 1, get at 1. change (N s1) with (N s). fold Nb.
  unfold bind at 1, millis at 1. unfold bind.
  pose proof (receive_block_loop_run block Nb (Z.to_nat 3000)
                (clock s1) 0 s1) as Hrun.
  destruct (receive_block_loop (Z.to_nat 3000) block Nb (wrap32 (clock s1))
              0 s1) as [r s'|f s'|].
  - destruct Hrun as (cs & [Hrx Hs'] & Hr & Hle & Hin & Hclk & Hlate & Hts);
      try lia.
    assert (Hinto : transferred s s'
                      (block_payload data messageBits K_bytes block)
                      (block * Nb) cs).
    { split; [exact Hrx|]. rewrite Hs' at 1. rewrite Z.add_0_r.
      subst s1. destruct s; reflexivity. }
    assert (Hin' : cs <> [] ->
                   block * Nb + Z.of_nat (length cs)
                     <= Z.of_nat (length (encoded_buffer s))).
    { intros Hcs. specialize (Hin Hcs). subst s1 r. simpl in Hin. lia. }
    destruct (Z.ltb_spec r Nb) as [Hshort|Hfull]; unfold ret;
      exists cs; (split; [exact Hinto|]); (split; [exact Hin'|]);
      (split; [exact Hts|]).
    + split; [lia|]. rewrite (Hlate Hshort). subst s1. simpl. lia.
    + lia.
  - destruct Hrun as (index & Hf & Hout & Hrange & Htx); try lia.
    exists index. split; [assumption|]. split; [exact Hout|].
    split; [lia|exact Htx].
  - apply Hrun; lia.
Qed.

Lemma payloads_cons (data : list byte) (messageBits K_bytes first n : Z) :
  0 < n ->
  payloads data messageBits K_bytes first n =
    block_payload data messageBits K_bytes first ++
    payloads data messageBits K_bytes (first + 1) (n - 1).
Proof.
  intros Hn. unfold payloads. rewrite (seqZ_cons first n) by lia.
  replace (Z.succ first) with (first + 1) by lia.
  replace (Z.pred n) with (n - 1) by lia. reflexivity.
Qed.

Lemma payloads_one (data : list byte) (messageBits K_bytes first : Z) :
  payloads data messageBits K_bytes first 1 =
    block_payload data messageBits K_bytes first.
Proof.
  rewrite payloads_cons by lia. unfold payloads. simpl. apply app_nil_r.
Qed.

Lemma sendMessageData_loop_done (fuel : nat) (data : list byte)
    (messageBits K_bytes C block : Z) (s : State) :
  C <= block ->
  sendMessageData_loop fuel data messageBits K_bytes C block s = Ok true s.
Proof.
  intros H. destruct fuel; simpl;
    destruct (Z.ltb_spec block C); try lia; reflexivity.
Qed.

Lemma sendMessageData_loop_S (fuel : nat) (data : list byte)
    (messageBits K_bytes C block : Z) (s : State) :
  block < C ->
  sendMessageData_loop (S fuel) data messageBits K_bytes C block s =
    match transfer_block data messageBits K_bytes block s with
    | Ok true s1 =>
        sendMessageData_loop fuel data messageBits K_bytes C
                             (wrap16 (block + 1)) s1
    | Ok false s1 => Ok false s1
    | Fault f s1 => Fault f s1
    | Starved => Starved
    end.
Proof.
  intros H. cbn [sendMessageData_loop].
  destruct (Z.ltb_spec block C); [|lia]. unfold bind.
  destruct (transfer_block _ _ _ _ s) as [[|] s1| |]; reflexivity.
Qed.

Lemma sendMessageData_loop_run (data : list byte)
    (messageBits K_bytes C N_bytes : Z) (fuel : nat) :
  forall (block : Z) (s : State),
    0 <= block <= C -> C < 65536 ->
    C - block <= Z.of_nat fuel ->
    0 <= K_bytes -> C * K_bytes < 65536 ->
    bytes_for messageBits <= Z.of_nat (length data) ->
    N_bytes = wrap16 (bytes_for (N s)) ->
    match sendMessageData_loop fuel data messageBits K_bytes C block s with
    | Ok ok s' =>
        exists n cs,
          0 <= n <= C - block /\
          transferred s s' (payloads data messageBits K_bytes block n)
                      (block * N_bytes) cs /\
          (cs <> [] ->
           block * N_bytes + Z.of_nat (length cs)
             <= Z.of_nat (length (encoded_buffer s))) /\
          (if ok then n = C - block /\ Z.of_nat (length cs) = n * N_bytes
           else 0 < n /\
                (n - 1) * N_bytes <= Z.of_nat (length cs) < n * N_bytes)
    | Fault f s' =>
        exists index n,
          f = EncodedBufferOverrun index /\
          Z.of_nat (length (encoded_buffer s)) <= index < C * N_bytes /\
          0 < n <= C - block /\
          tx s' = tx s ++ payloads data messageBits K_bytes block n
    | Starved => False
    end.
Proof.
  induction fuel as [|fuel IH];
    intros block s Hblock HC Hfuel HK Hfit Hlen HN.
  - rewrite sendMessageData_loop_done by lia.
    exists 0, []. split; [lia|].
    split; [apply (transferred_first _ _ _ 0), transferred_nothing|].
    split; [congruence|simpl; lia].
  - destruct (Z.eq_dec block C) as [->|Hne].
    { rewrite sendMessageData_loop_done by lia.
      exists 0, []. split; [lia|].
      split; [apply (transferred_first _ _ _ 0), transferred_nothing|].
      split; [congruence|simpl; lia]. }
    assert (HNb : 0 <= N_bytes < 65536)
      by (subst N_bytes; apply Z.mod_pos_bound; lia).
    assert (0 <= block * K_bytes) by (apply Z.mul_nonneg_nonneg; lia).
    assert (0 <= block * N_bytes) by (apply Z.mul_nonneg_nonneg; lia).
    assert (0 <= (C - block - 1) * K_bytes)
      by (apply Z.mul_nonneg_nonneg; lia).
    assert (0 <= (C - block - 1) * N_bytes)
      by (apply Z.mul_nonneg_nonneg; lia).
    rewrite sendMessageData_loop_S by lia.
    pose proof (transfer_block_run data messageBits K_bytes block s) as Hone.
    rewrite <- HN in Hone.
    destruct (transfer_block data messageBits K_bytes block s)
      as [[|] s1|f s1|].
    + (* the block came back whole: go on with the next one *)
      destruct Hone as (cs1 & Hinto1 & Hin1 & _ & Hfull); try lia.
      destruct (transferred_frame _ _ _ _ _ Hinto1)
        as (Htx1 & _ & HN1 & _ & _ & _ & _ & _ & Hlen1).
      unfold wrap16 at 1. rewrite Z.mod_small by lia.
      specialize (IH (block + 1) s1).
      destruct (sendMessageData_loop fuel data messageBits K_bytes C
                  (block + 1) s1) as [ok s'|f s'|].
      * destruct IH as (n & cs & Hn & Hinto & Hin & Hres);
          try (assumption || lia || congruence).
        exists (n + 1), (cs1 ++ cs). split; [lia|]. split.
        { rewrite payloads_cons by lia.
          replace (n + 1 - 1) with n by lia.
          apply transferred_trans with (s1 := s1); try assumption.
          replace (block * N_bytes + Z.of_nat (length cs1))
            with ((block + 1) * N_bytes) by lia.
          exact Hinto. }
        rewrite length_app, Nat2Z.inj_add. split.
        { intros Hsome. destruct cs as [|c cs].
          - simpl. rewrite Z.add_0_r. apply Hin1.
            intros ->. now apply Hsome.
          - specialize (Hin ltac:(discriminate)). lia. }
        destruct ok; lia.
      * destruct IH as (index & n & Hf & Hout & Hn & Htx);
          try (assumption || lia || congruence).
        exists index, (n + 1). split; [assumption|]. split; [lia|].
        split; [lia|].
        rewrite Htx, Htx1, (payloads_cons _ _ _ block (n + 1)) by lia.
        replace (n + 1 - 1) with n by lia. now rewrite app_assoc.
      * apply IH; try (assumption || lia || congruence).
    + (* the block timed out: the function returns at once *)
      destruct Hone as (cs1 & Hinto1 & Hin1 & _ & Hshort & _); try lia.
      exists 1, cs1. split; [lia|].
      rewrite payloads_one. split; [exact Hinto1|].
      split; [exact Hin1|lia].
    + destruct Hone as (index & Hf & Hout & Hrange & Htx); try lia.
      exists index, 1. split; [assumption|]. split; [lia|].
      split; [lia|]. now rewrite payloads_one.
    + apply Hone; lia.
Qed.

Lemma sendMessageData_unfold (data : list byte)
    (messageBits calculationBits : Z) (s : State) :
  K s <> 0 ->
  sendMessageData data messageBits calculationBits s =
    sendMessageData_loop (Z.to_nat 65536) data messageBits
      (wrap16 (bytes_for (K s)))
      (wrap16 (((if 0 <? calculationBits then calculationBits
                 else messageBits) + K s - 1) ÷ K s))
      0 s.
Proof.
  intros HK. unfold sendMessageData, bind, get, blocks_for.
  destruct (Z.eqb_spec (K s) 0); [contradiction|]. reflexivity.
Qed.

Lemma sendMessageData_run (data : list byte) (messageBits calculationBits : Z)
    (s : State) :
  0 < K s < 65536 -> 0 <= N s < 65536 ->
  0 <= messageBits < 65536 -> 0 <= calculationBits < 65536 ->
  bytes_for messageBits <= Z.of_nat (length data) ->
  let bits := if 0 <? calculationBits then calculationBits else messageBits in
  let C := (bits + K s - 1) ÷ K s in
  let K_bytes := bytes_for (K s) in
  let N_bytes := bytes_for (N s) in
  match sendMessageData data messageBits calculationBits s with
  | Ok ok s' =>
      exists n cs,
        0 <= n <= C /\
        transferred s s' (payloads data messageBits K_bytes 0 n) 0 cs /\
        Z.of_nat (length cs) <= Z.of_nat (length (encoded_buffer s)) /\
        (if ok then n = C /\ Z.of_nat (length cs) = C * N_bytes
         else 0 < n /\
              (n - 1) * N_bytes <= Z.of_nat (length cs) < n * N_bytes)
  | Fault f s' =>
      exists index n,
        f = EncodedBufferOverrun index /\
        Z.of_nat (length (encoded_buffer s)) <= index < C * N_bytes /\
        0 < n <= C /\
        tx s' = tx s ++ payloads data messageBits K_bytes 0 n
  | Starved => False
  end.
Proof.
  intros HK HN Hmb Hcb Hlen bits C K_bytes N_bytes.
  assert (Hbits : 0 <= bits < 65536) by (subst bits; destruct (0 <? _); lia).
  pose proof (blocks_range bits (K s) ltac:(lia) Hbits) as HC.
  pose proof (bytes_for_range (K s) ltac:(lia)) as HKb.
  pose proof (bytes_for_range (N s) ltac:(lia)) as HNb.
  pose proof (block_index_fits bits (K s) HK Hbits) as Hfit.
  rewrite sendMessageData_unfold by lia.
  fold bits. fold C. fold K_bytes.
  unfold wrap16 at 1 2. rewrite !Z.mod_small by lia.
  pose proof (sendMessageData_loop_run data messageBits K_bytes C N_bytes
                (Z.to_nat 65536) 0 s) as Hrun.
  destruct (sendMessageData_loop (Z.to_nat 65536) data messageBits K_bytes C
              0 s) as [ok s'|f s'|].
  - destruct Hrun as (n & cs & Hn & Hinto & Hin & Hres);
      try (assumption || lia).
    { subst N_bytes. unfold wrap16. rewrite Z.mod_small; lia. }
    exists n, cs. split; [lia|]. split; [exact Hinto|].
    split.
    + destruct cs as [|c cs]; [simpl; lia|].
      specialize (Hin ltac:(discriminate)). lia.
    + destruct ok; [|exact Hres]. destruct Hres as [-> Hres].
      split; [lia|]. rewrite Hres. f_equal. lia.
  - destruct Hrun as (index & n & Hf & Hout & Hn & Htx);
      try (assumption || lia).
    { subst N_bytes. unfold wrap16. rewrite Z.mod_small; lia. }
    exists index, n. split; [assumption|]. split; [lia|].
    split; [lia|exact Htx].
  - apply Hrun; try (assumption || lia).
    subst N_bytes. unfold wrap16. rewrite Z.mod_small; lia.
Qed.

Lemma block_payload_length (data : list byte) (messageBits K_bytes block : Z) :
  length (block_payload data messageBits K_bytes block) = Z.to_nat K_bytes.
Proof. unfold block_payload. now rewrite length_map, length_seqZ. Qed.

Lemma block_payload_lookup (data : list byte) (messageBits K_bytes block i : Z) :
  0 <= i < K_bytes ->
  block_payload data messageBits K_bytes block !! Z.to_nat i =
    Some (padded_byte data messageBits (block * K_bytes + i)).
Proof.
  intros Hi. unfold block_payload.
  change (map ?f ?l) with (f <$> l).
  rewrite list_lookup_fmap, lookup_seqZ_lt by lia. simpl.
  do 2 f_equal. lia.
Qed.

Lemma payloads_length (data : list byte) (messageBits K_bytes : Z) (n : nat) :
  forall first,
    0 <= K_bytes ->
    Z.of_nat (length (payloads data messageBits K_bytes first (Z.of_nat n)))
      = Z.of_nat n * K_bytes.
Proof.
  induction n as [|n IH]; intros first HK; [reflexivity|].
  rewrite payloads_cons by lia.
  replace (Z.of_nat (S n) - 1) with (Z.of_nat n) by lia.
  rewrite length_app, block_payload_length, Nat2Z.inj_add, IH by lia. lia.
Qed.

Lemma payloads_lookup (data : list byte) (messageBits K_bytes : Z) (n : nat) :
  forall first b i,
    0 <= b < Z.of_nat n -> 0 <= i < K_bytes ->
    payloads data messageBits K_bytes first (Z.of_nat n)
      !! Z.to_nat (b * K_bytes + i) =
    Some (padded_byte data messageBits ((first + b) * K_bytes + i)).
Proof.
  induction n as [|n IH]; intros first b i Hb Hi; [lia|].
  rewrite payloads_cons by lia.
  replace (Z.of_nat (S n) - 1) with (Z.of_nat n) by lia.
  destruct (Z.eq_dec b 0) as [->|Hpos].
  - rewrite lookup_app_l by (rewrite block_payload_length; lia).
    rewrite Z.mul_0_l, Z.add_0_l, Z.add_0_r.
    now apply block_payload_lookup.
  - assert (0 <= (b - 1) * K_bytes) by (apply Z.mul_nonneg_nonneg; lia).
    rewrite lookup_app_r by (rewrite block_payload_length; lia).
    rewrite block_payload_length.
    replace (Z.to_nat (b * K_bytes + i) - Z.to_nat K_bytes)%nat
      with (Z.to_nat ((b - 1) * K_bytes + i)) by lia.
    rewrite IH by lia. do 2 f_equal. lia.
Qed.

Lemma arrived_prefix (deadline : Z) (cs rest : list (Z * byte)) :
  Forall (fun c => fst c <= deadline) cs ->
  Z.of_nat (length cs) <= arrived deadline (cs ++ rest).
Proof.
  induction 1 as [|[t b] cs Ht _ IH]; simpl.
  - apply arrived_nonneg.
  - simpl in Ht. destruct (Z.leb_spec t deadline); lia.
Qed.

Lemma totalEncodedBytes_value (bits : Z) (s : State) :
  K s <> 0 ->
  totalEncodedBytes bits s
    = Ok (wrap16 ((bits + K s - 1) ÷ K s * bytes_for (N s))) s.
Proof.
  intros HK. unfold totalEncodedBytes, bind, get, blocks_for.
  destruct (Z.eqb_spec (K s) 0); [contradiction|]. reflexivity.
Qed.

(** X21.  For 16-bit K > 0, N and bit counts, with [bits] the calculation
    override when it is positive and the message bit count otherwise, the
    block count of [sendMessageData] is C = ceil(bits / K); a transfer that
    returns [true] has written exactly C blocks and stored exactly
    C * ceil(N / 8) encoded bytes, from index 0 on; and the size expression
    [((bits + K - 1) / K) * ((N + 7) / 8)] on [uint16_t], at that same bit
    count, is C * ceil(N / 8) whenever that product is below 65536, as it is
    after every transfer that returned [true] into a buffer of fewer than
    65536 bytes.  K = 4096, N = 8192, bits = 16 give C = 1 and 1024 bytes.
    Which bit count [handleEncoding] puts into the expression is another
    matter. *)
Theorem block_count_and_encoded_size (data : list byte)
    (messageBits calculationBits : Z) (s : State) :
  0 < K s < 65536 -> 0 <= N s < 65536 ->
  0 <= messageBits < 65536 -> 0 <= calculationBits < 65536 ->
  bytes_for messageBits <= Z.of_nat (length data) ->
  let bits := if 0 <? calculationBits then calculationBits else messageBits in
  exists C N_bytes,
    is_ceiling C bits (K s) /\ is_ceiling N_bytes (N s) 8 /\
    blocks_for bits (K s) s = Ok C s /\
    (C * N_bytes < 65536 -> totalEncodedBytes bits s = Ok (C * N_bytes) s) /\
    (forall s',
        sendMessageData data messageBits calculationBits s = Ok true s' ->
        exists cs,
          rx s = cs ++ rx s' /\
          Z.of_nat (length cs) = C * N_bytes /\
          C * N_bytes <= Z.of_nat (length (encoded_buffer s)) /\
          encoded_buffer s' =
            list_inserts 0 (bytes_of cs) (encoded_buffer s) /\
          tx s' = tx s ++ payloads data messageBits (bytes_for (K s)) 0 C /\
          Z.of_nat (length (payloads data messageBits (bytes_for (K s)) 0 C))
            = C * bytes_for (K s) /\
          (Z.of_nat (length (encoded_buffer s)) < 65536 ->
           totalEncodedBytes bits s' = Ok (C * N_bytes) s')) /\
    (K s = 4096 -> N s = 8192 -> bits = 16 ->
     C = 1 /\ totalEncodedBytes bits s = Ok 1024 s).
Proof.
  intros HK HN Hmb Hcb Hlen bits.
  assert (Hbits : 0 <= bits < 65536) by (subst bits; destruct (0 <? _); lia).
  pose proof (blocks_range bits (K s) ltac:(lia) Hbits) as HC.
  pose proof (bytes_for_range (N s) ltac:(lia)) as HNb.
  pose proof (bytes_for_range (K s) ltac:(lia)) as HKb.
  exists ((bits + K s - 1) ÷ K s), (bytes_for (N s)).
  split; [apply blocks_ceiling; lia|].
  split; [apply bytes_for_ceiling; lia|].
  split.
  { unfold blocks_for. destruct (Z.eqb_spec (K s) 0); [lia|reflexivity]. }
  split.
  { intros Hsmall. rewrite totalEncodedBytes_value by lia.
    unfold wrap16. rewrite Z.mod_small; [reflexivity|].
    split; [apply Z.mul_nonneg_nonneg; lia|assumption]. }
  split.
  - intros s' Hrun.
    pose proof (sendMessageData_run data messageBits calculationBits s
                  HK HN Hmb Hcb Hlen) as Hspec.
    cbv zeta in Hspec. fold bits in Hspec. rewrite Hrun in Hspec.
    destruct Hspec as (n & cs & Hn & Hinto & Hin & -> & Hcount).
    destruct (transferred_frame _ _ _ _ _ Hinto)
      as (_ & HK' & HN' & _).
    destruct Hinto as [Hrx Hs'].
    exists cs. split; [exact Hrx|]. split; [exact Hcount|].
    split; [lia|].
    split; [rewrite Hs' at 1; reflexivity|].
    split; [rewrite Hs' at 1; reflexivity|].
    split.
    + rewrite <- (Z2Nat.id ((bits + K s - 1) ÷ K s)) at 1 by lia.
      rewrite payloads_length by lia. lia.
    + intros Hroom. rewrite totalEncodedBytes_value by lia.
      rewrite HK', HN'. unfold wrap16. rewrite Z.mod_small; [reflexivity|].
      split; [apply Z.mul_nonneg_nonneg; lia|lia].
  - intros Hk Hn Hb. rewrite totalEncodedBytes_value by lia.
    rewrite Hk, Hn, Hb. split; reflexivity.
Qed.

(** The theorem at K = 4096, N = 8192, a 16-bit message and a device that
    sends the 1024 bytes of the one block. *)
Lemma block_count_and_encoded_size_witness :
  exists C N_bytes s' cs,
    is_ceiling C 16 4096 /\ is_ceiling N_bytes 8192 8 /\
    C = 1 /\
    totalEncodedBytes 16
      (set_N (set_K (initial_state 0 (spaced 20 (repeat x55 1024))) 4096) 8192)
      = Ok 1024
           (set_N (set_K (initial_state 0 (spaced 20 (repeat x55 1024))) 4096)
                  8192) /\
    sendMessageData [x41; x42] 16 0
      (set_N (set_K (initial_state 0 (spaced 20 (repeat x55 1024))) 4096) 8192)
      = Ok true s' /\
    spaced 20 (repeat x55 1024) = cs ++ rx s' /\
    Z.of_nat (length cs) = C * N_bytes.
Proof.
  destruct (block_count_and_encoded_size [x41; x42] 16 0
              (set_N (set_K (initial_state 0 (spaced 20 (repeat x55 1024)))
                            4096) 8192)
              ltac:(simpl; lia) ltac:(simpl; lia) ltac:(lia) ltac:(lia)
              ltac:(vm_compute; discriminate))
    as (C & N_bytes & HC & HN & _ & _ & Hmove & Hex).
  assert (Hrun : exists s',
             sendMessageData [x41; x42] 16 0
               (set_N (set_K (initial_state 0 (spaced 20 (repeat x55 1024)))
                             4096) 8192) = Ok true s')
    by (eexists; vm_compute; reflexivity).
  destruct Hrun as [s' Hrun].
  destruct (Hmove s' Hrun) as (cs & Hrx & Hcount & _).
  destruct (Hex eq_refl eq_refl eq_refl) as [H1 H1024].
  exists C, N_bytes, s', cs.
  split; [exact HC|]. split; [exact HN|]. split; [exact H1|].
  split; [exact H1024|]. split; [exact Hrun|].
  split; [exact Hrx|exact Hcount].
Defined.

(** C4: whatever the device does, the bytes [sendMessageData] writes are the
    payloads of blocks 0, 1, ... in order: the byte written at offset [i] of
    block [b] has absolute index b * ceil(K / 8) + i and is the message byte
    at that index when the index is below ceil(messageBits / 8), and zero
    otherwise.  No run ends in a read past the message, even when the buffer
    holds no more than the ceil(messageBits / 8) message bytes.  With
    messageBits = 8 and K = 16 the bytes written are the one message byte and
    then one zero byte. *)
Theorem transmitted_bytes_are_the_padded_message (data : list byte)
    (messageBits calculationBits : Z) (s : State) :
  0 < K s < 65536 -> 0 <= N s < 65536 ->
  0 <= messageBits < 65536 -> 0 <= calculationBits < 65536 ->
  bytes_for messageBits <= Z.of_nat (length data) ->
  let bits := if 0 <? calculationBits then calculationBits else messageBits in
  let C := (bits + K s - 1) ÷ K s in
  let K_bytes := bytes_for (K s) in
  is_ceiling K_bytes (K s) 8 /\
  is_ceiling (bytes_for messageBits) messageBits 8 /\
  exists n s',
    ((exists ok,
         sendMessageData data messageBits calculationBits s = Ok ok s') \/
     (exists index,
         sendMessageData data messageBits calculationBits s
           = Fault (EncodedBufferOverrun index) s')) /\
    0 <= n <= C /\ (0 < C -> 0 < n) /\
    tx s' = tx s ++ payloads data messageBits K_bytes 0 n /\
    Z.of_nat (length (payloads data messageBits K_bytes 0 n)) = n * K_bytes /\
    (forall b i,
        0 <= b < n -> 0 <= i < K_bytes ->
        tx s' !! (length (tx s) + Z.to_nat (b * K_bytes + i))%nat =
          Some (if b * K_bytes + i <? bytes_for messageBits
                then nth (Z.to_nat (b * K_bytes + i)) data x00
                else x00)) /\
    (K s = 16 -> messageBits = 8 -> calculationBits = 0 ->
     forall d0 tail, data = d0 :: tail -> tx s' = tx s ++ [d0; x00]).
Proof.
  intros HK HN Hmb Hcb Hlen bits C K_bytes.
  assert (Hbits : 0 <= bits < 65536) by (subst bits; destruct (0 <? _); lia).
  pose proof (blocks_range bits (K s) ltac:(lia) Hbits) as HC. fold C in HC.
  pose proof (bytes_for_range (K s) ltac:(lia)) as HKb. fold K_bytes in HKb.
  split; [apply bytes_for_ceiling; lia|].
  split; [apply bytes_for_ceiling; lia|].
  pose proof (sendMessageData_run data messageBits calculationBits s
                HK HN Hmb Hcb Hlen) as Hspec.
  cbv zeta in Hspec. fold bits C K_bytes in Hspec.
  assert (Hcore : exists n s',
             ((exists ok,
                  sendMessageData data messageBits calculationBits s
                    = Ok ok s') \/
              (exists index,
                  sendMessageData data messageBits calculationBits s
                    = Fault (EncodedBufferOverrun index) s')) /\
             0 <= n <= C /\ (0 < C -> 0 < n) /\
             tx s' = tx s ++ payloads data messageBits K_bytes 0 n).
  { destruct (sendMessageData data messageBits calculationBits s)
      as [ok s'|f s'|]; [| |contradiction].
    - destruct Hspec as (n & cs & Hn & Hinto & _ & Hres).
      exists n, s'. split; [left; now exists ok|]. split; [exact Hn|].
      split; [destruct ok; lia|].
      apply (transferred_frame _ _ _ _ _ Hinto).
    - destruct Hspec as (index & n & -> & _ & Hn & Htx).
      exists n, s'. split; [right; now exists index|].
      split; [lia|]. split; [lia|exact Htx]. }
  destruct Hcore as (n & s' & Hout & Hn & Hpos & Htx).
  exists n, s'. split; [exact Hout|]. split; [exact Hn|].
  split; [exact Hpos|]. split; [exact Htx|].
  split; [|split].
  - rewrite <- (Z2Nat.id n) at 1 by lia. rewrite payloads_length by lia. lia.
  - intros b i Hb Hi. rewrite Htx, lookup_app_r by lia.
    replace (length (tx s) + Z.to_nat (b * K_bytes + i) - length (tx s))%nat
      with (Z.to_nat (b * K_bytes + i)) by lia.
    rewrite <- (Z2Nat.id n) at 1 by lia.
    rewrite payloads_lookup by lia. rewrite Z.add_0_l. reflexivity.
  - intros HK16 H8 H0 d0 tail ->. rewrite Htx. f_equal.
    assert (n = 1) as ->.
    { subst C bits. rewrite HK16, H8, H0 in *. simpl in Hn, Hpos.
      change ((8 + 16 - 1) ÷ 16) with 1 in *. lia. }
    subst K_bytes. rewrite HK16, H8. reflexivity.
Qed.

(** The theorem at K = 16 and the one-byte message "A". *)
Lemma transmitted_bytes_are_the_padded_message_witness :
  exists n s',
    0 <= n <= 1 /\ (0 < 1 -> 0 < n) /\
    tx s' = [] ++ [x41; x00].
Proof.
  destruct (transmitted_bytes_are_the_padded_message [x41] 8 0
              (set_N (set_K (initial_state 0 []) 16) 24)
              ltac:(simpl; lia) ltac:(simpl; lia) ltac:(lia) ltac:(lia)
              ltac:(vm_compute; discriminate))
    as (_ & _ & n & s' & _ & Hn & Hpos & _ & _ & _ & Hex).
  exists n, s'. split; [exact Hn|]. split; [exact Hpos|].
  exact (Hex eq_refl eq_refl eq_refl x41 [] eq_refl).
Defined.

(** C5: when fewer than ceil(N / 8) reply bytes arrive before the 3000 ms
    wait of a block is over, the block loop returns [false] in the very
    state that wait ended in: that block's own bytes are the last ones
    written to UART2, the bytes that did arrive are in [encoded_buffer] at
    the block's offset, and the clock stands at the end of the wait.  And
    whenever [sendMessageData] returns [false], there is a block [b] such
    that exactly the blocks 0 .. b were written and the bytes read, fewer
    than b + 1 blocks' worth, lie in [encoded_buffer] from index 0 on. *)
Theorem block_timeout_aborts_transfer (data : list byte)
    (messageBits calculationBits : Z) (s : State) :
  0 < K s < 65536 -> 0 <= N s < 65536 ->
  0 <= messageBits < 65536 -> 0 <= calculationBits < 65536 ->
  bytes_for messageBits <= Z.of_nat (length data) ->
  let bits := if 0 <? calculationBits then calculationBits else messageBits in
  let C := (bits + K s - 1) ÷ K s in
  let K_bytes := bytes_for (K s) in
  let N_bytes := bytes_for (N s) in
  (forall (fuel : nat) (block : Z) (s0 : State),
      0 <= block < C -> N s0 = N s ->
      block * N_bytes + N_bytes <= Z.of_nat (length (encoded_buffer s0)) ->
      arrived (clock s0 + 10 * K_bytes + 2999) (rx s0) < N_bytes ->
      exists s1 cs,
        sendMessageData_loop (S fuel) data messageBits K_bytes C block s0
          = Ok false s1 /\
        tx s1 = tx s0 ++ block_payload data messageBits K_bytes block /\
        rx s0 = cs ++ rx s1 /\
        Z.of_nat (length cs) < N_bytes /\
        encoded_buffer s1 =
          list_inserts (Z.to_nat (block * N_bytes)) (bytes_of cs)
                       (encoded_buffer s0) /\
        clock s1 = clock s0 + 10 * K_bytes + 3000) /\
  (forall s',
      sendMessageData data messageBits calculationBits s = Ok false s' ->
      exists b cs,
        0 <= b < C /\
        tx s' = tx s ++ payloads data messageBits K_bytes 0 (b + 1) /\
        rx s = cs ++ rx s' /\
        b * N_bytes <= Z.of_nat (length cs) < (b + 1) * N_bytes /\
        encoded_buffer s' = list_inserts 0 (bytes_of cs) (encoded_buffer s) /\
        Z.of_nat (length cs) <= Z.of_nat (length (encoded_buffer s))).
Proof.
  intros HK HN Hmb Hcb Hlen bits C K_bytes N_bytes.
  assert (Hbits : 0 <= bits < 65536) by (subst bits; destruct (0 <? _); lia).
  pose proof (blocks_range bits (K s) ltac:(lia) Hbits) as HC. fold C in HC.
  pose proof (bytes_for_range (K s) ltac:(lia)) as HKb. fold K_bytes in HKb.
  pose proof (bytes_for_range (N s) ltac:(lia)) as HNb. fold N_bytes in HNb.
  pose proof (block_index_fits bits (K s) HK Hbits) as Hfit.
  fold C K_bytes in Hfit.
  split.
  - intros fuel block s0 Hblock HN0 Hroom Hfew.
    assert (0 <= block * K_bytes) by (apply Z.mul_nonneg_nonneg; lia).
    assert (0 <= block * N_bytes) by (apply Z.mul_nonneg_nonneg; lia).
    assert (0 <= (C - block - 1) * K_bytes)
      by (apply Z.mul_nonneg_nonneg; lia).
    assert (HNw : wrap16 (bytes_for (N s0)) = N_bytes).
    { rewrite HN0. unfold wrap16. apply Z.mod_small. lia. }
    rewrite sendMessageData_loop_S by lia.
    pose proof (transfer_block_run data messageBits K_bytes block s0) as Hone.
    rewrite HNw in Hone.
    destruct (transfer_block data messageBits K_bytes block s0)
      as [ok s1|f s1|].
    + destruct Hone as (cs & [Hrx Hs1] & Hin & Hts & Hres); try lia.
      pose proof (arrived_prefix _ cs (rx s1) Hts) as Hcount.
      rewrite <- Hrx in Hcount.
      destruct ok; [lia|]. destruct Hres as [Hshort Hclk].
      exists s1, cs. split; [reflexivity|].
      rewrite Hs1 at 1 3. simpl.
      split; [reflexivity|]. split; [exact Hrx|]. split; [exact Hshort|].
      split; [reflexivity|exact Hclk].
    + destruct Hone as (index & _ & Hout & Hrange & _); lia.
    + exfalso. apply Hone; lia.
  - intros s' Hrun.
    pose proof (sendMessageData_run data messageBits calculationBits s
                  HK HN Hmb Hcb Hlen) as Hspec.
    cbv zeta in Hspec. fold bits C K_bytes N_bytes in Hspec.
    rewrite Hrun in Hspec.
    destruct Hspec as (n & cs & Hn & [Hrx Hs'] & Hin & Hpos & Hcount).
    exists (n - 1), cs. split; [lia|].
    replace (n - 1 + 1) with n by lia.
    rewrite Hs' at 1 3. simpl.
    split; [reflexivity|]. split; [exact Hrx|]. split; [lia|].
    split; [reflexivity|exact Hin].
Qed.

(** The theorem at K = 8, N = 16, two blocks, and a device that sends one
    byte and then falls silent. *)
Lemma block_timeout_aborts_transfer_witness :
  exists s1 cs,
    sendMessageData_loop 1 [x41; x42] 16 1 2 0
      (set_N (set_K (initial_state 0 (queued 0 [x07])) 8) 16) = Ok false s1 /\
    tx s1 = [] ++ block_payload [x41; x42] 16 1 0 /\
    queued 0 [x07] = cs ++ rx s1 /\
    Z.of_nat (length cs) < 2 /\
    encoded_buffer s1 =
      list_inserts (Z.to_nat (0 * 2)) (bytes_of cs)
        (encoded_buffer (initial_state 0 (queued 0 [x07]))) /\
    clock s1 = 0 + 10 * 1 + 3000.
Proof.
  apply (proj1 (block_timeout_aborts_transfer [x41; x42] 16 0
                  (set_N (set_K (initial_state 0 (queued 0 [x07])) 8) 16)
                  ltac:(simpl; lia) ltac:(simpl; lia) ltac:(lia) ltac:(lia)
                  ltac:(vm_compute; discriminate))
               O 0 (set_N (set_K (initial_state 0 (queued 0 [x07])) 8) 16)).
  - vm_compute. split; [discriminate|reflexivity].
  - reflexivity.
  - vm_compute. discriminate.
  - vm_compute. reflexivity.
Defined.

(** ** The state variable *)

Lemma keeps_ret {A} (a : A) : keeps_currentState (ret a).
Proof. intros s. reflexivity. Qed.

Lemma keeps_raise {A} (f : fault) : keeps_currentState (@raise A f).
Proof. intros s. reflexivity. Qed.

Lemma keeps_starved {A} : keeps_currentState (fun _ => @Starved A).
Proof. intros s. exact I. Qed.

Lemma keeps_bind {A B} (c : M A) (k : A -> M B) :
  keeps_currentState c -> (forall a, keeps_currentState (k a)) ->
  keeps_currentState (bind c k).
Proof.
  intros Hc Hk s. unfold bind. specialize (Hc s).
  destruct (c s) as [a s1|f s1|]; try assumption.
  specialize (Hk a s1). destruct (k a s1); congruence.
Qed.

Lemma keeps_get {A} (f : State -> A) : keeps_currentState (get f).
Proof. intros s. reflexivity. Qed.

Lemma keeps_millis : keeps_currentState millis.
Proof. intros s. reflexivity. Qed.

Lemma keeps_delay (ms : Z) : keeps_currentState (delay ms).
Proof. intros s. reflexivity. Qed.

Lemma keeps_available : keeps_currentState Serial2_available.
Proof. intros s. reflexivity. Qed.

Lemma keeps_read : keeps_currentState Serial2_read.
Proof.
  intros s. unfold Serial2_read. destruct (rx s) as [|[t b] q]; simpl; auto.
  destruct (t <=? clock s); reflexivity.
Qed.

Lemma keeps_write (b : byte) : keeps_currentState (Serial2_write b).
Proof. intros s. reflexivity. Qed.

Lemma keeps_store_K (v : Z) : keeps_currentState (store_K v).
Proof. intros s. reflexivity. Qed.

Lemma keeps_store_N (v : Z) : keeps_currentState (store_N v).
Proof. intros s. reflexivity. Qed.

Lemma keeps_store_message_bits (v : Z) :
  keeps_currentState (store_message_bits v).
Proof. intros s. reflexivity. Qed.

Lemma keeps_store_lastInputMode (v : InputMode) :
  keeps_currentState (store_lastInputMode v).
Proof. intros s. reflexivity. Qed.

Lemma keeps_store_encoded (index : Z) (b : byte) :
  keeps_currentState (store_encoded index b).
Proof. intros s. unfold store_encoded. destruct (_ && _); reflexivity. Qed.

Lemma keeps_store_message (index : Z) (b : byte) :
  keeps_currentState (store_message index b).
Proof. intros s. unfold store_message. destruct (_ && _); reflexivity. Qed.

Lemma keeps_load (data : list byte) (index : Z) :
  keeps_currentState (load data index).
Proof. intros s. unfold load. destruct (_ && _); reflexivity. Qed.

Lemma keeps_printBytes (data : list byte) (length : Z) (asHex : bool) :
  keeps_currentState (printBytes data length asHex).
Proof. intros s. unfold printBytes. destruct (_ <=? _); reflexivity. Qed.

Lemma keeps_say (e : console_event) : keeps_currentState (say e).
Proof. intros s. reflexivity. Qed.

(** Walks through a computation built from [bind], conditionals and the
    primitives above; the loops are left to their own lemmas. *)
Ltac keeps_step :=
  lazymatch goal with
  | |- keeps_currentState (bind _ _) => apply keeps_bind; [|intros]
  | |- keeps_currentState (if ?c then _ else _) => destruct c
  | |- keeps_currentState (match ?x with _ => _ end) => destruct x
  | |- keeps_currentState (ret _) => apply keeps_ret
  | |- keeps_currentState (raise _) => apply keeps_raise
  | |- keeps_currentState (fun _ => Starved) => apply keeps_starved
  | |- keeps_currentState (get _) => apply keeps_get
  | |- keeps_currentState millis => apply keeps_millis
  | |- keeps_currentState (delay _) => apply keeps_delay
  | |- keeps_currentState Serial2_available => apply keeps_available
  | |- keeps_currentState Serial2_read => apply keeps_read
  | |- keeps_currentState (Serial2_write _) => apply keeps_write
  | |- keeps_currentState (store_K _) => apply keeps_store_K
  | |- keeps_currentState (store_N _) => apply keeps_store_N
  | |- keeps_currentState (store_message_bits _) =>
      apply keeps_store_message_bits
  | |- keeps_currentState (store_lastInputMode _) =>
      apply keeps_store_lastInputMode
  | |- keeps_currentState (store_encoded _ _) => apply keeps_store_encoded
  | |- keeps_currentState (store_message _ _) => apply keeps_store_message
  | |- keeps_currentState (load _ _) => apply keeps_load
  | |- keeps_currentState (printBytes _ _ _) => apply keeps_printBytes
  | |- keeps_currentState (say _) => apply keeps_say
  end.

Ltac keeps := repeat keeps_step.

Lemma keeps_waitForTag_loop (fuel : nat) :
  forall startTime tagIndex,
    keeps_currentState (waitForTag_loop fuel startTime tagIndex).
Proof.
  induction fuel as [|fuel IH]; intros; cbn [waitForTag_loop]; keeps;
    apply IH.
Qed.

Lemma keeps_waitForTag : keeps_currentState waitForTag.
Proof. unfold waitForTag. keeps. apply keeps_waitForTag_loop. Qed.

Lemma keeps_sendMessageLength (bits : Z) :
  keeps_currentState (sendMessageLength bits).
Proof. unfold sendMessageLength. keeps. Qed.

Lemma keeps_receiveParameters_loop (fuel : nat) :
  forall startTime, keeps_currentState (receiveParameters_loop fuel startTime).
Proof.
  induction fuel as [|fuel IH]; intros; cbn [receiveParameters_loop]; keeps;
    apply IH.
Qed.

Lemma keeps_receiveParameters : keeps_currentState receiveParameters.
Proof. unfold receiveParameters. keeps. apply keeps_receiveParameters_loop. Qed.

Lemma keeps_send_block_loop (fuel : nat) :
  forall data messageBits block K_bytes i,
    keeps_currentState (send_block_loop fuel data messageBits block K_bytes i).
Proof.
  induction fuel as [|fuel IH]; intros; cbn [send_block_loop];
    unfold byteToSend; keeps; apply IH.
Qed.

Lemma keeps_receive_block_loop (fuel : nat) :
  forall block N_bytes startTime receivedBytes,
    keeps_currentState
      (receive_block_loop fuel block N_bytes startTime receivedBytes).
Proof.
  induction fuel as [|fuel IH]; intros; cbn [receive_block_loop]; keeps;
    apply IH.
Qed.

Lemma keeps_transfer_block (data : list byte) (messageBits K_bytes block : Z) :
  keeps_currentState (transfer_block data messageBits K_bytes block).
Proof.
  unfold transfer_block. keeps.
  - apply keeps_send_block_loop.
  - apply keeps_receive_block_loop.
Qed.

Lemma keeps_sendMessageData_loop (fuel : nat) :
  forall data messageBits K_bytes C block,
    keeps_currentState
      (sendMessageData_loop fuel data messageBits K_bytes C block).
Proof.
  induction fuel as [|fuel IH]; intros; cbn [sendMessageData_loop]; keeps;
    lazymatch goal with
    | |- keeps_currentState (transfer_block _ _ _ _) =>
        apply keeps_transfer_block
    | |- _ => apply IH
    end.
Qed.

Lemma keeps_sendMessageData (data : list byte)
    (messageBits calculationBits : Z) :
  keeps_currentState (sendMessageData data messageBits calculationBits).
Proof.
  unfold sendMessageData, blocks_for. keeps.
  apply keeps_sendMessageData_loop.
Qed.

Lemma keeps_textToBits_loop (fuel : nat) :
  forall text byteCount i,
    keeps_currentState (textToBits_loop fuel text byteCount i).
Proof.
  induction fuel as [|fuel IH]; intros; cbn [textToBits_loop]; keeps;
    apply IH.
Qed.

Lemma keeps_hexToBits_loop (fuel : nat) :
  forall cleanHex byteCount i,
    keeps_currentState (hexToBits_loop fuel cleanHex byteCount i).
Proof.
  induction fuel as [|fuel IH]; intros; cbn [hexToBits_loop]; keeps;
    apply IH.
Qed.

Lemma keeps_totalEncodedBytes (bits : Z) :
  keeps_currentState (totalEncodedBytes bits).
Proof. unfold totalEncodedBytes, blocks_for. keeps. Qed.

Lemma keeps_textToBits (text : string) : keeps_currentState (textToBits text).
Proof. unfold textToBits. keeps. apply keeps_textToBits_loop. Qed.

Lemma keeps_hexToBits (hexStr : string) : keeps_currentState (hexToBits hexStr).
Proof. unfold hexToBits. keeps. apply keeps_hexToBits_loop. Qed.

(** The same walk, through the functions of the sketch. *)
Ltac keeps_call :=
  lazymatch goal with
  | |- keeps_currentState (textToBits _) => apply keeps_textToBits
  | |- keeps_currentState (hexToBits _) => apply keeps_hexToBits
  | |- keeps_currentState waitForTag => apply keeps_waitForTag
  | |- keeps_currentState (sendMessageLength _) =>
      apply keeps_sendMessageLength
  | |- keeps_currentState receiveParameters => apply keeps_receiveParameters
  | |- keeps_currentState (sendMessageData _ _ _) =>
      apply keeps_sendMessageData
  | |- keeps_currentState (totalEncodedBytes _) =>
      apply keeps_totalEncodedBytes
  | |- _ => keeps_step
  end.

Lemma keeps_handleEncoding (mode : InputMode) (ui : UserInput) :
  keeps_currentState (handleEncoding mode ui).
Proof. unfold handleEncoding. repeat keeps_call. Qed.

Lemma keeps_showLastResults : keeps_currentState showLastResults.
Proof. unfold showLastResults. repeat keeps_call. Qed.

Lemma keeps_loop (choice : option ascii) (ui : UserInput) :
  keeps_currentState (loop choice ui).
Proof.
  unfold loop. apply keeps_bind; [|intros; apply keeps_delay].
  destruct choice as [c|]; [|apply keeps_ret].
  destruct c as [[] [] [] [] [] [] [] []];
    lazymatch goal with
    | |- keeps_currentState (handleEncoding _ _) => apply keeps_handleEncoding
    | |- keeps_currentState showLastResults => apply keeps_showLastResults
    | |- _ => keeps
    end.
Qed.

Lemma keeps_loops (inputs : list (option ascii * UserInput)) :
  keeps_currentState (loops inputs).
Proof.
  induction inputs as [|[choice ui] rest IH]; simpl.
  - apply keeps_ret.
  - apply keeps_bind; [apply keeps_loop|intros; apply IH].
Qed.

(** ** Whole sessions at concrete inputs *)

(** C1, the code at a failing input: mode 3 with the typed length 0, the hex
    message "AB" (8 bits) and a device that answers K = 8, N = 16 and the
    two encoded bytes 01 02.  The calculation override is 0, so the bit
    count is the message's 8 bits: C = ceil(8 / 8) = 1 and
    C * ceil(16 / 8) = 2.  [sendMessageData] does send the one block and
    store the two bytes; but the block count and the size [handleEncoding]
    computes from [bitsUsedForCalculation], the typed 0, are 0, and its
    dump of the encoded result is empty. *)
Theorem completion_size_is_not_the_transferred_size :
  exists s',
    handleEncoding INPUT_HEX_MANUAL (mkUserInput 0 0 0 "AB")
      (initial_state 0
         (queued 0 [xde; xad; xc0; xde; x00; x08; x00; x10; x01; x02]))
      = Ok tt s' /\
    K s' = 8 /\ N s' = 16 /\ message_bits s' = 8 /\
    is_ceiling 1 (if 0 <? 0 then 0 else message_bits s') (K s') /\
    is_ceiling 2 (N s') 8 /\
    tx s' = [x00; x00] ++ payloads [xab] 8 (bytes_for 8) 0 1 /\
    rx s' = [] /\
    take (Z.to_nat (1 * 2)) (encoded_buffer s') = [x01; x02] /\
    blocks_for (wrap16 0) (K s') s' = Ok 0 s' /\
    totalEncodedBytes (wrap16 0) s' = Ok 0 s' /\
    console s' = [PrintedBytes [xab] true; PrintedBytes [] true].
Proof.
  eexists. split; [vm_compute; reflexivity|].
  split; [reflexivity|]. split; [reflexivity|]. split; [reflexivity|].
  split; [unfold is_ceiling; simpl; lia|].
  split; [unfold is_ceiling; simpl; lia|].
  split; [vm_compute; reflexivity|]. split; [reflexivity|].
  split; [vm_compute; reflexivity|].
  split; [vm_compute; reflexivity|].
  split; vm_compute; reflexivity.
Qed.

(** C9, the code at a failing input: the text message "A" and a device that
    answers K = 8, N = 16392 and then sends the 2049 bytes of the one block,
    one byte a millisecond: the last of them is stored at index 2048 of the
    2048-byte [encoded_buffer]. *)
Lemma encoded_buffer_overrun_one_block :
  faulted
    (handleEncoding INPUT_TEXT (typed "A")
       (initial_state 0
          (queued 0 [xde; xad; xc0; xde; x00; x08; x40; x08]
           ++ spaced 50 (repeat x55 2049))))
    = Some (EncodedBufferOverrun 2048).
Proof. vm_compute. reflexivity. Qed.

(** C10, the code at a failing input: mode 3 with the manual length 16, the
    hex message "AB" (8 bits) and a device that answers K = 8, N = 16 and
    two bytes per block.  The session prints four encoded bytes when it
    completes; menu entry 5 then prints two. *)
Lemma redisplay_prints_fewer_bytes :
  final_console
    (loops [(Some "3"%char, mkUserInput 0 16 0 "AB");
            (Some "5"%char, typed "")]
       (initial_state 0
          (queued 0 [xde; xad; xc0; xde; x00; x08; x00; x10;
                     x01; x02; x03; x04])))
    = Some [PrintedBytes [xab] true;
            PrintedBytes [x01; x02; x03; x04] true;
            PrintedBytes [xab] false;
            PrintedBytes [x01; x02] true].
Proof. vm_compute. reflexivity. Qed.

(** ** Further properties of the protocol functions *)

Lemma Z_of_byte_u8 (z : Z) : Z_of_byte (u8 z) = wrap8 z.
Proof.
  unfold u8, Z_of_byte.
  assert (Hz : 0 <= wrap8 z < 256) by (apply Z.mod_pos_bound; lia).
  destruct (Byte.of_N (Z.to_N (wrap8 z))) as [b|] eqn:Hb.
  - apply Byte.to_of_N in Hb. rewrite Hb. lia.
  - apply Byte.of_N_None_iff in Hb. lia.
Qed.

(** X1.  A device that sends nothing: [waitForTag] returns [false] after
    exactly 5000 ms, and nothing but the clock has changed. *)
Theorem waitForTag_silent_device (s : State) :
  rx s = [] -> waitForTag s = Ok false (set_clock s (clock s + 5000)).
Proof.
  intros Hsilent.
  destruct (waitForTag_run s) as (r & s' & cs & Hrun & Hrx & Hfr & _ & Hres).
  rewrite Hsilent in Hrx. symmetry in Hrx.
  apply app_eq_nil in Hrx as [-> Hrx'].
  destruct r; simpl in Hres; [lia|].
  destruct Hres as [_ Hclock].
  rewrite Hrun. f_equal. rewrite Hfr, Hrx', Hclock.
  destruct s; simpl in *. now subst.
Qed.

(** The theorem on the state right after start-up, with no device. *)
Lemma waitForTag_silent_device_witness :
  waitForTag (initial_state 0 [])
    = Ok false (set_clock (initial_state 0 []) (0 + 5000)).
Proof. apply (waitForTag_silent_device (initial_state 0 [])). reflexivity. Defined.

(** X2.  [sendMessageLength] writes the two bytes of a 16-bit length, high
    byte first, takes 20 ms and returns [true]. *)
Theorem sendMessageLength_big_endian (bits : Z) (s : State) :
  0 <= bits < 65536 ->
  exists hi lo,
    sendMessageLength bits s =
      Ok true (set_clock (set_tx s (tx s ++ [hi; lo])) (clock s + 20)) /\
    256 * Z_of_byte hi + Z_of_byte lo = bits.
Proof.
  intros Hbits.
  exists (u8 (Z.shiftr bits 8)), (u8 (Z.land bits 255)). split.
  - unfold sendMessageLength, bind, Serial2_write, delay, ret. simpl.
    rewrite <- app_assoc. simpl.
    replace (clock s + 10 + 10) with (clock s + 20) by lia.
    destruct s; reflexivity.
  - rewrite !Z_of_byte_u8. unfold wrap8.
    rewrite Z.shiftr_div_pow2 by lia.
    change 255 with (Z.ones 8). rewrite Z.land_ones by lia.
    change (2 ^ 8) with 256.
    rewrite (Z.mod_small (bits / 256))
      by (split; [apply Z.div_pos; lia|apply Z.div_lt_upper_bound; lia]).
    rewrite Z.mod_mod by lia.
    pose proof (Z.div_mod bits 256 ltac:(lia)). lia.
Qed.

(** The theorem at the length 0x1234. *)
Lemma sendMessageLength_big_endian_witness :
  exists hi lo,
    sendMessageLength 4660 (initial_state 0 []) =
      Ok true (set_clock (set_tx (initial_state 0 []) ([] ++ [hi; lo]))
                         (0 + 20)) /\
    256 * Z_of_byte hi + Z_of_byte lo = 4660.
Proof.
  apply (sendMessageLength_big_endian 4660 (initial_state 0 [])). lia.
Defined.

(** X3.  Framing round trip: after a transfer that returned [true], the
    first C * ceil(N / 8) bytes of [encoded_buffer] are the bytes the device
    sent, in the order they came in, block after block. *)
Theorem encoded_result_is_the_reply (data : list byte)
    (messageBits calculationBits : Z) (s s' : State) :
  0 < K s < 65536 -> 0 <= N s < 65536 ->
  0 <= messageBits < 65536 -> 0 <= calculationBits < 65536 ->
  bytes_for messageBits <= Z.of_nat (length data) ->
  sendMessageData data messageBits calculationBits s = Ok true s' ->
  let bits := if 0 <? calculationBits then calculationBits else messageBits in
  exists cs,
    rx s = cs ++ rx s' /\
    Z.of_nat (length cs) = (bits + K s - 1) ÷ K s * bytes_for (N s) /\
    take (length cs) (encoded_buffer s') = bytes_of cs.
Proof.
  intros HK HN Hmb Hcb Hlen Hrun bits.
  pose proof (sendMessageData_run data messageBits calculationBits s
                HK HN Hmb Hcb Hlen) as Hspec.
  cbv zeta in Hspec. fold bits in Hspec. rewrite Hrun in Hspec.
  destruct Hspec as (n & cs & Hn & [Hrx Hs'] & Hin & -> & Hcount).
  exists cs. split; [exact Hrx|]. split; [exact Hcount|].
  rewrite Hs'. simpl.
  assert (Hk : length (bytes_of cs) = length cs) by apply length_map.
  rewrite <- (take_drop (length cs) (encoded_buffer s)).
  rewrite list_inserts_0_r by (rewrite length_take; lia).
  rewrite <- Hk. apply take_app_length.
Qed.

(** The theorem at K = 8, N = 16, the message "A" and the reply 01 02. *)
Lemma encoded_result_is_the_reply_witness :
  exists s' cs,
    sendMessageData [x41] 8 0
      (set_N (set_K (initial_state 0 (queued 0 [x01; x02; x03])) 8) 16)
      = Ok true s' /\
    queued 0 [x01; x02; x03] = cs ++ rx s' /\
    Z.of_nat (length cs) = (8 + 8 - 1) ÷ 8 * bytes_for 16 /\
    take (length cs) (encoded_buffer s') = bytes_of cs.
Proof.
  assert (Hrun : exists s',
             sendMessageData [x41] 8 0
               (set_N (set_K (initial_state 0 (queued 0 [x01; x02; x03])) 8)
                      16) = Ok true s')
    by (eexists; vm_compute; reflexivity).
  destruct Hrun as [s' Hrun].
  destruct (encoded_result_is_the_reply [x41] 8 0
              (set_N (set_K (initial_state 0 (queued 0 [x01; x02; x03])) 8)
                     16) s'
              ltac:(simpl; lia) ltac:(simpl; lia) ltac:(lia) ltac:(lia)
              ltac:(vm_compute; discriminate) Hrun)
    as (cs & Hrx & Hcount & Htake).
  exists s', cs. split; [exact Hrun|]. split; [exact Hrx|].
  split; [exact Hcount|exact Htake].
Defined.

(** X4.  A transfer whose C * ceil(N / 8) encoded bytes fit
    [encoded_buffer] stores no byte outside it: [sendMessageData] returns,
    with [true] or with [false], and does not fault. *)
Theorem sendMessageData_within_buffer (data : list byte)
    (messageBits calculationBits : Z) (s : State) :
  0 < K s < 65536 -> 0 <= N s < 65536 ->
  0 <= messageBits < 65536 -> 0 <= calculationBits < 65536 ->
  bytes_for messageBits <= Z.of_nat (length data) ->
  let bits := if 0 <? calculationBits then calculationBits else messageBits in
  (bits + K s - 1) ÷ K s * bytes_for (N s)
    <= Z.of_nat (length (encoded_buffer s)) ->
  exists ok s',
    sendMessageData data messageBits calculationBits s = Ok ok s' /\
    length (encoded_buffer s') = length (encoded_buffer s).
Proof.
  intros HK HN Hmb Hcb Hlen bits Hroom.
  pose proof (sendMessageData_run data messageBits calculationBits s
                HK HN Hmb Hcb Hlen) as Hspec.
  cbv zeta in Hspec. fold bits in Hspec.
  destruct (sendMessageData data messageBits calculationBits s)
    as [ok s'|f s'|]; [| |contradiction].
  - destruct Hspec as (n & cs & _ & Hinto & _).
    exists ok, s'. split; [reflexivity|].
    apply (transferred_frame _ _ _ _ _ Hinto).
  - destruct Hspec as (index & n & _ & Hout & _). lia.
Qed.

(** The theorem at K = 4096, N = 8192 and a 16-bit message: one block of
    1024 encoded bytes, and a device that sends nothing. *)
Lemma sendMessageData_within_buffer_witness :
  exists ok s',
    sendMessageData [x41; x42] 16 0
      (set_N (set_K (initial_state 0 []) 4096) 8192) = Ok ok s' /\
    length (encoded_buffer s')
      = length (encoded_buffer (set_N (set_K (initial_state 0 []) 4096) 8192)).
Proof.
  apply (sendMessageData_within_buffer [x41; x42] 16 0
           (set_N (set_K (initial_state 0 []) 4096) 8192)
           ltac:(simpl; lia) ltac:(simpl; lia) ltac:(lia) ltac:(lia)
           ltac:(vm_compute; discriminate)).
  vm_compute. discriminate.
Defined.

(** ** Every pass of [loop] comes to an end *)

Lemma ensures_bind {A B} (c : M A) (k : A -> M B) (s : State)
    (Q : A -> State -> Prop) (R : B -> State -> Prop) :
  ensures c s Q ->
  (forall a s', Q a s' -> ensures (k a) s' R) ->
  ensures (bind c k) s R.
Proof.
  unfold ensures, bind. intros Hc Hk.
  destruct (c s) as [a s'|f s'|]; [|exact I|contradiction].
  exact (Hk a s' Hc).
Qed.

Lemma ensures_weaken {A} (c : M A) (s : State) (Q Q' : A -> State -> Prop) :
  ensures c s Q -> (forall a s', Q a s' -> Q' a s') -> ensures c s Q'.
Proof.
  unfold ensures. intros Hc HQ.
  destruct (c s) as [a s'|f s'|]; auto.
Qed.

Lemma ensures_ret {A} (a : A) (s : State) (Q : A -> State -> Prop) :
  Q a s -> ensures (ret a) s Q.
Proof. intros H. exact H. Qed.

Lemma textToBits_loop_ends (text : string) (byteCount : Z) (fuel : nat) :
  forall (i : Z) (s : State),
    0 <= i -> byteCount < 65536 -> byteCount - i <= Z.of_nat fuel ->
    ensures (textToBits_loop fuel text byteCount i) s
      (fun _ s' =>
         length (message_buffer s') = length (message_buffer s) /\
         (i < byteCount ->
          byteCount <= Z.of_nat (length (message_buffer s)))).
Proof.
  induction fuel as [|fuel IH]; intros i s Hi Hcount Hfuel;
    cbn [textToBits_loop]; destruct (Z.ltb_spec i byteCount) as [Hlt|Hge];
    try lia; try (apply ensures_ret; split; [reflexivity|lia]).
  unfold ensures, bind, store_message.
  destruct (Z.leb_spec 0 i); [|lia].
  destruct (Z.ltb_spec i (Z.of_nat (length (message_buffer s))));
    [|exact I].
  cbv beta iota delta [andb].
  unfold wrap16. rewrite Z.mod_small by lia.
  specialize (IH (i + 1)
                (set_message_buffer s
                   (<[Z.to_nat i:=byte_of_ascii (charAt text i)]>
                      (message_buffer s)))
                ltac:(lia) Hcount ltac:(lia)).
  unfold ensures in IH.
  destruct (textToBits_loop fuel text byteCount (i + 1) _)
    as [u s'|f s'|]; [|exact I|contradiction].
  simpl in IH. rewrite length_insert in IH.
  destruct IH as [Hkeep Hlen]. split; [exact Hkeep|]. intros _.
  destruct (Z.eq_dec (i + 1) byteCount); lia.
Qed.

Lemma hexToBits_loop_ends (cleanHex : string) (fuel : nat) :
  forall (byteCount i : Z) (s : State),
    0 <= byteCount <= 1024 -> 1024 - byteCount <= Z.of_nat fuel ->
    ensures (hexToBits_loop fuel cleanHex byteCount i) s
      (fun n s' =>
         length (message_buffer s') = length (message_buffer s) /\
         byteCount <= n <= 1024 /\
         (byteCount < n -> n <= Z.of_nat (length (message_buffer s)))).
Proof.
  induction fuel as [|fuel IH]; intros byteCount i s Hcount Hfuel;
    cbn [hexToBits_loop]; unfold MAX_MESSAGE_LENGTH;
    destruct (Z.ltb_spec byteCount 1024) as [Hlt|Hge];
    rewrite ?andb_false_r;
    try lia; try (apply ensures_ret; split; [reflexivity|lia]).
  rewrite andb_true_r.
  destruct ((i <? strlen cleanHex) && (i + 1 <? strlen cleanHex));
    [|apply ensures_ret; split; [reflexivity|lia]].
  unfold ensures, bind, store_message.
  destruct (Z.leb_spec 0 byteCount); [|lia].
  destruct (Z.ltb_spec byteCount (Z.of_nat (length (message_buffer s))));
    [|exact I].
  cbv beta iota delta [andb].
  unfold wrap16 at 1. rewrite Z.mod_small by lia.
  specialize (IH (byteCount + 1) (wrap16 (i + 2))
                (set_message_buffer s
                   (<[Z.to_nat byteCount:=
                        u8 (strtol16 (substring (Z.to_nat i) 2 cleanHex))]>
                      (message_buffer s)))
                ltac:(lia) ltac:(lia)).
  unfold ensures in IH.
  destruct (hexToBits_loop fuel cleanHex (byteCount + 1) _ _)
    as [n s'|f s'|]; [|exact I|contradiction].
  simpl in IH. rewrite length_insert in IH.
  destruct IH as (Hkeep & Hn & Hlen). split; [exact Hkeep|].
  split; [lia|]. intros _.
  destruct (Z.eq_dec (byteCount + 1) n); lia.
Qed.

Lemma bytes_for_whole (n : Z) : 0 <= n -> bytes_for (n * 8) = n.
Proof.
  intros Hn. unfold bytes_for. rewrite Z.quot_div_nonneg by lia.
  symmetry. apply (Z.div_unique (n * 8 + 7) 8 n 7); lia.
Qed.

Lemma textToBits_ends (text : string) (s : State) :
  ensures (textToBits text) s
    (fun bits s' =>
       0 <= bits < 65536 /\
       bytes_for bits <= Z.of_nat (length (message_buffer s'))).
Proof.
  unfold textToBits.
  set (byteCount := Z.min _ _).
  assert (Hcount : 0 <= byteCount <= 1023).
  { subst byteCount. unfold wrap16, MAX_MESSAGE_LENGTH.
    pose proof (Z.mod_pos_bound (strlen text) 65536 ltac:(lia)).
    change ((1024 - 1) mod 65536) with 1023. lia. }
  eapply ensures_bind.
  - apply (textToBits_loop_ends text byteCount (Z.to_nat 1024) 0 s); lia.
  - intros _ s' [Hkeep Hlen]. apply ensures_ret.
    unfold wrap16. rewrite Z.mod_small by lia.
    rewrite bytes_for_whole by lia. rewrite Hkeep. lia.
Qed.

Lemma hexToBits_ends (hexStr : string) (s : State) :
  ensures (hexToBits hexStr) s
    (fun bits s' =>
       0 <= bits < 65536 /\
       bytes_for bits <= Z.of_nat (length (message_buffer s'))).
Proof.
  unfold hexToBits. eapply ensures_bind.
  - apply (hexToBits_loop_ends _ (Z.to_nat 1024) 0 0 s); lia.
  - intros n s' (Hkeep & Hn & Hlen). apply ensures_ret.
    unfold wrap16. rewrite Z.mod_small by lia.
    rewrite bytes_for_whole by lia. rewrite Hkeep. lia.
Qed.

(** The phases before the transfer come to an end and leave the message,
    bit count and bytes, as the codec stored it. *)
Lemma waitForTag_ends (s : State) :
  ensures waitForTag s
    (fun _ s' =>
       message_bits s' = message_bits s /\
       message_buffer s' = message_buffer s).
Proof.
  unfold ensures.
  destruct (waitForTag_run s) as (r & s' & cs & -> & _ & -> & _).
  split; reflexivity.
Qed.

Lemma sendMessageLength_ends (bits : Z) (s : State) :
  ensures (sendMessageLength bits) s
    (fun _ s' =>
       message_bits s' = message_bits s /\
       message_buffer s' = message_buffer s).
Proof. split; reflexivity. Qed.

Lemma receiveParameters_ends (s : State) :
  ensures receiveParameters s
    (fun ok s' =>
       message_bits s' = message_bits s /\
       message_buffer s' = message_buffer s /\
       (ok = true -> 0 <= K s' < 65536 /\ 0 <= N s' < 65536)).
Proof.
  unfold ensures, receiveParameters, bind, millis.
  destruct (receiveParameters_loop_run (Z.to_nat 300) (clock s) s)
    as [Hno Hyes]; try lia.
  destruct (Z.lt_ge_cases (arrived (clock s + 2990) (rx s)) 4) as [Hfew|Hfour].
  - destruct Hno as (t' & -> & _).
    { intros i Hi Hlt.
      pose proof (arrived_mono (rx s) (clock s + 10 * i) (clock s + 2990)).
      lia. }
    split; [reflexivity|]. split; [reflexivity|discriminate].
  - destruct (Hyes 299)
      as (tk & k_hi & tl & k_lo & tn & n_hi & tm & n_lo & rest & t' &
          _ & -> & _); try lia.
    { replace (clock s + 10 * 299) with (clock s + 2990) by lia.
      assumption. }
    split; [reflexivity|]. split; [reflexivity|]. intros _. simpl.
    pose proof (Z_of_byte_range k_hi). pose proof (Z_of_byte_range k_lo).
    pose proof (Z_of_byte_range n_hi). pose proof (Z_of_byte_range n_lo).
    lia.
Qed.

Lemma sendMessageData_ends (data : list byte)
    (messageBits calculationBits : Z) (s : State) :
  0 <= K s < 65536 -> 0 <= N s < 65536 ->
  0 <= messageBits < 65536 -> 0 <= calculationBits < 65536 ->
  bytes_for messageBits <= Z.of_nat (length data) ->
  ensures (sendMessageData data messageBits calculationBits) s
    (fun _ _ => True).
Proof.
  intros HK HN Hmb Hcb Hlen. unfold ensures.
  destruct (Z.eq_dec (K s) 0) as [Hzero|Hpos].
  - unfold sendMessageData, bind, get, blocks_for.
    rewrite Hzero. exact I.
  - pose proof (sendMessageData_run data messageBits calculationBits s
                  ltac:(lia) HN Hmb Hcb Hlen) as Hrun.
    cbv zeta in Hrun.
    destruct (sendMessageData data messageBits calculationBits s);
      [exact I|exact I|exact Hrun].
Qed.

Lemma printBytes_ends (data : list byte) (length : Z) (asHex : bool)
    (s : State) :
  ensures (printBytes data length asHex) s (fun _ _ => True).
Proof. unfold ensures, printBytes. destruct (_ <=? _); exact I. Qed.

Lemma totalEncodedBytes_ends (bits : Z) (s : State) :
  ensures (totalEncodedBytes bits) s (fun _ _ => True).
Proof.
  unfold ensures, totalEncodedBytes, bind, get, blocks_for.
  destruct (K s =? 0); exact I.
Qed.

Lemma dump_ends (bits : Z) (s : State) :
  ensures (let! total := totalEncodedBytes bits in
           let! encoded := get encoded_buffer in
           printBytes encoded total true) s (fun _ _ => True).
Proof.
  eapply ensures_bind; [apply totalEncodedBytes_ends|].
  intros total s1 _. eapply ensures_bind with (Q := fun _ _ => True); [exact I|].
  intros encoded s2 _. apply printBytes_ends.
Qed.

Lemma handleEncoding_ends (mode : InputMode) (ui : UserInput) (s : State) :
  ensures (handleEncoding mode ui) s (fun _ _ => True).
Proof.
  unfold handleEncoding.
  eapply ensures_bind with (Q := fun _ _ => True); [exact I|]. intros _ s1 _.
  eapply ensures_bind.
  { instantiate (1 := fun _ _ => True).
    destruct (InputMode_eqb mode INPUT_HEX_MANUAL); exact I. }
  intros _ s2 _.
  eapply ensures_bind with (Q := fun _ _ => True); [exact I|]. intros _ s3 _.
  destruct (strlen (userInput ui) =? 0); [exact I|].
  eapply ensures_bind.
  { instantiate (1 := fun bits s' =>
                        0 <= bits < 65536 /\
                        bytes_for bits
                          <= Z.of_nat (length (message_buffer s'))).
    destruct (InputMode_eqb mode INPUT_TEXT);
      [apply textToBits_ends|apply hexToBits_ends]. }
  intros bits s4 [Hbits Hroom].
  eapply ensures_bind.
  { instantiate (1 := fun _ s' =>
                        message_bits s' = bits /\
                        message_buffer s' = message_buffer s4).
    split; reflexivity. }
  intros _ s5 [Hmb5 Hbuf5].
  eapply ensures_bind; [apply waitForTag_ends|].
  intros tag s6 [Hmb6 Hbuf6].
  destruct tag; cbv beta iota delta [negb]; [|exact I].
  eapply ensures_bind.
  { instantiate (1 := fun a s' => a = message_bits s6 /\ s' = s6).
    split; reflexivity. }
  intros now s7 [-> ->].
  eapply ensures_bind; [apply sendMessageLength_ends|].
  intros sent s8 [Hmb8 Hbuf8].
  destruct sent; cbv beta iota delta [negb]; [|exact I].
  eapply ensures_bind; [apply receiveParameters_ends|].
  intros params s9 (Hmb9 & Hbuf9 & Hrange).
  destruct params; cbv beta iota delta [negb]; [|exact I].
  destruct (Hrange eq_refl) as [HK HN].
  eapply ensures_bind.
  { instantiate (1 := fun a s' => a = message_buffer s9 /\ s' = s9).
    split; reflexivity. }
  intros buffer s10 [-> ->].
  assert (Hbits6 : message_bits s6 = bits) by congruence.
  assert (Hbuf : message_buffer s9 = message_buffer s4) by congruence.
  eapply ensures_bind.
  { apply sendMessageData_ends; try assumption.
    - rewrite Hbits6. exact Hbits.
    - destruct (InputMode_eqb mode INPUT_HEX_MANUAL); [|lia].
      apply Z.mod_pos_bound. lia.
    - rewrite Hbits6, Hbuf. exact Hroom. }
  intros done s11 _.
  destruct done; cbv beta iota delta [negb]; [|exact I].
  eapply ensures_bind; [apply printBytes_ends|].
  intros _ s12 _. apply dump_ends.
Qed.

Lemma showLastResults_ends (s : State) :
  ensures showLastResults s (fun _ _ => True).
Proof.
  unfold showLastResults.
  eapply ensures_bind with (Q := fun _ _ => True); [exact I|]. intros k s1 _.
  eapply ensures_bind with (Q := fun _ _ => True); [exact I|]. intros n s2 _.
  eapply ensures_bind with (Q := fun _ _ => True); [exact I|]. intros bits s3 _.
  destruct ((0 <? k) && (0 <? n) && (0 <? bits)); [|exact I].
  eapply ensures_bind with (Q := fun _ _ => True); [exact I|]. intros buffer s4 _.
  eapply ensures_bind with (Q := fun _ _ => True); [exact I|]. intros last s5 _.
  eapply ensures_bind; [apply printBytes_ends|].
  intros _ s6 _. apply dump_ends.
Qed.

Lemma loop_ends (choice : option ascii) (ui : UserInput) (s : State) :
  ensures (loop choice ui) s (fun _ _ => True).
Proof.
  unfold loop. eapply ensures_bind with (Q := fun _ _ => True);
    [|intros; exact I].
  destruct choice as [c|]; [|exact I].
  destruct c as [[] [] [] [] [] [] [] []];
    lazymatch goal with
    | |- ensures (handleEncoding _ _) _ _ => apply handleEncoding_ends
    | |- ensures showLastResults _ _ => apply showLastResults_ends
    | |- _ => exact I
    end.
Qed.

Lemma loops_end (inputs : list (option ascii * UserInput)) :
  forall s, ensures (loops inputs) s (fun _ _ => True).
Proof.
  induction inputs as [|[choice ui] rest IH]; intros s; simpl.
  - exact I.
  - eapply ensures_bind; [apply loop_ends|]. intros _ s' _. apply IH.
Qed.

(** ** The state variable, at the end of it all *)

(** C6, the claim as stated, refuted: in the middle of a session, after the
    tag came in, and again after the parameters came in, [currentState] is
    still [STATE_IDLE]. *)
Lemma currentState_idle_in_mid_session :
  exists s1 s2 s3,
    waitForTag
      (initial_state 0 (queued 0 [xde; xad; xc0; xde; x00; x08; x00; x10]))
      = Ok true s1 /\
    currentState s1 = STATE_IDLE /\
    sendMessageLength 8 s1 = Ok true s2 /\
    receiveParameters s2 = Ok true s3 /\
    currentState s3 = STATE_IDLE.
Proof.
  do 3 eexists.
  split; [vm_compute; reflexivity|]. split; [reflexivity|].
  split; [vm_compute; reflexivity|].
  split; [vm_compute; reflexivity|reflexivity].
Qed.

(** C6, amended: [currentState] starts as [STATE_IDLE] and nothing in the
    sketch assigns it.  Every function of a session ([waitForTag],
    [sendMessageLength], [receiveParameters], [sendMessageData]), a whole
    [handleEncoding] call and a whole pass of [loop] leave it as it was,
    whether they succeed, fail or fault; so after any number of passes, each
    of which comes to an end, it is [STATE_IDLE], and that is what menu entry 4
    reports. *)
Theorem currentState_is_never_assigned :
  keeps_currentState waitForTag /\
  (forall bits, keeps_currentState (sendMessageLength bits)) /\
  keeps_currentState receiveParameters /\
  (forall data messageBits calculationBits,
      keeps_currentState (sendMessageData data messageBits calculationBits)) /\
  (forall mode ui, keeps_currentState (handleEncoding mode ui)) /\
  (forall choice ui, keeps_currentState (loop choice ui)) /\
  (forall now inbound inputs,
      match loops inputs (initial_state now inbound) with
      | Ok _ s' | Fault _ s' => currentState s' = STATE_IDLE
      | Starved => False
      end) /\
  (forall now inbound inputs ui s1 s2,
      loops inputs (initial_state now inbound) = Ok tt s1 ->
      loop (Some "4"%char) ui s1 = Ok tt s2 ->
      console s2 =
        console s1 ++ [StatusReport STATE_IDLE (K s1) (N s1) (message_bits s1)]).
Proof.
  split; [exact keeps_waitForTag|].
  split; [exact keeps_sendMessageLength|].
  split; [exact keeps_receiveParameters|].
  split; [exact keeps_sendMessageData|].
  split; [exact keeps_handleEncoding|].
  split; [exact keeps_loop|].
  split.
  - intros now inbound inputs.
    pose proof (keeps_loops inputs (initial_state now inbound)) as Hidle.
    pose proof (loops_end inputs (initial_state now inbound)) as Hends.
    unfold ensures in Hends.
    destruct (loops inputs (initial_state now inbound));
      [exact Hidle|exact Hidle|exact Hends].
  - intros now inbound inputs ui s1 s2 Hrun Hstatus.
    pose proof (keeps_loops inputs (initial_state now inbound)) as Hidle.
    rewrite Hrun in Hidle. simpl in Hidle.
    unfold loop, bind, get, say, delay in Hstatus.
    injection Hstatus as <-. simpl. rewrite Hidle. reflexivity.
Qed.

(** ** The codecs in closed form

    What [textToBits] and [hexToBits] leave in [message_buffer], and the bit
    count they return, as functions of the line typed. *)

Lemma overwritten_inserts (bytes buffer : list byte) :
  (length bytes <= length buffer)%nat ->
  list_inserts 0 bytes buffer = overwritten bytes buffer.
Proof.
  intros H. unfold overwritten.
  rewrite <- (take_drop (length bytes) buffer) at 1.
  apply list_inserts_0_r. rewrite length_take. lia.
Qed.

Lemma overwritten_length (bytes buffer : list byte) :
  (length bytes <= length buffer)%nat ->
  length (overwritten bytes buffer) = length buffer.
Proof.
  intros H. unfold overwritten. rewrite length_app, length_drop. lia.
Qed.

Lemma overwritten_take (bytes buffer : list byte) :
  take (length bytes) (overwritten bytes buffer) = bytes.
Proof. unfold overwritten. apply take_app_length. Qed.

Lemma textToBits_loop_run (text : string) (byteCount : Z) (fuel : nat) :
  forall (i : Z) (s : State),
    0 <= i <= byteCount -> byteCount < 65536 ->
    byteCount - i <= Z.of_nat fuel ->
    byteCount <= Z.of_nat (length (message_buffer s)) ->
    textToBits_loop fuel text byteCount i s =
      Ok tt (set_message_buffer s
               (list_inserts (Z.to_nat i)
                  (map (fun j => byte_of_ascii (charAt text j))
                       (seqZ i (byteCount - i)))
                  (message_buffer s))).
Proof.
  induction fuel as [|fuel IH]; intros i s Hi Hcount Hfuel Hlen;
    cbn [textToBits_loop]; destruct (Z.ltb_spec i byteCount) as [Hlt|Hge];
    try lia;
    try (unfold ret; rewrite seqZ_nil by lia; destruct s; reflexivity).
  unfold bind, store_message.
  destruct (Z.leb_spec 0 i); [|lia].
  destruct (Z.ltb_spec i (Z.of_nat (length (message_buffer s)))); [|lia].
  cbv beta iota delta [andb].
  unfold wrap16. rewrite Z.mod_small by lia.
  rewrite IH by (simpl; rewrite ?length_insert; lia).
  rewrite (seqZ_cons i (byteCount - i)) by lia. simpl.
  replace (Z.pred (byteCount - i)) with (byteCount - (i + 1)) by lia.
  replace (Z.succ i) with (i + 1) by lia.
  replace (Z.to_nat (i + 1)) with (S (Z.to_nat i)) by lia.
  rewrite list_insert_inserts_lt by lia.
  destruct s; reflexivity.
Qed.

Lemma get_lookup (text : string) (n : nat) :
  String.get n text = list_ascii_of_string text !! n.
Proof.
  revert n. induction text as [|c text IH]; intros [|n]; simpl;
    try reflexivity. apply IH.
Qed.

Lemma length_list_ascii (text : string) :
  length (list_ascii_of_string text) = String.length text.
Proof. induction text; simpl; congruence. Qed.

Lemma chars_take (text : string) (n : Z) :
  0 <= n <= strlen text ->
  map (fun j => byte_of_ascii (charAt text j)) (seqZ 0 n)
    = map byte_of_ascii (take (Z.to_nat n) (list_ascii_of_string text)).
Proof.
  intros Hn. unfold strlen in Hn. apply list_eq. intros k.
  rewrite !list_lookup_fmap.
  destruct (Z.lt_ge_cases (Z.of_nat k) n) as [Hlt|Hge].
  - rewrite lookup_seqZ_lt, lookup_take_lt by lia. simpl.
    unfold charAt. rewrite Z.add_0_l, Nat2Z.id, get_lookup.
    destruct (list_ascii_of_string text !! k) eqn:Hk; [reflexivity|].
    apply lookup_ge_None in Hk. rewrite length_list_ascii in Hk. lia.
  - rewrite lookup_seqZ_ge, lookup_take_ge by lia. reflexivity.
Qed.

Lemma text_bytes_length (text : string) :
  Z.of_nat (length (text_bytes text))
    = Z.min (wrap16 (strlen text)) (MAX_MESSAGE_LENGTH - 1).
Proof.
  unfold text_bytes. rewrite length_map, length_take, length_list_ascii.
  unfold wrap16, strlen, MAX_MESSAGE_LENGTH.
  pose proof (Z.mod_pos_bound (Z.of_nat (String.length text)) 65536
                ltac:(lia)).
  pose proof (Z.mod_le (Z.of_nat (String.length text)) 65536
                ltac:(lia) ltac:(lia)).
  lia.
Qed.

Lemma textToBits_run (text : string) (s : State) :
  (length (text_bytes text) <= length (message_buffer s))%nat ->
  textToBits text s =
    Ok (8 * Z.of_nat (length (text_bytes text)))
       (set_message_buffer s (overwritten (text_bytes text) (message_buffer s))).
Proof.
  intros Hlen. pose proof (text_bytes_length text) as Hn.
  unfold textToBits, bind, ret.
  replace (wrap16 (MAX_MESSAGE_LENGTH - 1)) with (MAX_MESSAGE_LENGTH - 1)
    by reflexivity.
  rewrite <- Hn.
  assert (Hb : 0 <= Z.of_nat (length (text_bytes text)) <= 1023)
    by (unfold MAX_MESSAGE_LENGTH in Hn; lia).
  rewrite textToBits_loop_run by lia.
  rewrite Z.sub_0_r, chars_take.
  2:{ rewrite Hn. unfold wrap16, strlen.
      pose proof (Z.mod_le (Z.of_nat (String.length text)) 65536
                    ltac:(lia) ltac:(lia)).
      pose proof (Z.mod_pos_bound (Z.of_nat (String.length text)) 65536
                    ltac:(lia)).
      unfold MAX_MESSAGE_LENGTH. lia. }
  replace (map byte_of_ascii (take _ _)) with (text_bytes text)
    by (rewrite Hn; reflexivity).
  change (Z.to_nat 0) with 0%nat.
  rewrite overwritten_inserts by lia.
  unfold wrap16. rewrite Z.mod_small by lia.
  f_equal. lia.
Qed.

Lemma hexToBits_loop_run (cleanHex : string) (fuel : nat) :
  forall (byteCount : Z) (s : State),
    let n := Z.min (strlen cleanHex ÷ 2) MAX_MESSAGE_LENGTH in
    0 <= byteCount <= n -> n - byteCount <= Z.of_nat fuel ->
    n <= Z.of_nat (length (message_buffer s)) ->
    hexToBits_loop fuel cleanHex byteCount (2 * byteCount) s =
      Ok n (set_message_buffer s
              (list_inserts (Z.to_nat byteCount)
                 (map (hex_pair cleanHex) (seqZ byteCount (n - byteCount)))
                 (message_buffer s))).
Proof.
  assert (Hlen0 : 0 <= strlen cleanHex) by (unfold strlen; lia).
  pose proof (Z.quot_div_nonneg (strlen cleanHex) 2 Hlen0 ltac:(lia)) as Hq.
  pose proof (Z.div_mod (strlen cleanHex) 2 ltac:(lia)) as Hdm.
  pose proof (Z.mod_pos_bound (strlen cleanHex) 2 ltac:(lia)) as Hmb.
  induction fuel as [|fuel IH]; intros byteCount s n Hc Hfuel Hlen;
    cbn [hexToBits_loop]; unfold MAX_MESSAGE_LENGTH in *;
    destruct (Z.ltb_spec (2 * byteCount) (strlen cleanHex));
    destruct (Z.ltb_spec (2 * byteCount + 1) (strlen cleanHex));
    destruct (Z.ltb_spec byteCount 1024);
    cbv beta iota delta [andb];
    try (exfalso; lia);
    try (unfold ret; assert (byteCount = n) as -> by lia;
         rewrite seqZ_nil by lia; destruct s; reflexivity).
  unfold bind, store_message.
  destruct (Z.leb_spec 0 byteCount); [|lia].
  destruct (Z.ltb_spec byteCount (Z.of_nat (length (message_buffer s))));
    [|lia].
  cbv beta iota delta [andb].
  unfold wrap16. rewrite !Z.mod_small by lia.
  replace (2 * byteCount + 2) with (2 * (byteCount + 1)) by lia.
  rewrite IH by (simpl; rewrite ?length_insert; lia).
  fold n.
  rewrite (seqZ_cons byteCount (n - byteCount)) by lia. simpl.
  replace (Z.pred (n - byteCount)) with (n - (byteCount + 1)) by lia.
  replace (Z.succ byteCount) with (byteCount + 1) by lia.
  replace (Z.to_nat (byteCount + 1)) with (S (Z.to_nat byteCount)) by lia.
  rewrite list_insert_inserts_lt by lia.
  destruct s; reflexivity.
Qed.

Lemma hex_bytes_length (hexStr : string) :
  Z.of_nat (length (hex_bytes hexStr))
    = Z.min (strlen (cleaned hexStr) ÷ 2) MAX_MESSAGE_LENGTH.
Proof.
  unfold hex_bytes. rewrite length_map, length_seqZ.
  assert (0 <= strlen (cleaned hexStr)) by (unfold strlen; lia).
  pose proof (Z.quot_pos (strlen (cleaned hexStr)) 2 ltac:(lia) ltac:(lia)).
  unfold MAX_MESSAGE_LENGTH. lia.
Qed.

Lemma hexToBits_run (hexStr : string) (s : State) :
  (length (hex_bytes hexStr) <= length (message_buffer s))%nat ->
  hexToBits hexStr s =
    Ok (8 * Z.of_nat (length (hex_bytes hexStr)))
       (set_message_buffer s (overwritten (hex_bytes hexStr) (message_buffer s))).
Proof.
  intros Hlen. pose proof (hex_bytes_length hexStr) as Hn.
  unfold hexToBits, bind, ret. fold (cleaned hexStr).
  assert (Hb : 0 <= Z.of_nat (length (hex_bytes hexStr)) <= 1024)
    by (unfold MAX_MESSAGE_LENGTH in Hn; lia).
  change 0 with (2 * 0) at 2.
  rewrite hexToBits_loop_run by (rewrite <- ?Hn; lia).
  rewrite Z.sub_0_r. fold (hex_bytes hexStr).
  change (Z.to_nat 0) with 0%nat.
  rewrite overwritten_inserts by lia.
  rewrite <- Hn. unfold wrap16. rewrite Z.mod_small by lia.
  f_equal. lia.
Qed.

Lemma message_of_length (mode : InputMode) (line : string) :
  0 <= Z.of_nat (length (message_of mode line)) <= 1024.
Proof.
  unfold message_of. destruct (InputMode_eqb mode INPUT_TEXT).
  - pose proof (text_bytes_length line). unfold MAX_MESSAGE_LENGTH in *. lia.
  - pose proof (hex_bytes_length line). unfold MAX_MESSAGE_LENGTH in *. lia.
Qed.

Lemma codec_run (mode : InputMode) (line : string) (s : State) :
  (length (message_of mode line) <= length (message_buffer s))%nat ->
  (if InputMode_eqb mode INPUT_TEXT then textToBits line else hexToBits line) s
    = Ok (8 * Z.of_nat (length (message_of mode line)))
         (set_message_buffer s
            (overwritten (message_of mode line) (message_buffer s))).
Proof.
  unfold message_of. destruct (InputMode_eqb mode INPUT_TEXT); intros H.
  - now apply textToBits_run.
  - now apply hexToBits_run.
Qed.

(** X5.  [textToBits] stores the first n characters of the text in
    [message_buffer[0 .. n)], where n is the smaller of the text's length
    (as a [uint16_t]) and 1023, and returns 8 * n: a longer text is cut at
    1023 bytes.  The rest of the buffer and every other variable are as
    before, and with a buffer of 1023 bytes or more no store is out of
    range. *)
Theorem textToBits_stores_text (text : string) (s : State) :
  1023 <= Z.of_nat (length (message_buffer s)) ->
  let n := Z.min (strlen text mod 65536) 1023 in
  textToBits text s =
    Ok (8 * n)
       (set_message_buffer s
          (map byte_of_ascii (take (Z.to_nat n) (list_ascii_of_string text))
           ++ drop (Z.to_nat n) (message_buffer s))).
Proof.
  intros Hbuf n.
  pose proof (text_bytes_length text) as Hn.
  change (Z.min _ _) with n in Hn.
  assert (0 <= n <= 1023).
  { subst n. pose proof (Z.mod_pos_bound (strlen text) 65536 ltac:(lia)).
    lia. }
  rewrite textToBits_run by lia.
  unfold overwritten. rewrite Hn.
  replace (length (text_bytes text)) with (Z.to_nat n) by lia.
  reflexivity.
Qed.

Lemma textToBits_stores_text_witness :
  textToBits "Hi" (initial_state 0 []) =
    Ok 16 (set_message_buffer (initial_state 0 [])
             (["H"%byte; "i"%byte]
              ++ drop 2 (message_buffer (initial_state 0 [])))).
Proof.
  exact (textToBits_stores_text "Hi" (initial_state 0 [])
           ltac:(vm_compute; discriminate)).
Defined.

(** X6.  [hexToBits] drops blanks, line feeds and carriage returns from the
    line, and stores one byte for each full pair of the characters left:
    n = min(len / 2, 1024) bytes, byte j being [strtol] of the characters
    2j and 2j + 1 cut to 8 bits.  A last character without a partner is
    dropped, and so is everything after 1024 pairs.  It returns 8 * n; the
    rest of the buffer and every other variable are as before. *)
Theorem hexToBits_decodes_pairs (hexStr : string) (s : State) :
  1024 <= Z.of_nat (length (message_buffer s)) ->
  let cleanHex := cleaned hexStr in
  let n := Z.min (strlen cleanHex / 2) 1024 in
  hexToBits hexStr s =
    Ok (8 * n)
       (set_message_buffer s
          (map (fun j => u8 (strtol16 (substring (Z.to_nat (2 * j)) 2
                                                 cleanHex)))
               (seqZ 0 n)
           ++ drop (Z.to_nat n) (message_buffer s))).
Proof.
  intros Hbuf cleanHex n.
  pose proof (hex_bytes_length hexStr) as Hn.
  assert (Hlen : 0 <= strlen (cleaned hexStr)) by (unfold strlen; lia).
  rewrite Z.quot_div_nonneg in Hn by lia.
  change (Z.min _ _) with n in Hn.
  assert (0 <= n <= 1024).
  { subst n cleanHex.
    pose proof (Z.div_pos (strlen (cleaned hexStr)) 2 Hlen ltac:(lia)).
    lia. }
  rewrite hexToBits_run by lia.
  unfold overwritten. rewrite Hn.
  replace (length (hex_bytes hexStr)) with (Z.to_nat n) by lia.
  unfold hex_bytes. rewrite Z.quot_div_nonneg by lia.
  reflexivity.
Qed.

Lemma hexToBits_decodes_pairs_witness :
  hexToBits "ab Cd 1" (initial_state 0 []) =
    Ok 16 (set_message_buffer (initial_state 0 [])
             ([xab; xcd] ++ drop 2 (message_buffer (initial_state 0 [])))).
Proof.
  exact (hexToBits_decodes_pairs "ab Cd 1" (initial_state 0 [])
           ltac:(vm_compute; discriminate)).
Defined.

(** ** Dumps and what the codecs make of them *)

Lemma append_empty_r (a : string) : String.append a EmptyString = a.
Proof. induction a as [|c a IH]; simpl; congruence. Qed.

Lemma remove_char_append (c : ascii) (a b : string) :
  remove_char c (String.append a b)
    = String.append (remove_char c a) (remove_char c b).
Proof.
  induction a as [|d a IH]; simpl; [reflexivity|].
  destruct (Ascii.eqb c d); simpl; congruence.
Qed.

Lemma toUpperCase_append (a b : string) :
  toUpperCase (String.append a b)
    = String.append (toUpperCase a) (toUpperCase b).
Proof. induction a as [|d a IH]; simpl; congruence. Qed.

Lemma cleaned_append (a b : string) :
  cleaned (String.append a b) = String.append (cleaned a) (cleaned b).
Proof.
  unfold cleaned. now rewrite !remove_char_append, toUpperCase_append.
Qed.

Lemma cleaned_printf_02X (b : byte) : cleaned (printf_02X b) = printf_02X b.
Proof. destruct b; reflexivity. Qed.

Lemma strtol16_printf_02X (b : byte) : strtol16 (printf_02X b) = Z_of_byte b.
Proof. destruct b; reflexivity. Qed.

Lemma cleaned_printBytes_hex (data : list byte) :
  forall i, cleaned (printBytes_hex i data) = digits_of data.
Proof.
  induction data as [|b data IH]; intros i; cbn [printBytes_hex digits_of];
    [reflexivity|].
  rewrite !cleaned_append, cleaned_printf_02X, IH. f_equal.
  destruct (_ =? 0); [reflexivity|]. destruct (_ =? 0); reflexivity.
Qed.

Lemma cleaned_dump (data : list byte) :
  cleaned (printBytes_text data true) = digits_of data.
Proof.
  unfold printBytes_text.
  rewrite cleaned_append, cleaned_printBytes_hex.
  destruct (negb _); apply append_empty_r.
Qed.

Lemma strlen_digits (data : list byte) :
  strlen (digits_of data) = 2 * Z.of_nat (length data).
Proof.
  unfold strlen. induction data as [|b data IH]; simpl; lia.
Qed.

Lemma substring_digits (data : list byte) :
  forall (k : nat) (b : byte),
    data !! k = Some b ->
    substring (2 * k) 2 (digits_of data) = printf_02X b.
Proof.
  induction data as [|a data IH]; intros [|k] b Hk; simpl in Hk;
    try discriminate.
  - injection Hk as ->. simpl. destruct (digits_of data); reflexivity.
  - replace (2 * S k)%nat with (S (S (2 * k))) by lia.
    simpl. apply (IH k b Hk).
Qed.

Lemma hex_bytes_dump (data : list byte) :
  Z.of_nat (length data) <= MAX_MESSAGE_LENGTH ->
  hex_bytes (printBytes_text data true) = data.
Proof.
  intros Hlen. unfold hex_bytes. rewrite cleaned_dump, strlen_digits.
  rewrite Z.quot_div_nonneg by lia.
  replace (2 * Z.of_nat (length data) / 2) with (Z.of_nat (length data))
    by (symmetry; rewrite Z.mul_comm; apply Z.div_mul; lia).
  rewrite Z.min_l by lia.
  apply list_eq. intros k. rewrite list_lookup_fmap.
  destruct (data !! k) as [b|] eqn:Hk.
  - apply lookup_lt_Some in Hk as Hlt.
    rewrite lookup_seqZ_lt by lia. simpl. f_equal.
    unfold hex_pair.
    replace (Z.to_nat (2 * (0 + Z.of_nat k))) with (2 * k)%nat by lia.
    rewrite (substring_digits data k b Hk), strtol16_printf_02X.
    apply u8_Z_of_byte.
  - apply lookup_ge_None in Hk.
    rewrite lookup_seqZ_ge by lia. reflexivity.
Qed.

(** X7.  A hexadecimal dump read back: the characters [printBytes] writes
    for up to 1024 bytes, groups, blanks and line ends included, are turned
    by [hexToBits] into the same bytes again. *)
Theorem hexToBits_reads_back_dump (data : list byte) (s : State) :
  Z.of_nat (length data) <= 1024 ->
  (length data <= length (message_buffer s))%nat ->
  hexToBits (printBytes_text data true) s =
    Ok (8 * Z.of_nat (length data))
       (set_message_buffer s (data ++ drop (length data) (message_buffer s))).
Proof.
  intros Hlen Hbuf.
  pose proof (hex_bytes_dump data Hlen) as Hd.
  rewrite hexToBits_run by (rewrite Hd; exact Hbuf).
  rewrite Hd. reflexivity.
Qed.

Lemma hexToBits_reads_back_dump_witness :
  printBytes_text [xde; xad; xc0; xde; x01] true
    = String.append "DEADC0DE 01" CRLF /\
  hexToBits (printBytes_text [xde; xad; xc0; xde; x01] true)
            (initial_state 0 []) =
    Ok 40 (set_message_buffer (initial_state 0 [])
             ([xde; xad; xc0; xde; x01]
              ++ drop 5 (message_buffer (initial_state 0 [])))).
Proof.
  split; [reflexivity|].
  exact (hexToBits_reads_back_dump [xde; xad; xc0; xde; x01]
           (initial_state 0 []) ltac:(vm_compute; discriminate)
           ltac:(vm_compute; lia)).
Defined.

Lemma text_bytes_short (text : string) :
  strlen text <= 1023 ->
  text_bytes text = map byte_of_ascii (list_ascii_of_string text).
Proof.
  intros H. unfold text_bytes. f_equal. apply take_ge.
  rewrite length_list_ascii. unfold wrap16, MAX_MESSAGE_LENGTH, strlen in *.
  rewrite Z.mod_small by lia. lia.
Qed.

Lemma printBytes_ascii_printable (l : list ascii) :
  Forall (fun c => printable (byte_of_ascii c) = true) l ->
  printBytes_ascii (map byte_of_ascii l) = string_of_list_ascii l.
Proof.
  induction 1 as [|c l Hc _ IH]; simpl; [reflexivity|].
  rewrite Hc, ascii_of_byte_of_ascii, IH. reflexivity.
Qed.

(** X8.  A text of up to 1023 printable characters is shown as it was
    typed: the first [(bits + 7) / 8] bytes of [message_buffer] after
    [textToBits], printed by the ASCII branch of [printBytes], are the text
    followed by the line end. *)
Theorem text_is_shown_as_typed (text : string) (s : State) :
  strlen text <= 1023 ->
  strlen text <= Z.of_nat (length (message_buffer s)) ->
  Forall (fun c => printable (byte_of_ascii c) = true)
         (list_ascii_of_string text) ->
  exists s',
    textToBits text s = Ok (8 * strlen text) s' /\
    printBytes_text
      (take (Z.to_nat (bytes_for (8 * strlen text))) (message_buffer s'))
      false
    = String.append text CRLF.
Proof.
  intros Hshort Hbuf Hprint.
  pose proof (text_bytes_short text Hshort) as Htb.
  assert (Hlen : Z.of_nat (length (text_bytes text)) = strlen text).
  { rewrite Htb, length_map, length_list_ascii. reflexivity. }
  eexists. split.
  - rewrite textToBits_run by lia. rewrite Hlen. reflexivity.
  - simpl message_buffer.
    rewrite (Z.mul_comm 8), bytes_for_whole by (unfold strlen; lia).
    rewrite <- Hlen, Nat2Z.id, overwritten_take.
    unfold printBytes_text. rewrite Htb, printBytes_ascii_printable by exact Hprint.
    now rewrite string_of_list_ascii_of_string.
Qed.

Lemma text_is_shown_as_typed_witness :
  exists s',
    textToBits "Hello, LDPC!" (initial_state 0 []) = Ok (8 * 12) s' /\
    printBytes_text
      (take (Z.to_nat (bytes_for (8 * 12))) (message_buffer s')) false
    = String.append "Hello, LDPC!" CRLF.
Proof.
  apply (text_is_shown_as_typed "Hello, LDPC!" (initial_state 0 [])).
  - vm_compute. discriminate.
  - vm_compute. discriminate.
  - repeat constructor.
Defined.

(** ** Sync after noise *)

(** Bytes that are there when the detector comes to them are read one a
    millisecond; when the cursor reaches 4 on the last of them and not
    before, the loop returns [true] right after reading it. *)
Lemma waitForTag_loop_finds (cs : list (Z * byte)) :
  forall (fuel : nat) (t0 : Z) (s : State) (tagIndex : Z)
         (rest : list (Z * byte)),
    rx s = cs ++ rest ->
    on_time (clock s) cs ->
    0 <= clock s - t0 ->
    clock s - t0 + Z.of_nat (length cs) <= 5000 ->
    (length cs <= fuel)%nat ->
    0 <= tagIndex < 4 ->
    hits_at_end tagIndex (bytes_of cs) ->
    waitForTag_loop fuel (wrap32 t0) tagIndex s =
      Ok true (set_clock (set_rx s rest)
                         (clock s + Z.of_nat (length cs) - 1)).
Proof.
  induction cs as [|[t b] cs IH];
    intros fuel t0 s tagIndex rest Hrx Htime Ht0 Hend Hfuel Hidx Hhit;
    [contradiction|].
  destruct fuel as [|fuel]; [simpl in Hfuel; lia|].
  cbn [length] in Hend, Hfuel. rewrite Nat2Z.inj_succ in Hend.
  simpl in Hrx, Htime. destruct Htime as [Ht Htime].
  rewrite waitForTag_loop_S, elapsed_clock by lia.
  destruct (Z.ltb_spec (clock s - t0) 5000); [|lia].
  rewrite Hrx. cbn [arrived].
  destruct (Z.leb_spec t (clock s)); [|lia].
  pose proof (arrived_nonneg (clock s) (cs ++ rest)).
  destruct (Z.eqb_spec (1 + arrived (clock s) (cs ++ rest)) 0); [lia|].
  rewrite (Serial2_read_head s t b (cs ++ rest) Hrx) by assumption.
  rewrite u8_Z_of_byte, waitForTag_chain_cursor by lia.
  pose proof (cursor_step_range tagIndex b Hidx) as Hstep.
  simpl in Hhit.
  destruct (Z.eqb_spec (cursor_step tagIndex b) 4) as [H4|Hn4].
  - apply map_eq_nil in Hhit. subst cs. simpl.
    f_equal. destruct s; unfold set_clock, set_rx; simpl. f_equal. lia.
  - rewrite (IH fuel t0 _ (cursor_step tagIndex b) rest);
      try (simpl; lia); try reflexivity; try assumption.
    f_equal. cbn [length]. rewrite Nat2Z.inj_succ.
    destruct s; unfold set_clock, set_rx; simpl. f_equal. lia.
Qed.

Lemma cursor_step_noise (b : byte) : b <> xde -> cursor_step 0 b = 0.
Proof.
  intros Hb. unfold cursor_step. simpl (nth _ _ _).
  destruct (Z.eqb_spec (Z_of_byte b) LDPC_TAG_0) as [Heq|]; [|reflexivity].
  exfalso. apply Hb. apply Z_of_byte_inj. exact Heq.
Qed.

Lemma hits_after_noise (noise : list byte) :
  Forall (fun b => b <> xde) noise -> hits_at_end 0 (noise ++ TAG_BYTES).
Proof.
  induction 1 as [|b noise Hb _ IH]; [vm_compute; reflexivity|].
  cbn [app hits_at_end]. rewrite (cursor_step_noise b Hb). exact IH.
Qed.

(** X9.  Noise before the tag: when the bytes waiting on UART2 are any
    bytes other than DE followed by DE AD C0 DE, each there by the time the
    detector comes to it, [waitForTag] returns [true] one millisecond a
    byte later; it has read the noise and the tag and nothing after
    them. *)
Theorem waitForTag_finds_tag_after_noise (s : State)
    (cs rest : list (Z * byte)) (noise : list byte) :
  rx s = cs ++ rest ->
  bytes_of cs = noise ++ TAG_BYTES ->
  Forall (fun b => b <> xde) noise ->
  on_time (clock s) cs ->
  Z.of_nat (length cs) <= 5000 ->
  waitForTag s =
    Ok true (set_clock (set_rx s rest) (clock s + Z.of_nat (length cs) - 1)).
Proof.
  intros Hrx Hbytes Hnoise Htime Hlen.
  unfold waitForTag, bind, millis.
  apply waitForTag_loop_finds; try assumption; try lia.
  rewrite Hbytes. now apply hits_after_noise.
Qed.

Lemma waitForTag_finds_tag_after_noise_witness :
  waitForTag (initial_state 7 (queued 0 [x00; xad; xde; xad; xc0; xde; x01]))
    = Ok true (set_clock
                 (set_rx (initial_state 7
                            (queued 0 [x00; xad; xde; xad; xc0; xde; x01]))
                         (queued 0 [x01]))
                 (7 + 6 - 1)).
Proof.
  apply (waitForTag_finds_tag_after_noise
           (initial_state 7 (queued 0 [x00; xad; xde; xad; xc0; xde; x01]))
           (queued 0 [x00; xad; xde; xad; xc0; xde]) (queued 0 [x01])
           [x00; xad]).
  - reflexivity.
  - reflexivity.
  - repeat constructor; discriminate.
  - simpl. lia.
  - simpl. lia.
Defined.

(** ** A block of no encoded bytes *)

(** X10.  With N = 0 a block has no encoded byte to wait for: for 16-bit
    K > 0 [sendMessageData] writes every block of the message and returns
    [true] without reading a byte, whatever the device does, and
    [encoded_buffer] is as before. *)
Theorem sendMessageData_needs_no_reply_when_N_is_zero (data : list byte)
    (messageBits calculationBits : Z) (s : State) :
  0 < K s < 65536 -> N s = 0 ->
  0 <= messageBits < 65536 -> 0 <= calculationBits < 65536 ->
  bytes_for messageBits <= Z.of_nat (length data) ->
  let bits := if 0 <? calculationBits then calculationBits else messageBits in
  exists s',
    sendMessageData data messageBits calculationBits s = Ok true s' /\
    tx s' = tx s ++ payloads data messageBits (bytes_for (K s)) 0
                             ((bits + K s - 1) ÷ K s) /\
    rx s' = rx s /\ encoded_buffer s' = encoded_buffer s.
Proof.
  intros HK HN Hmb Hcb Hlen bits.
  pose proof (sendMessageData_run data messageBits calculationBits s
                HK ltac:(lia) Hmb Hcb Hlen) as Hspec.
  cbv zeta in Hspec. fold bits in Hspec.
  rewrite HN in Hspec. change (bytes_for 0) with 0 in Hspec.
  destruct (sendMessageData data messageBits calculationBits s)
    as [ok s'|f s'|]; [| |contradiction].
  - destruct Hspec as (n & cs & Hn & [Hrx Hs'] & _ & Hres).
    assert (Hcs : cs = []).
    { destruct ok; [destruct Hres as [_ Hres]|destruct Hres as [_ Hres]];
        destruct cs; [reflexivity|simpl in Hres; lia
                     |reflexivity|simpl in Hres; lia]. }
    subst cs. destruct ok.
    + destruct Hres as [-> _]. exists s'. split; [reflexivity|].
      rewrite Hs'. simpl. split; [reflexivity|].
      split; [symmetry; exact Hrx|reflexivity].
    + simpl in Hres. lia.
  - destruct Hspec as (index & n & _ & Hout & _). lia.
Qed.

Lemma sendMessageData_needs_no_reply_when_N_is_zero_witness :
  exists s',
    sendMessageData [x41; x42] 16 0 (set_K (initial_state 0 []) 8)
      = Ok true s' /\
    tx s' = [] ++ payloads [x41; x42] 16 (bytes_for 8) 0 ((16 + 8 - 1) ÷ 8) /\
    rx s' = [] /\
    encoded_buffer s' = encoded_buffer (initial_state 0 []).
Proof.
  apply (sendMessageData_needs_no_reply_when_N_is_zero [x41; x42] 16 0
           (set_K (initial_state 0 []) 8)
           ltac:(simpl; lia) ltac:(reflexivity) ltac:(lia) ltac:(lia)
           ltac:(vm_compute; discriminate)).
Defined.

(** ** What each function may write

    A view of the state that does not depend on the variables a function
    assigns is left as it was by the function, however it ends.  The
    assumptions on the view say which assignments it does not see; each
    lemma keeps the ones its function needs. *)

Section Frame.

Context {V : Type} (view : State -> V).

Hypothesis view_clock : forall s v, view (set_clock s v) = view s.
Hypothesis view_rx : forall s v, view (set_rx s v) = view s.
Hypothesis view_tx : forall s v, view (set_tx s v) = view s.
Hypothesis view_console : forall s v, view (set_console s v) = view s.
Hypothesis view_K : forall s v, view (set_K s v) = view s.
Hypothesis view_N : forall s v, view (set_N s v) = view s.
Hypothesis view_message_bits :
  forall s v, view (set_message_bits s v) = view s.
Hypothesis view_message_buffer :
  forall s v, view (set_message_buffer s v) = view s.
Hypothesis view_encoded_buffer :
  forall s v, view (set_encoded_buffer s v) = view s.
Hypothesis view_lastInputMode :
  forall s v, view (set_lastInputMode s v) = view s.

Lemma leaves_ret {A} (a : A) : leaves view (ret a).
Proof. intros s. reflexivity. Qed.

Lemma leaves_raise {A} (f : fault) : leaves view (@raise A f).
Proof. intros s. reflexivity. Qed.

Lemma leaves_starved {A} : leaves view (fun _ => @Starved A).
Proof. intros s. exact I. Qed.

Lemma leaves_bind {A B} (c : M A) (k : A -> M B) :
  leaves view c -> (forall a, leaves view (k a)) -> leaves view (bind c k).
Proof.
  intros Hc Hk s. unfold bind. specialize (Hc s).
  destruct (c s) as [a s1|f s1|]; try assumption.
  specialize (Hk a s1). destruct (k a s1); congruence.
Qed.

Lemma leaves_get {A} (f : State -> A) : leaves view (get f).
Proof. intros s. reflexivity. Qed.

Lemma leaves_millis : leaves view millis.
Proof. intros s. reflexivity. Qed.

Lemma leaves_delay (ms : Z) : leaves view (delay ms).
Proof. intros s. apply view_clock. Qed.

Lemma leaves_available : leaves view Serial2_available.
Proof. intros s. reflexivity. Qed.

Lemma leaves_read : leaves view Serial2_read.
Proof.
  intros s. unfold Serial2_read.
  destruct (rx s) as [|[t b] q]; [reflexivity|].
  destruct (t <=? clock s); [apply view_rx|reflexivity].
Qed.

Lemma leaves_write (b : byte) : leaves view (Serial2_write b).
Proof. intros s. apply view_tx. Qed.

Lemma leaves_store_K (v : Z) : leaves view (store_K v).
Proof. intros s. apply view_K. Qed.

Lemma leaves_store_N (v : Z) : leaves view (store_N v).
Proof. intros s. apply view_N. Qed.

Lemma leaves_store_message_bits (v : Z) :
  leaves view (store_message_bits v).
Proof. intros s. apply view_message_bits. Qed.

Lemma leaves_store_lastInputMode (v : InputMode) :
  leaves view (store_lastInputMode v).
Proof. intros s. apply view_lastInputMode. Qed.

Lemma leaves_store_encoded (index : Z) (b : byte) :
  leaves view (store_encoded index b).
Proof.
  intros s. unfold store_encoded.
  destruct (_ && _); [apply view_encoded_buffer|reflexivity].
Qed.

Lemma leaves_store_message (index : Z) (b : byte) :
  leaves view (store_message index b).
Proof.
  intros s. unfold store_message.
  destruct (_ && _); [apply view_message_buffer|reflexivity].
Qed.

Lemma leaves_load (data : list byte) (index : Z) :
  leaves view (load data index).
Proof. intros s. unfold load. destruct (_ && _); reflexivity. Qed.

Lemma leaves_printBytes (data : list byte) (length : Z) (asHex : bool) :
  leaves view (printBytes data length asHex).
Proof.
  intros s. unfold printBytes.
  destruct (_ <=? _); [apply view_console|reflexivity].
Qed.

Lemma leaves_say (e : console_event) : leaves view (say e).
Proof. intros s. apply view_console. Qed.

Ltac leaves_step :=
  lazymatch goal with
  | |- leaves _ (bind _ _) => apply leaves_bind; [|intros]
  | |- leaves _ (if ?c then _ else _) => destruct c
  | |- leaves _ (match ?x with _ => _ end) => destruct x
  | |- leaves _ (ret _) => apply leaves_ret
  | |- leaves _ (raise _) => apply leaves_raise
  | |- leaves _ (fun _ => Starved) => apply leaves_starved
  | |- leaves _ (get _) => apply leaves_get
  | |- leaves _ millis => apply leaves_millis
  | |- leaves _ (delay _) => apply leaves_delay
  | |- leaves _ Serial2_available => apply leaves_available
  | |- leaves _ Serial2_read => apply leaves_read
  | |- leaves _ (Serial2_write _) => apply leaves_write
  | |- leaves _ (store_K _) => apply leaves_store_K
  | |- leaves _ (store_N _) => apply leaves_store_N
  | |- leaves _ (store_message_bits _) => apply leaves_store_message_bits
  | |- leaves _ (store_lastInputMode _) => apply leaves_store_lastInputMode
  | |- leaves _ (store_encoded _ _) => apply leaves_store_encoded
  | |- leaves _ (store_message _ _) => apply leaves_store_message
  | |- leaves _ (load _ _) => apply leaves_load
  | |- leaves _ (printBytes _ _ _) => apply leaves_printBytes
  | |- leaves _ (say _) => apply leaves_say
  end.

Lemma leaves_waitForTag_loop (fuel : nat) :
  forall startTime tagIndex,
    leaves view (waitForTag_loop fuel startTime tagIndex).
Proof.
  induction fuel as [|fuel IH]; intros; cbn [waitForTag_loop];
    repeat leaves_step; apply IH.
Qed.

Lemma leaves_waitForTag : leaves view waitForTag.
Proof.
  unfold waitForTag. repeat leaves_step. apply leaves_waitForTag_loop.
Qed.

Lemma leaves_sendMessageLength (bits : Z) :
  leaves view (sendMessageLength bits).
Proof. unfold sendMessageLength. repeat leaves_step. Qed.

Lemma leaves_receiveParameters_loop (fuel : nat) :
  forall startTime, leaves view (receiveParameters_loop fuel startTime).
Proof.
  induction fuel as [|fuel IH]; intros; cbn [receiveParameters_loop];
    repeat leaves_step; apply IH.
Qed.

Lemma leaves_receiveParameters : leaves view receiveParameters.
Proof.
  unfold receiveParameters. repeat leaves_step.
  apply leaves_receiveParameters_loop.
Qed.

Lemma leaves_send_block_loop (fuel : nat) :
  forall data messageBits block K_bytes i,
    leaves view (send_block_loop fuel data messageBits block K_bytes i).
Proof.
  induction fuel as [|fuel IH]; intros; cbn [send_block_loop];
    unfold byteToSend; repeat leaves_step; apply IH.
Qed.

Lemma leaves_receive_block_loop (fuel : nat) :
  forall block N_bytes startTime receivedBytes,
    leaves view
      (receive_block_loop fuel block N_bytes startTime receivedBytes).
Proof.
  induction fuel as [|fuel IH]; intros; cbn [receive_block_loop];
    repeat leaves_step; apply IH.
Qed.

Lemma leaves_transfer_block (data : list byte)
    (messageBits K_bytes block : Z) :
  leaves view (transfer_block data messageBits K_bytes block).
Proof.
  unfold transfer_block. repeat leaves_step.
  - apply leaves_send_block_loop.
  - apply leaves_receive_block_loop.
Qed.

Lemma leaves_sendMessageData_loop (fuel : nat) :
  forall data messageBits K_bytes C block,
    leaves view (sendMessageData_loop fuel data messageBits K_bytes C block).
Proof.
  induction fuel as [|fuel IH]; intros; cbn [sendMessageData_loop];
    repeat leaves_step;
    lazymatch goal with
    | |- leaves _ (transfer_block _ _ _ _) => apply leaves_transfer_block
    | |- _ => apply IH
    end.
Qed.

Lemma leaves_sendMessageData (data : list byte)
    (messageBits calculationBits : Z) :
  leaves view (sendMessageData data messageBits calculationBits).
Proof.
  unfold sendMessageData, blocks_for. repeat leaves_step.
  apply leaves_sendMessageData_loop.
Qed.

Lemma leaves_textToBits_loop (fuel : nat) :
  forall text byteCount i,
    leaves view (textToBits_loop fuel text byteCount i).
Proof.
  induction fuel as [|fuel IH]; intros; cbn [textToBits_loop];
    repeat leaves_step; apply IH.
Qed.

Lemma leaves_hexToBits_loop (fuel : nat) :
  forall cleanHex byteCount i,
    leaves view (hexToBits_loop fuel cleanHex byteCount i).
Proof.
  induction fuel as [|fuel IH]; intros; cbn [hexToBits_loop];
    repeat leaves_step; apply IH.
Qed.

Lemma leaves_textToBits (text : string) : leaves view (textToBits text).
Proof.
  unfold textToBits. repeat leaves_step. apply leaves_textToBits_loop.
Qed.

Lemma leaves_hexToBits (hexStr : string) : leaves view (hexToBits hexStr).
Proof.
  unfold hexToBits. repeat leaves_step. apply leaves_hexToBits_loop.
Qed.

Lemma leaves_totalEncodedBytes (bits : Z) :
  leaves view (totalEncodedBytes bits).
Proof. unfold totalEncodedBytes, blocks_for. repeat leaves_step. Qed.

Ltac leaves_call :=
  lazymatch goal with
  | |- leaves _ (textToBits _) => apply leaves_textToBits
  | |- leaves _ (hexToBits _) => apply leaves_hexToBits
  | |- leaves _ waitForTag => apply leaves_waitForTag
  | |- leaves _ (sendMessageLength _) => apply leaves_sendMessageLength
  | |- leaves _ receiveParameters => apply leaves_receiveParameters
  | |- leaves _ (sendMessageData _ _ _) => apply leaves_sendMessageData
  | |- leaves _ (totalEncodedBytes _) => apply leaves_totalEncodedBytes
  | |- _ => leaves_step
  end.

Lemma leaves_handleEncoding (mode : InputMode) (ui : UserInput) :
  leaves view (handleEncoding mode ui).
Proof. unfold handleEncoding. repeat leaves_call. Qed.

Lemma leaves_showLastResults : leaves view showLastResults.
Proof. unfold showLastResults. repeat leaves_call. Qed.

Lemma leaves_loop (choice : option ascii) (ui : UserInput) :
  leaves view (loop choice ui).
Proof.
  unfold loop. apply leaves_bind; [|intros; apply leaves_delay].
  destruct choice as [c|]; [|apply leaves_ret].
  destruct c as [[] [] [] [] [] [] [] []];
    lazymatch goal with
    | |- leaves _ (handleEncoding _ _) => apply leaves_handleEncoding
    | |- leaves _ showLastResults => apply leaves_showLastResults
    | |- _ => repeat leaves_step
    end.
Qed.

Lemma leaves_loops (inputs : list (option ascii * UserInput)) :
  leaves view (loops inputs).
Proof.
  induction inputs as [|[choice ui] rest IH]; simpl.
  - apply leaves_ret.
  - apply leaves_bind; [apply leaves_loop|intros; apply IH].
Qed.

End Frame.


(** X11.  What the functions may write, however they end (with a result or
    with a fault).  [waitForTag] writes no variable of the sketch and
    sends nothing; [sendMessageLength] writes none and reads nothing;
    [receiveParameters] writes K and N only; [sendMessageData] writes
    [encoded_buffer] only, not K, N or the message; [textToBits] and
    [hexToBits] write [message_buffer] only, take no time and do not touch
    UART2. *)
Theorem functions_write_only_their_own :
  leaves (fun s => (tx s, K s, N s, entered s, encoded_buffer s)) waitForTag /\
  (forall bits,
     leaves (fun s => (rx s, K s, N s, entered s, encoded_buffer s))
            (sendMessageLength bits)) /\
  leaves (fun s => (tx s, entered s, encoded_buffer s)) receiveParameters /\
  (forall data messageBits calculationBits,
     leaves (fun s => (K s, N s, entered s))
            (sendMessageData data messageBits calculationBits)) /\
  (forall text,
     leaves (fun s => (clock s, rx s, tx s, K s, N s, inputMode s,
                       lastInputMode s, message_bits s, encoded_buffer s))
            (textToBits text)) /\
  (forall hexStr,
     leaves (fun s => (clock s, rx s, tx s, K s, N s, inputMode s,
                       lastInputMode s, message_bits s, encoded_buffer s))
            (hexToBits hexStr)).
Proof.
  split; [apply leaves_waitForTag; reflexivity|].
  split; [intros bits; apply leaves_sendMessageLength; reflexivity|].
  split; [apply leaves_receiveParameters; reflexivity|].
  split; [intros; apply leaves_sendMessageData; reflexivity|].
  split; [intros; apply leaves_textToBits; reflexivity
         |intros; apply leaves_hexToBits; reflexivity].
Qed.

(** ** Sessions that stop early *)

Lemma bind_ok {A B} (c : M A) (k : A -> M B) (s s' : State) (a : A) :
  c s = Ok a s' -> bind c k s = k a s'.
Proof. unfold bind. intros ->. reflexivity. Qed.

Lemma store_lastInputMode_run (v : InputMode) (s : State) :
  store_lastInputMode v s = Ok tt (set_lastInputMode s v).
Proof. reflexivity. Qed.

Lemma store_message_bits_run (v : Z) (s : State) :
  store_message_bits v s = Ok tt (set_message_bits s v).
Proof. reflexivity. Qed.

Lemma delay_run (ms : Z) (s : State) :
  delay ms s = Ok tt (set_clock s (clock s + ms)).
Proof. reflexivity. Qed.

Lemma get_run {A} (f : State -> A) (s : State) : get f s = Ok (f s) s.
Proof. reflexivity. Qed.

Lemma manual_wait (mode : InputMode) (ms : Z) (s : State) :
  (if InputMode_eqb mode INPUT_HEX_MANUAL then delay ms else ret tt) s =
    Ok tt (set_clock s (clock s + if InputMode_eqb mode INPUT_HEX_MANUAL
                                  then ms else 0)).
Proof.
  destruct (InputMode_eqb mode INPUT_HEX_MANUAL); [reflexivity|].
  unfold ret. f_equal. destruct s; unfold set_clock; simpl. f_equal. lia.
Qed.

Lemma waitForTag_silent (s : State) :
  rx s = [] -> waitForTag s = Ok false (set_clock s (clock s + 5000)).
Proof.
  intros Hsilent.
  destruct (waitForTag_run s) as (r & s' & cs & Hrun & Hrx & Hfr & _ & Hres).
  rewrite Hsilent in Hrx. symmetry in Hrx.
  apply app_eq_nil in Hrx as [-> Hrx'].
  destruct r; simpl in Hres; [lia|].
  destruct Hres as [_ Hclock].
  rewrite Hrun. f_equal. rewrite Hfr, Hrx', Hclock.
  destruct s; simpl in *. now subst.
Qed.

Lemma sendMessageLength_run (bits : Z) (s : State) :
  sendMessageLength bits s =
    Ok true (set_clock
               (set_tx s (tx s ++ [u8 (Z.shiftr bits 8); u8 (Z.land bits 255)]))
               (clock s + 20)).
Proof.
  unfold sendMessageLength, bind, Serial2_write, delay, ret. simpl.
  rewrite <- app_assoc. simpl.
  replace (clock s + 10 + 10) with (clock s + 20) by lia.
  destruct s; reflexivity.
Qed.

Lemma length_bytes_value (bits : Z) :
  0 <= bits < 65536 ->
  256 * Z_of_byte (u8 (Z.shiftr bits 8)) + Z_of_byte (u8 (Z.land bits 255))
    = bits.
Proof.
  intros Hbits. rewrite !Z_of_byte_u8. unfold wrap8.
  rewrite Z.shiftr_div_pow2 by lia.
  change 255 with (Z.ones 8). rewrite Z.land_ones by lia.
  change (2 ^ 8) with 256.
  rewrite (Z.mod_small (bits / 256))
    by (split; [apply Z.div_pos; lia|apply Z.div_lt_upper_bound; lia]).
  rewrite Z.mod_mod by lia.
  pose proof (Z.div_mod bits 256 ltac:(lia)). lia.
Qed.

Lemma receiveParameters_silent (s : State) :
  rx s = [] ->
  exists t', receiveParameters s = Ok false (set_clock s t') /\
             clock s + 3000 <= t' <= clock s + 3010.
Proof.
  intros Hrx. unfold receiveParameters, bind, millis.
  destruct (receiveParameters_loop_run (Z.to_nat 300) (clock s) s)
    as [Hno _]; try lia.
  destruct Hno as (t' & Hrun & Ht').
  { intros i _ _. rewrite Hrx. simpl. lia. }
  exists t'. split; [exact Hrun|lia].
Qed.

Lemma announced_bits_range (mode : InputMode) (ui : UserInput) :
  0 <= announced_bits mode ui < 65536.
Proof.
  unfold announced_bits. destruct (InputMode_eqb mode INPUT_HEX_MANUAL).
  - apply Z.mod_pos_bound. lia.
  - pose proof (message_of_length mode (userInput ui)). lia.
Qed.

(** One step of a run: the computation in front returns, the rest goes
    on. *)
Ltac step_by tac := erewrite bind_ok by tac; cbv beta zeta.

(** [handleEncoding] up to the sync. *)
Ltac to_sync mode ui s :=
  unfold handleEncoding;
  step_by ltac:(apply store_lastInputMode_run);
  step_by ltac:(apply manual_wait);
  step_by ltac:(apply delay_run);
  destruct (Z.eqb_spec (strlen (userInput ui)) 0) as [|_]; [contradiction|];
  step_by ltac:(apply codec_run; simpl; lia);
  step_by ltac:(apply store_message_bits_run);
  lazymatch goal with
  | |- context [bind waitForTag _ ?st] =>
      replace st with (before_sync mode ui s)
        by (unfold before_sync, typing_time;
            destruct s;
            unfold set_message_bits, set_message_buffer, set_clock,
              set_lastInputMode; simpl; f_equal; lia)
  end.

(** X12.  A session with a device that sends nothing: [handleEncoding]
    returns when the 5000 ms of [waitForTag] are over.  It has written
    nothing to UART2 and printed no result; K, N and [encoded_buffer] are
    those of the session before; but [lastInputMode], [message_bits] and
    [message_buffer] are already those of the new message. *)
Theorem session_with_silent_device (mode : InputMode) (ui : UserInput)
    (s : State) :
  rx s = [] ->
  strlen (userInput ui) <> 0 ->
  1024 <= Z.of_nat (length (message_buffer s)) ->
  handleEncoding mode ui s =
    Ok tt (set_clock (before_sync mode ui s)
                     (clock s + typing_time mode ui + 5000)).
Proof.
  intros Hrx Hline Hbuf.
  pose proof (message_of_length mode (userInput ui)) as Hlen.
  to_sync mode ui s.
  step_by ltac:(apply waitForTag_silent; exact Hrx).
  reflexivity.
Qed.

Lemma session_with_silent_device_witness :
  handleEncoding INPUT_TEXT (typed "A") (initial_state 0 []) =
    Ok tt (set_clock (before_sync INPUT_TEXT (typed "A") (initial_state 0 []))
                     (0 + typing_time INPUT_TEXT (typed "A") + 5000)).
Proof.
  apply (session_with_silent_device INPUT_TEXT (typed "A")
           (initial_state 0 [])).
  - reflexivity.
  - vm_compute. discriminate.
  - vm_compute. discriminate.
Defined.

(** X13.  A session in which the tag arrives, after noise or not, and no
    parameters follow: [handleEncoding] has written the two bytes of the
    length to UART2, high byte first, and nothing else.  The length is the
    one typed in mode 3 (cut to 16 bits) and the bit count of the message in
    the other modes.  K, N and [encoded_buffer] are those of the session
    before, and no result is printed. *)
Theorem session_without_parameters (mode : InputMode) (ui : UserInput)
    (s : State) (noise : list byte) :
  strlen (userInput ui) <> 0 ->
  1024 <= Z.of_nat (length (message_buffer s)) ->
  bytes_of (rx s) = noise ++ TAG_BYTES ->
  Forall (fun b => b <> xde) noise ->
  on_time (clock s + typing_time mode ui) (rx s) ->
  Z.of_nat (length (rx s)) <= 5000 ->
  exists s' hi lo,
    handleEncoding mode ui s = Ok tt s' /\
    tx s' = tx s ++ [hi; lo] /\
    256 * Z_of_byte hi + Z_of_byte lo = announced_bits mode ui /\
    rx s' = [] /\
    K s' = K s /\ N s' = N s /\ encoded_buffer s' = encoded_buffer s /\
    console s' = console s.
Proof.
  intros Hline Hbuf Hbytes Hnoise Htime Hfew.
  pose proof (message_of_length mode (userInput ui)) as Hlen.
  pose proof (announced_bits_range mode ui) as Hbits.
  to_sync mode ui s.
  assert (Hsync : waitForTag (before_sync mode ui s) =
                  Ok true (set_clock (set_rx (before_sync mode ui s) [])
                             (clock (before_sync mode ui s)
                              + Z.of_nat (length (rx s)) - 1))).
  { unfold waitForTag, bind, millis.
    apply waitForTag_loop_finds; try lia.
    - simpl. now rewrite app_nil_r.
    - exact Htime.
    - rewrite Hbytes. now apply hits_after_noise. }
  step_by ltac:(exact Hsync).
  cbv beta iota delta [negb].
  step_by ltac:(apply get_run).
  step_by ltac:(apply sendMessageLength_run).
  cbv beta iota delta [negb].
  lazymatch goal with
  | |- context [bind receiveParameters _ ?st] =>
      destruct (receiveParameters_silent st eq_refl) as (t' & Hpar & _)
  end.
  step_by ltac:(exact Hpar).
  cbv beta iota delta [negb].
  eexists _, _, _. split; [reflexivity|].
  split; [reflexivity|].
  split.
  { simpl message_bits. unfold announced_bits in *.
    destruct (InputMode_eqb mode INPUT_HEX_MANUAL);
      apply length_bytes_value; assumption. }
  repeat (split; [reflexivity|]). reflexivity.
Qed.

Lemma session_without_parameters_witness :
  exists s' hi lo,
    handleEncoding INPUT_HEX_MANUAL (mkUserInput 1 300 2 "AB")
      (initial_state 0 (queued 0 [x00; xde; xad; xc0; xde])) = Ok tt s' /\
    tx s' = [] ++ [hi; lo] /\
    256 * Z_of_byte hi + Z_of_byte lo
      = announced_bits INPUT_HEX_MANUAL (mkUserInput 1 300 2 "AB") /\
    rx s' = [] /\
    K s' = 0 /\ N s' = 0 /\
    encoded_buffer s' = encoded_buffer (initial_state 0 []) /\
    console s' = [].
Proof.
  apply (session_without_parameters INPUT_HEX_MANUAL
           (mkUserInput 1 300 2 "AB")
           (initial_state 0 (queued 0 [x00; xde; xad; xc0; xde]))
           [x00]).
  - vm_compute. discriminate.
  - vm_compute. discriminate.
  - reflexivity.
  - repeat constructor; discriminate.
  - vm_compute. repeat split; discriminate.
  - vm_compute. discriminate.
Defined.

(** ** Showing the last results again *)

Lemma ensures_step {A B} (c : M A) (k : A -> M B) (s s' : State) (a : A)
    (R : B -> State -> Prop) :
  c s = Ok a s' -> ensures (k a) s' R -> ensures (bind c k) s R.
Proof. unfold ensures, bind. intros ->. exact (fun H => H). Qed.

Lemma ensures_leaves {A V} (view : State -> V) (c : M A) (s : State)
    (Q : A -> State -> Prop) :
  leaves view c -> ensures c s Q ->
  ensures c s (fun a s' => Q a s' /\ view s' = view s).
Proof.
  unfold ensures. intros Hl Hc. specialize (Hl s).
  destruct (c s); [split; assumption|exact I|contradiction].
Qed.

Lemma printBytes_shows (data : list byte) (length : Z) (asHex : bool)
    (s : State) :
  ensures (printBytes data length asHex) s
    (fun _ s' =>
       length <= Z.of_nat (List.length data) /\
       s' = set_console s (console s ++
                           [PrintedBytes (take (Z.to_nat length) data) asHex])).
Proof.
  unfold ensures, printBytes.
  destruct (Z.leb_spec length (Z.of_nat (List.length data)));
    [split; [assumption|reflexivity]|exact I].
Qed.

Lemma printBytes_run (data : list byte) (length : Z) (asHex : bool)
    (s : State) :
  length <= Z.of_nat (List.length data) ->
  printBytes data length asHex s =
    Ok tt (set_console s (console s ++
                          [PrintedBytes (take (Z.to_nat length) data) asHex])).
Proof.
  intros H. unfold printBytes.
  destruct (Z.leb_spec length (Z.of_nat (List.length data))); [reflexivity|lia].
Qed.

(** Menu entry 5 when there are results, in closed form. *)
Lemma showLastResults_run (s : State) :
  0 < K s -> 0 < N s -> 0 < message_bits s ->
  bytes_for (message_bits s) <= Z.of_nat (length (message_buffer s)) ->
  wrap16 ((message_bits s + K s - 1) ÷ K s * bytes_for (N s))
    <= Z.of_nat (length (encoded_buffer s)) ->
  showLastResults s =
    Ok tt (set_console s
             (console s ++
              [PrintedBytes
                 (take (Z.to_nat (bytes_for (message_bits s)))
                       (message_buffer s))
                 (InputMode_eqb (lastInputMode s) INPUT_HEX);
               PrintedBytes
                 (take (Z.to_nat (wrap16 ((message_bits s + K s - 1) ÷ K s
                                          * bytes_for (N s))))
                       (encoded_buffer s))
                 true])).
Proof.
  intros HK HN Hbits Hroom Htotal. unfold showLastResults.
  step_by ltac:(apply get_run).
  step_by ltac:(apply get_run).
  step_by ltac:(apply get_run).
  destruct (Z.ltb_spec 0 (K s)); [|lia].
  destruct (Z.ltb_spec 0 (N s)); [|lia].
  destruct (Z.ltb_spec 0 (message_bits s)); [|lia].
  cbv beta iota delta [andb].
  step_by ltac:(apply get_run).
  step_by ltac:(apply get_run).
  step_by ltac:(apply printBytes_run; exact Hroom).
  step_by ltac:(apply totalEncodedBytes_value; simpl; lia).
  step_by ltac:(apply get_run).
  rewrite printBytes_run by exact Htotal.
  f_equal. destruct s; unfold set_console; simpl.
  rewrite <- app_assoc. reflexivity.
Qed.

Lemma sendMessageData_done (data : list byte)
    (messageBits calculationBits : Z) (s : State) :
  0 <= K s < 65536 -> 0 <= N s < 65536 ->
  0 <= messageBits < 65536 -> 0 <= calculationBits < 65536 ->
  bytes_for messageBits <= Z.of_nat (length data) ->
  ensures (sendMessageData data messageBits calculationBits) s
    (fun _ s' => 0 < K s' /\ (K s', N s', shown s') = (K s, N s, shown s)).
Proof.
  intros HK HN Hmb Hcb Hlen.
  destruct (Z.eq_dec (K s) 0) as [Hzero|Hpos].
  - unfold ensures, sendMessageData, bind, get, blocks_for.
    rewrite Hzero. exact I.
  - eapply ensures_weaken.
    + apply (ensures_leaves (fun s => (K s, N s, shown s))).
      * apply leaves_sendMessageData; reflexivity.
      * apply sendMessageData_ends; assumption.
    + intros _ s' [_ Hview]. split; [|exact Hview].
      injection Hview as -> _ _. lia.
Qed.

(** X14.  After a session in text or hex mode that printed its results,
    menu entry 5 prints them again, the same message bytes in the same form
    and the same encoded bytes, whenever it does not answer that there are
    no results (N = 0 or an empty message). *)
Theorem redisplay_repeats_completion (mode : InputMode) (ui : UserInput)
    (s : State) :
  mode <> INPUT_HEX_MANUAL ->
  ensures (handleEncoding mode ui) s
    (fun _ s' =>
       console s' = console s \/
       exists message encoded,
         console s' = console s ++
                      [PrintedBytes message (InputMode_eqb mode INPUT_HEX);
                       PrintedBytes encoded true] /\
         (0 < N s' -> 0 < message_bits s' ->
          showLastResults s' =
            Ok tt (set_console s'
                     (console s' ++
                      [PrintedBytes message (InputMode_eqb mode INPUT_HEX);
                       PrintedBytes encoded true])))).
Proof.
  intros Hmode.
  assert (Hman : InputMode_eqb mode INPUT_HEX_MANUAL = false)
    by (destruct mode; [reflexivity|reflexivity|contradiction]).
  assert (Hflag : negb (InputMode_eqb mode INPUT_TEXT)
                  = InputMode_eqb mode INPUT_HEX)
    by (destruct mode; [reflexivity|reflexivity|contradiction]).
  unfold negb in Hflag.
  unfold handleEncoding.
  eapply ensures_step; [apply store_lastInputMode_run|].
  eapply ensures_step; [apply manual_wait|].
  eapply ensures_step; [apply delay_run|].
  match goal with
  | |- ensures _ ?st _ =>
      assert (Hv3 : (console st, lastInputMode st) = (console s, mode))
        by reflexivity;
      generalize dependent st
  end.
  intros s3 Hv3.
  destruct (strlen (userInput ui) =? 0); [left; congruence|].
  eapply ensures_bind.
  { apply (ensures_leaves (fun s => (console s, lastInputMode s))).
    - destruct (InputMode_eqb mode INPUT_TEXT);
        [apply leaves_textToBits|apply leaves_hexToBits]; reflexivity.
    - destruct (InputMode_eqb mode INPUT_TEXT);
        [apply textToBits_ends|apply hexToBits_ends]. }
  intros bits s4 [[Hbits Hroom] Hv4]. cbv beta in Hv4.
  eapply ensures_step; [apply store_message_bits_run|].
  eapply ensures_bind.
  { apply (ensures_leaves shown);
      [apply leaves_waitForTag; reflexivity|apply waitForTag_ends]. }
  intros tag s6 [_ Hv6]. unfold shown in Hv6. simpl in Hv6.
  injection Hv6 as Hc6 Hl6 Hmb6 Hbuf6.
  destruct tag; cbv beta iota delta [negb];
    [|left; simpl; congruence].
  eapply ensures_step; [apply get_run|].
  eapply ensures_step; [apply sendMessageLength_run|].
  cbv beta iota delta [negb].
  eapply ensures_bind.
  { apply (ensures_leaves shown);
      [apply leaves_receiveParameters; reflexivity
      |apply receiveParameters_ends]. }
  intros params s9 [(_ & _ & Hrange) Hv9]. unfold shown in Hv9. simpl in Hv9.
  injection Hv9 as Hc9 Hl9 Hmb9 Hbuf9.
  destruct params; cbv beta iota delta [negb];
    [|left; simpl; congruence].
  destruct (Hrange eq_refl) as [HK HN].
  eapply ensures_step; [apply get_run|].
  rewrite Hman.
  eapply ensures_bind.
  { apply sendMessageData_done; try assumption; try lia.
    rewrite Hmb6, Hbuf9, Hbuf6. exact Hroom. }
  intros done s11 [HK11 Hv11]. unfold shown in Hv11.
  injection Hv11 as HKeq HNeq Hc11 Hl11 Hmb11 Hbuf11.
  destruct done; cbv beta iota delta [negb];
    [|left; simpl; congruence].
  eapply ensures_bind; [apply printBytes_shows|].
  intros _ s12 [Hfit12 ->].
  eapply ensures_step; [apply totalEncodedBytes_value; simpl; lia|].
  eapply ensures_step; [apply get_run|].
  eapply ensures_weaken; [apply printBytes_shows|].
  intros _ s' [Hfit' ->]. right.
  eexists _, _. split.
  - simpl. rewrite <- app_assoc, Hflag. simpl.
    rewrite Hc11, Hc9, Hc6. simpl in Hv4.
    injection Hv4 as -> _. injection Hv3 as -> _. reflexivity.
  - simpl. intros HNpos Hbitspos.
    rewrite showLastResults_run; simpl; try lia.
    + f_equal. f_equal. rewrite <- app_assoc. simpl.
      rewrite Hl11, Hl9, Hl6. simpl in Hv4.
      injection Hv4 as _ ->. injection Hv3 as _ ->.
      rewrite Hmb11, Hbuf11, Hmb9, Hflag, <- !app_assoc. reflexivity.
    + rewrite Hmb11, Hbuf11, Hmb9. exact Hfit12.
    + rewrite Hmb11, Hmb9. exact Hfit'.
Qed.

Lemma redisplay_repeats_completion_witness :
  ensures (handleEncoding INPUT_TEXT (typed "A"))
    (initial_state 0
       (queued 0 [xde; xad; xc0; xde; x00; x08; x00; x10; x01; x02]))
    (fun _ s' =>
       console s' = [] \/
       exists message encoded,
         console s' = [] ++
                      [PrintedBytes message (InputMode_eqb INPUT_TEXT INPUT_HEX);
                       PrintedBytes encoded true] /\
         (0 < N s' -> 0 < message_bits s' ->
          showLastResults s' =
            Ok tt (set_console s'
                     (console s' ++
                      [PrintedBytes message
                         (InputMode_eqb INPUT_TEXT INPUT_HEX);
                       PrintedBytes encoded true])))).
Proof.
  apply (redisplay_repeats_completion INPUT_TEXT (typed "A")
           (initial_state 0
              (queued 0 [xde; xad; xc0; xde; x00; x08; x00; x10; x01; x02]))).
  discriminate.
Defined.

(** ** A device that answers in time *)

(** The bytes of a block's reply that are there when the loop comes to them
    are read one a millisecond. *)
Lemma receive_block_loop_reads (block N_bytes : Z) (cs : list (Z * byte)) :
  forall (fuel : nat) (t0 r : Z) (s : State) (rest : list (Z * byte)),
    rx s = cs ++ rest ->
    on_time (clock s) cs ->
    0 <= r -> r + Z.of_nat (length cs) = N_bytes -> N_bytes < 65536 ->
    0 <= clock s - t0 ->
    clock s - t0 + Z.of_nat (length cs) <= 3000 ->
    (length cs <= fuel)%nat ->
    0 <= block * N_bytes + r ->
    block * N_bytes + N_bytes <= Z.of_nat (length (encoded_buffer s)) ->
    receive_block_loop fuel block N_bytes (wrap32 t0) r s =
      Ok N_bytes
         (set_clock
            (set_encoded_buffer (set_rx s rest)
               (list_inserts (Z.to_nat (block * N_bytes + r)) (bytes_of cs)
                             (encoded_buffer s)))
            (clock s + Z.of_nat (length cs))).
Proof.
  induction cs as [|[t b] cs IH];
    intros fuel t0 r s rest Hrx Htime Hr0 Hr HN Ht0 Hend Hfuel Hidx Hroom.
  - simpl in Hr, Hrx. rewrite receive_block_loop_done by lia.
    assert (r = N_bytes) as -> by lia. f_equal.
    destruct s; unfold set_clock, set_encoded_buffer, set_rx; simpl in *.
    subst. f_equal. lia.
  - destruct fuel as [|fuel]; [simpl in Hfuel; lia|].
    cbn [length] in Hend, Hfuel, Hr. rewrite Nat2Z.inj_succ in Hend, Hr.
    simpl in Hrx, Htime. destruct Htime as [Ht Htime].
    rewrite receive_block_loop_S by (rewrite ?elapsed_clock; lia).
    rewrite Hrx. cbn [arrived].
    destruct (Z.leb_spec t (clock s)); [|lia].
    pose proof (arrived_nonneg (clock s) (cs ++ rest)).
    destruct (Z.eqb_spec (1 + arrived (clock s) (cs ++ rest)) 0); [lia|].
    rewrite (Serial2_read_head s t b (cs ++ rest) Hrx) by assumption.
    rewrite u8_Z_of_byte.
    rewrite store_encoded_inside by (simpl; lia).
    unfold wrap16. rewrite Z.mod_small by lia.
    rewrite (IH fuel t0 (r + 1) _ rest);
      try (simpl; rewrite ?length_insert; lia); try reflexivity;
      try assumption.
    f_equal. cbn [length]. rewrite Nat2Z.inj_succ. simpl.
    replace (Z.to_nat (block * N_bytes + (r + 1)))
      with (S (Z.to_nat (block * N_bytes + r))) by lia.
    rewrite list_insert_inserts_lt by lia.
    destruct s; unfold set_clock, set_encoded_buffer, set_rx; simpl.
    f_equal. lia.
Qed.

Lemma transfer_block_completes (data : list byte)
    (messageBits K_bytes block : Z) (s : State)
    (reply rest : list (Z * byte)) :
  0 <= K_bytes -> 0 <= block ->
  block * K_bytes + K_bytes < 65536 ->
  bytes_for messageBits <= Z.of_nat (length data) ->
  rx s = reply ++ rest ->
  on_time (clock s + 10 * K_bytes) reply ->
  Z.of_nat (length reply) = wrap16 (bytes_for (N s)) ->
  Z.of_nat (length reply) <= 3000 ->
  block * Z.of_nat (length reply) + Z.of_nat (length reply)
    <= Z.of_nat (length (encoded_buffer s)) ->
  exists s',
    transfer_block data messageBits K_bytes block s = Ok true s' /\
    transferred s s' (block_payload data messageBits K_bytes block)
                (block * Z.of_nat (length reply)) reply /\
    rx s' = rest /\
    clock s' = clock s + 10 * K_bytes + Z.of_nat (length reply).
Proof.
  intros HK Hblock Hfit Hlen Hrx Htime HNb Hshort Hroom.
  unfold transfer_block.
  erewrite bind_ok
    by (apply send_block_loop_run; try assumption; try lia).
  rewrite Z.sub_0_r. fold (block_payload data messageBits K_bytes block).
  erewrite bind_ok by apply get_run. simpl N. rewrite <- HNb.
  erewrite bind_ok by reflexivity.
  erewrite bind_ok.
  2:{ apply (receive_block_loop_reads block (Z.of_nat (length reply)) reply
               _ _ 0 _ rest); simpl; try lia; assumption. }
  destruct (Z.ltb_spec (Z.of_nat (length reply)) (Z.of_nat (length reply)));
    [lia|].
  eexists. split; [reflexivity|]. simpl.
  split; [|split; [reflexivity|lia]].
  split; [exact Hrx|]. simpl. rewrite Z.add_0_r.
  destruct s; unfold set_clock, set_encoded_buffer, set_rx, set_tx; simpl.
  reflexivity.
Qed.

Lemma sendMessageData_loop_completes (data : list byte)
    (messageBits K_bytes C N_bytes : Z) (replies : list (list (Z * byte))) :
  forall (fuel : nat) (block : Z) (s : State) (rest : list (Z * byte)),
    0 <= K_bytes -> 0 <= block -> C * K_bytes < 65536 -> C < 65536 ->
    bytes_for messageBits <= Z.of_nat (length data) ->
    block + Z.of_nat (length replies) = C ->
    (length replies <= fuel)%nat ->
    rx s = concat replies ++ rest ->
    Forall (fun reply => Z.of_nat (length reply) = N_bytes) replies ->
    N_bytes = wrap16 (bytes_for (N s)) -> N_bytes <= 3000 ->
    blocks_on_time (clock s) K_bytes replies ->
    C * N_bytes <= Z.of_nat (length (encoded_buffer s)) ->
    exists s',
      sendMessageData_loop fuel data messageBits K_bytes C block s
        = Ok true s' /\
      transferred s s'
        (payloads data messageBits K_bytes block (Z.of_nat (length replies)))
        (block * N_bytes) (concat replies) /\
      rx s' = rest /\
      clock s' = clock s
                 + Z.of_nat (length replies) * (10 * K_bytes + N_bytes).
Proof.
  induction replies as [|reply replies IH];
    intros fuel block s rest HK Hblock Hfit HC Hlen Hcount Hfuel Hrx Hall
           HN Hshort Htime Hroom.
  - simpl in Hcount, Hrx. rewrite sendMessageData_loop_done by lia.
    exists s. split; [reflexivity|].
    split; [apply (transferred_first _ _ _ 0), transferred_nothing|].
    split; [exact Hrx|simpl; lia].
  - destruct fuel as [|fuel]; [simpl in Hfuel; lia|].
    cbn [length] in Hcount, Hfuel. rewrite Nat2Z.inj_succ in Hcount.
    apply Forall_cons in Hall as [Hreply Hall].
    simpl in Hrx, Htime. destruct Htime as [Htime Hnext].
    assert (HNb : 0 <= N_bytes) by lia.
    rewrite sendMessageData_loop_S by lia.
    destruct (transfer_block_completes data messageBits K_bytes block s
                reply (concat replies ++ rest))
      as (s1 & Hrun & Htr & Hrx1 & Hclock1);
      try assumption; try lia; try nia.
    { rewrite Hrx. now rewrite app_assoc. }
    rewrite Hrun. unfold wrap16. rewrite Z.mod_small by lia.
    pose proof (transferred_frame _ _ _ _ _ Htr)
      as (_ & _ & HN1 & _ & _ & _ & _ & _ & Henc1).
    destruct (IH fuel (block + 1) s1 rest)
      as (s' & Hrun' & Htr' & Hrx' & Hclock');
      try assumption; try lia.
    { rewrite HN1. exact HN. }
    { rewrite Hclock1. exact Hnext. }
    exists s'. split; [exact Hrun'|].
    split.
    + cbn [length concat]. rewrite Nat2Z.inj_succ.
      rewrite payloads_cons by lia.
      replace (Z.succ (Z.of_nat (length replies)) - 1)
        with (Z.of_nat (length replies)) by lia.
      apply (transferred_trans s s1 s'); [nia|..].
      * rewrite <- Hreply. exact Htr.
      * replace (block * N_bytes + Z.of_nat (length reply))
          with ((block + 1) * N_bytes) by lia.
        exact Htr'.
    + split; [exact Hrx'|].
      cbn [length]. rewrite Nat2Z.inj_succ. lia.
Qed.

Lemma sendMessageData_completes (data : list byte)
    (messageBits calculationBits : Z) (s : State)
    (replies : list (list (Z * byte))) (rest : list (Z * byte)) :
  0 < K s < 65536 -> 0 <= N s < 65536 ->
  0 <= messageBits < 65536 -> 0 <= calculationBits < 65536 ->
  bytes_for messageBits <= Z.of_nat (length data) ->
  let bits := if 0 <? calculationBits then calculationBits else messageBits in
  let C := (bits + K s - 1) ÷ K s in
  rx s = concat replies ++ rest ->
  Z.of_nat (length replies) = C ->
  Forall (fun reply => Z.of_nat (length reply) = bytes_for (N s)) replies ->
  blocks_on_time (clock s) (bytes_for (K s)) replies ->
  bytes_for (N s) <= 3000 ->
  C * bytes_for (N s) <= Z.of_nat (length (encoded_buffer s)) ->
  exists s',
    sendMessageData data messageBits calculationBits s = Ok true s' /\
    transferred s s' (payloads data messageBits (bytes_for (K s)) 0 C) 0
                (concat replies) /\
    rx s' = rest /\
    clock s' = clock s + C * (10 * bytes_for (K s) + bytes_for (N s)).
Proof.
  intros HK HN Hmb Hcb Hlen bits C Hrx Hcount Hall Htime Hshort Hroom.
  assert (Hbits : 0 <= bits < 65536) by (subst bits; destruct (0 <? _); lia).
  pose proof (blocks_range bits (K s) ltac:(lia) Hbits) as HC.
  pose proof (bytes_for_range (K s) ltac:(lia)) as HKb.
  pose proof (bytes_for_range (N s) ltac:(lia)) as HNb.
  pose proof (block_index_fits bits (K s) HK Hbits) as Hfit.
  rewrite sendMessageData_unfold by lia.
  fold bits. fold C.
  unfold wrap16 at 1 2. rewrite !Z.mod_small by lia.
  destruct (sendMessageData_loop_completes data messageBits
              (bytes_for (K s)) C (bytes_for (N s)) replies
              (Z.to_nat 65536) 0 s rest)
    as (s' & Hrun & Htr & Hrx' & Hclock);
    try assumption; try lia.
  { unfold wrap16. rewrite Z.mod_small; lia. }
  exists s'. split; [exact Hrun|].
  rewrite Hcount in Htr, Hclock. rewrite Z.mul_0_l in Htr.
  split; [exact Htr|]. split; [exact Hrx'|exact Hclock].
Qed.

Lemma length_concat_replies (replies : list (list (Z * byte))) (n : Z) :
  Forall (fun reply => Z.of_nat (length reply) = n) replies ->
  Z.of_nat (length (concat replies)) = Z.of_nat (length replies) * n.
Proof.
  induction 1 as [|reply replies Hreply _ IH]; [reflexivity|].
  cbn [concat length]. rewrite length_app. lia.
Qed.

Lemma transferred_result (s s' : State) (sent : list byte)
    (cs : list (Z * byte)) :
  transferred s s' sent 0 cs ->
  (length cs <= length (encoded_buffer s))%nat ->
  encoded_buffer s' = overwritten (bytes_of cs) (encoded_buffer s).
Proof.
  intros [_ ->] Hlen. simpl.
  apply overwritten_inserts. unfold bytes_of. rewrite length_map. exact Hlen.
Qed.

(** X15.  A device that answers every block in time: when the reply of
    each of the C blocks, ceil(N / 8) bytes, is there by the time the
    client reads it, a block's reply is at most 3000 bytes and the C replies
    fit [encoded_buffer], [sendMessageData] returns [true] after
    C * (10 * ceil(K / 8) + ceil(N / 8)) ms; it has written the C blocks of
    the padded message, read the C replies and nothing after them, and the
    replies are the first bytes of [encoded_buffer]. *)
Theorem sendMessageData_completes_in_time (data : list byte)
    (messageBits calculationBits : Z) (s : State)
    (replies : list (list (Z * byte))) (rest : list (Z * byte)) :
  0 < K s < 65536 -> 0 <= N s < 65536 ->
  0 <= messageBits < 65536 -> 0 <= calculationBits < 65536 ->
  bytes_for messageBits <= Z.of_nat (length data) ->
  let bits := if 0 <? calculationBits then calculationBits else messageBits in
  let C := (bits + K s - 1) ÷ K s in
  rx s = concat replies ++ rest ->
  Z.of_nat (length replies) = C ->
  Forall (fun reply => Z.of_nat (length reply) = bytes_for (N s)) replies ->
  blocks_on_time (clock s) (bytes_for (K s)) replies ->
  bytes_for (N s) <= 3000 ->
  C * bytes_for (N s) <= Z.of_nat (length (encoded_buffer s)) ->
  exists s',
    sendMessageData data messageBits calculationBits s = Ok true s' /\
    tx s' = tx s ++ payloads data messageBits (bytes_for (K s)) 0 C /\
    rx s' = rest /\
    take (Z.to_nat (C * bytes_for (N s))) (encoded_buffer s')
      = bytes_of (concat replies) /\
    clock s' = clock s + C * (10 * bytes_for (K s) + bytes_for (N s)).
Proof.
  intros HK HN Hmb Hcb Hlen bits C Hrx Hcount Hall Htime Hshort Hroom.
  destruct (sendMessageData_completes data messageBits calculationBits s
              replies rest HK HN Hmb Hcb Hlen Hrx Hcount Hall Htime Hshort
              Hroom)
    as (s' & Hrun & Htr & Hrx' & Hclock).
  pose proof (length_concat_replies replies _ Hall) as Htotal.
  fold bits in Htotal. rewrite Hcount in Htotal. fold C in Htotal.
  exists s'. split; [exact Hrun|].
  split; [apply (transferred_frame _ _ _ _ _ Htr)|].
  split; [exact Hrx'|]. split; [|exact Hclock].
  rewrite (transferred_result _ _ _ _ Htr) by lia.
  rewrite <- Htotal, Nat2Z.id.
  replace (length (concat replies)) with (length (bytes_of (concat replies)))
    by apply length_map.
  apply overwritten_take.
Qed.

Lemma sendMessageData_completes_in_time_witness :
  exists s',
    sendMessageData [x41; x42] 16 0
      (set_N (set_K (initial_state 0
                       (spaced 10 [x01; x02] ++ spaced 22 [x03; x04]
                        ++ queued 0 [x05])) 8) 16)
      = Ok true s' /\
    tx s' = [] ++ payloads [x41; x42] 16 (bytes_for 8) 0 ((16 + 8 - 1) ÷ 8) /\
    rx s' = queued 0 [x05] /\
    take (Z.to_nat ((16 + 8 - 1) ÷ 8 * bytes_for 16))
         (encoded_buffer s')
      = bytes_of (concat [spaced 10 [x01; x02]; spaced 22 [x03; x04]]) /\
    clock s' = 0 + (16 + 8 - 1) ÷ 8 * (10 * bytes_for 8 + bytes_for 16).
Proof.
  apply (sendMessageData_completes_in_time [x41; x42] 16 0
           (set_N (set_K (initial_state 0
                            (spaced 10 [x01; x02] ++ spaced 22 [x03; x04]
                             ++ queued 0 [x05])) 8) 16)
           [spaced 10 [x01; x02]; spaced 22 [x03; x04]] (queued 0 [x05])
           ltac:(simpl; lia) ltac:(simpl; lia) ltac:(lia) ltac:(lia)
           ltac:(vm_compute; discriminate)).
  - reflexivity.
  - reflexivity.
  - repeat constructor.
  - vm_compute. repeat split; discriminate.
  - vm_compute. discriminate.
  - vm_compute. discriminate.
Defined.

(** ** A whole session *)

Lemma receiveParameters_prompt (s : State) (tk tl tn tm : Z)
    (k_hi k_lo n_hi n_lo : byte) (rest : list (Z * byte)) :
  rx s = (tk, k_hi) :: (tl, k_lo) :: (tn, n_hi) :: (tm, n_lo) :: rest ->
  tk <= clock s -> tl <= clock s -> tn <= clock s -> tm <= clock s ->
  receiveParameters s =
    Ok true (set_N (set_K (set_rx s rest)
                          (256 * Z_of_byte k_hi + Z_of_byte k_lo))
                   (256 * Z_of_byte n_hi + Z_of_byte n_lo)).
Proof.
  intros Hrx Hk Hl Hn Hm. unfold receiveParameters, bind, millis.
  change (Z.to_nat 300) with (S (Z.to_nat 299)).
  apply (receiveParameters_loop_read _ _ _ tk tl tn tm).
  - rewrite elapsed_clock; lia.
  - rewrite Hrx. simpl.
    destruct (Z.leb_spec tk (clock s)); [|lia].
    destruct (Z.leb_spec tl (clock s)); [|lia].
    destruct (Z.leb_spec tn (clock s)); [|lia].
    destruct (Z.leb_spec tm (clock s)); [|lia].
    pose proof (arrived_nonneg (clock s) rest). lia.
  - exact Hrx.
Qed.

Lemma padded_byte_overwritten (bytes buffer : list byte) (index : Z) :
  0 <= index ->
  padded_byte (overwritten bytes buffer) (8 * Z.of_nat (length bytes)) index
    = padded_byte bytes (8 * Z.of_nat (length bytes)) index.
Proof.
  intros Hi. unfold padded_byte.
  rewrite (Z.mul_comm 8), bytes_for_whole by lia.
  destruct (Z.ltb_spec index (Z.of_nat (length bytes))); [|reflexivity].
  unfold overwritten. apply app_nth1. lia.
Qed.

Lemma payloads_overwritten (bytes buffer : list byte) (K_bytes n : Z) :
  0 <= K_bytes ->
  payloads (overwritten bytes buffer) (8 * Z.of_nat (length bytes)) K_bytes 0 n
    = payloads bytes (8 * Z.of_nat (length bytes)) K_bytes 0 n.
Proof.
  intros HK. unfold payloads. f_equal.
  apply map_ext_in. intros block Hblock.
  apply list_elem_of_In, elem_of_seqZ in Hblock.
  unfold block_payload. apply map_ext_in. intros i Hi.
  apply list_elem_of_In, elem_of_seqZ in Hi.
  apply padded_byte_overwritten. nia.
Qed.

(** A session with a device that does its part, in both readings of the
    calculation length: the blocks sent are counted from the typed length
    when it is positive and from the message otherwise, the bytes shown from
    the typed length in mode 3 and from the message otherwise. *)
Lemma handleEncoding_session (mode : InputMode) (ui : UserInput) (s : State)
    (tag : list (Z * byte)) (noise : list byte) (tk tl tn tm : Z)
    (k_hi k_lo n_hi n_lo : byte) (replies : list (list (Z * byte)))
    (rest : list (Z * byte)) :
  let message := message_of mode (userInput ui) in
  let bits := announced_bits mode ui in
  let used := if 0 <? (if InputMode_eqb mode INPUT_HEX_MANUAL
                       then wrap16 (lengthInput_toInt ui) else 0)
              then bits else 8 * Z.of_nat (length message) in
  let K_now := 256 * Z_of_byte k_hi + Z_of_byte k_lo in
  let N_now := 256 * Z_of_byte n_hi + Z_of_byte n_lo in
  let C := (used + K_now - 1) ÷ K_now in
  let synced := clock s + typing_time mode ui + Z.of_nat (length tag) - 1 in
  strlen (userInput ui) <> 0 ->
  1024 <= Z.of_nat (length (message_buffer s)) ->
  rx s = tag ++ [(tk, k_hi); (tl, k_lo); (tn, n_hi); (tm, n_lo)]
             ++ concat replies ++ rest ->
  bytes_of tag = noise ++ TAG_BYTES ->
  Forall (fun b => b <> xde) noise ->
  on_time (clock s + typing_time mode ui) tag ->
  Z.of_nat (length tag) <= 5000 ->
  tk <= synced + 20 -> tl <= synced + 20 ->
  tn <= synced + 20 -> tm <= synced + 20 ->
  0 < K_now ->
  Z.of_nat (length replies) = C ->
  Forall (fun reply => Z.of_nat (length reply) = bytes_for N_now) replies ->
  blocks_on_time (synced + 20) (bytes_for K_now) replies ->
  bytes_for N_now <= 3000 ->
  C * bytes_for N_now <= Z.of_nat (length (encoded_buffer s)) ->
  wrap16 ((bits + K_now - 1) ÷ K_now * bytes_for N_now)
    <= Z.of_nat (length (encoded_buffer s)) ->
  exists s',
    handleEncoding mode ui s = Ok tt s' /\
    tx s' = tx s ++ [u8 (Z.shiftr bits 8); u8 (Z.land bits 255)]
            ++ payloads message (8 * Z.of_nat (length message))
                        (bytes_for K_now) 0 C /\
    K s' = K_now /\ N s' = N_now /\
    rx s' = rest /\
    encoded_buffer s'
      = overwritten (bytes_of (concat replies)) (encoded_buffer s) /\
    console s' = console s ++
                 [PrintedBytes message (negb (InputMode_eqb mode INPUT_TEXT));
                  PrintedBytes
                    (take (Z.to_nat (wrap16 ((bits + K_now - 1) ÷ K_now
                                             * bytes_for N_now)))
                          (encoded_buffer s'))
                    true].
Proof.
  intros message bits used K_now N_now C synced Hline Hbuf Hrx Htag
         Hnoise Htime Hfew Hk Hl Hn Hm HK Hcount Hall Hblocks Hshort Hroom
         Hshown.
  pose proof (message_of_length mode (userInput ui)) as Hlen0.
  pose proof Hlen0 as Hlen. fold message in Hlen.
  pose proof (announced_bits_range mode ui) as Hbits. fold bits in Hbits.
  pose proof (Z_of_byte_range k_hi). pose proof (Z_of_byte_range k_lo).
  pose proof (Z_of_byte_range n_hi). pose proof (Z_of_byte_range n_lo).
  assert (Hannounced :
            (if InputMode_eqb mode INPUT_HEX_MANUAL
             then wrap16 (lengthInput_toInt ui)
             else 8 * Z.of_nat (length message)) = bits)
    by reflexivity.
  to_sync mode ui s.
  (* the tag *)
  assert (Hsync : waitForTag (before_sync mode ui s) =
                  Ok true (set_clock
                             (set_rx (before_sync mode ui s)
                                ([(tk, k_hi); (tl, k_lo); (tn, n_hi);
                                  (tm, n_lo)] ++ concat replies ++ rest))
                             synced)).
  { unfold waitForTag, bind, millis.
    rewrite (waitForTag_loop_finds tag _ _ _ _
               ([(tk, k_hi); (tl, k_lo); (tn, n_hi); (tm, n_lo)]
                ++ concat replies ++ rest)); try lia.
    - reflexivity.
    - exact Hrx.
    - exact Htime.
    - rewrite Htag. now apply hits_after_noise. }
  step_by ltac:(exact Hsync).
  cbv beta iota delta [negb].
  (* the length *)
  step_by ltac:(apply get_run).
  step_by ltac:(apply sendMessageLength_run).
  cbv beta iota delta [negb].
  (* the parameters *)
  step_by ltac:(apply (receiveParameters_prompt _ tk tl tn tm k_hi k_lo
                         n_hi n_lo (concat replies ++ rest));
                [reflexivity|simpl; lia..]).
  cbv beta iota delta [negb].
  fold K_now N_now.
  (* the blocks *)
  step_by ltac:(apply get_run).
  simpl message_bits. simpl message_buffer. fold message.
  rewrite !Hannounced.
  set (calc := if InputMode_eqb mode INPUT_HEX_MANUAL
               then wrap16 (lengthInput_toInt ui) else 0) in *.
  assert (Hcalc : 0 <= calc < 65536).
  { subst calc. destruct (InputMode_eqb mode INPUT_HEX_MANUAL); [|lia].
    apply Z.mod_pos_bound. lia. }
  assert (Hused : (if 0 <? calc then calc
                   else 8 * Z.of_nat (length message)) = used).
  { subst used calc bits. unfold announced_bits. fold message.
    destruct (InputMode_eqb mode INPUT_HEX_MANUAL); reflexivity. }
  lazymatch goal with
  | |- context [bind (sendMessageData ?data ?mb ?cb) _ ?st] =>
      destruct (sendMessageData_completes data mb cb st replies rest)
        as (s11 & Hrun & Htr & Hrx11 & _)
  end; try (simpl; lia); try reflexivity.
  { simpl. rewrite (Z.mul_comm 8), bytes_for_whole by lia.
    rewrite overwritten_length; lia. }
  { simpl K. rewrite Hused. exact Hcount. }
  { exact Hall. }
  { exact Hblocks. }
  { simpl K. simpl N. rewrite Hused. exact Hroom. }
  step_by ltac:(exact Hrun).
  cbv beta iota delta [negb].
  simpl K in Htr. simpl N in Htr. rewrite Hused in Htr. fold C in Htr.
  pose proof (transferred_frame _ _ _ _ _ Htr)
    as (Htx & HK11 & HN11 & _ & _ & Hc11 & _ & _ & Hlen11).
  simpl in Htx, HK11, HN11, Hc11, Hlen11.
  pose proof (length_concat_replies replies _ Hall) as Htotal.
  rewrite Hcount in Htotal.
  (* the results *)
  step_by ltac:(apply printBytes_run;
                rewrite (Z.mul_comm 8), bytes_for_whole by lia;
                rewrite overwritten_length; lia).
  step_by ltac:(apply totalEncodedBytes_value; simpl; lia).
  step_by ltac:(apply get_run).
  simpl K. simpl N. simpl encoded_buffer. rewrite HK11, HN11.
  rewrite printBytes_run by (simpl; lia).
  eexists. split; [reflexivity|].
  simpl.
  split.
  { rewrite Htx, <- app_assoc. simpl.
    rewrite payloads_overwritten by (apply bytes_for_range; lia).
    reflexivity. }
  split; [exact HK11|]. split; [exact HN11|]. split; [exact Hrx11|].
  split.
  { apply (transferred_result _ _ _ _ Htr). simpl. lia. }
  rewrite Hc11, <- app_assoc. simpl. do 3 f_equal.
  f_equal. rewrite (Z.mul_comm 8), bytes_for_whole by lia.
  rewrite Nat2Z.id. apply overwritten_take.
Qed.

(** X16.  A whole session with a device that does its part: the tag comes
    in, after noise without DE or not; the four parameter bytes are there
    when the length has been sent; the reply of every block is there when
    the client reads it.  Then [handleEncoding] goes through all phases: it
    writes the two bytes of the length and the C blocks of the zero-padded
    message, C = ceil(bits / K), and nothing else; it stores K and N as
    received; it reads the device's bytes up to the last reply and no
    further; and it prints the message and then the encoded bytes exactly
    as the device sent them. *)
Theorem session_completes (mode : InputMode) (ui : UserInput) (s : State)
    (tag : list (Z * byte)) (noise : list byte) (tk tl tn tm : Z)
    (k_hi k_lo n_hi n_lo : byte) (replies : list (list (Z * byte)))
    (rest : list (Z * byte)) :
  let message := message_of mode (userInput ui) in
  let bits := announced_bits mode ui in
  let K_now := 256 * Z_of_byte k_hi + Z_of_byte k_lo in
  let N_now := 256 * Z_of_byte n_hi + Z_of_byte n_lo in
  let C := (bits + K_now - 1) ÷ K_now in
  let synced := clock s + typing_time mode ui + Z.of_nat (length tag) - 1 in
  strlen (userInput ui) <> 0 ->
  1024 <= Z.of_nat (length (message_buffer s)) ->
  Z.of_nat (length (encoded_buffer s)) < 65536 ->
  (mode = INPUT_HEX_MANUAL -> 0 < bits) ->
  rx s = tag ++ [(tk, k_hi); (tl, k_lo); (tn, n_hi); (tm, n_lo)]
             ++ concat replies ++ rest ->
  bytes_of tag = noise ++ TAG_BYTES ->
  Forall (fun b => b <> xde) noise ->
  on_time (clock s + typing_time mode ui) tag ->
  Z.of_nat (length tag) <= 5000 ->
  tk <= synced + 20 -> tl <= synced + 20 ->
  tn <= synced + 20 -> tm <= synced + 20 ->
  0 < K_now ->
  Z.of_nat (length replies) = C ->
  Forall (fun reply => Z.of_nat (length reply) = bytes_for N_now) replies ->
  blocks_on_time (synced + 20) (bytes_for K_now) replies ->
  bytes_for N_now <= 3000 ->
  C * bytes_for N_now <= Z.of_nat (length (encoded_buffer s)) ->
  exists s' hi lo,
    handleEncoding mode ui s = Ok tt s' /\
    256 * Z_of_byte hi + Z_of_byte lo = bits /\
    tx s' = tx s ++ [hi; lo]
            ++ payloads message (8 * Z.of_nat (length message))
                        (bytes_for K_now) 0 C /\
    K s' = K_now /\ N s' = N_now /\
    rx s' = rest /\
    console s' = console s ++
                 [PrintedBytes message (negb (InputMode_eqb mode INPUT_TEXT));
                  PrintedBytes (bytes_of (concat replies)) true].
Proof.
  intros message bits K_now N_now C synced Hline Hbuf Henc Hmanual Hrx Htag
         Hnoise Htime Hfew Hk Hl Hn Hm HK Hcount Hall Hblocks Hshort Hroom.
  pose proof (announced_bits_range mode ui) as Hbits. fold bits in Hbits.
  pose proof (message_of_length mode (userInput ui)) as Hlen.
  fold message in Hlen.
  assert (Hused : (if 0 <? (if InputMode_eqb mode INPUT_HEX_MANUAL
                            then wrap16 (lengthInput_toInt ui) else 0)
                   then bits else 8 * Z.of_nat (length message)) = bits).
  { destruct mode; try reflexivity.
    specialize (Hmanual eq_refl). subst bits.
    unfold announced_bits in Hmanual |- *. cbn [InputMode_eqb] in Hmanual |- *.
    destruct (Z.ltb_spec 0 (wrap16 (lengthInput_toInt ui)));
      [reflexivity|lia]. }
  pose proof (length_concat_replies replies _ Hall) as Htotal.
  rewrite Hcount in Htotal.
  assert (HC : 0 <= C * bytes_for N_now < 65536) by lia.
  destruct (handleEncoding_session mode ui s tag noise tk tl tn tm
              k_hi k_lo n_hi n_lo replies rest)
    as (s' & Hrun & Htx & HKs & HNs & Hrxs & Henc' & Hcon);
    try assumption; fold message bits; rewrite ?Hused; fold K_now N_now C;
    try assumption.
  { unfold wrap16. rewrite Z.mod_small; lia. }
  exists s', (u8 (Z.shiftr bits 8)), (u8 (Z.land bits 255)).
  split; [exact Hrun|].
  split; [apply length_bytes_value; exact Hbits|].
  fold message bits K_now N_now in Htx, Hcon. rewrite Hused in Htx.
  fold C in Htx, Hcon.
  split; [exact Htx|].
  split; [exact HKs|]. split; [exact HNs|]. split; [exact Hrxs|].
  rewrite Hcon. do 3 f_equal. f_equal.
  unfold wrap16. rewrite Z.mod_small by lia.
  rewrite Henc', <- Htotal, Nat2Z.id.
  replace (length (concat replies))
    with (length (bytes_of (concat replies))) by apply length_map.
  apply overwritten_take.
Qed.

(** The theorem for the text "A" and a device that answers K = 8, N = 16
    and the two encoded bytes 01 02. *)
Lemma session_completes_witness :
  exists s' hi lo,
    handleEncoding INPUT_TEXT (typed "A")
      (initial_state 0
         (queued 0 [xde; xad; xc0; xde; x00; x08; x00; x10; x01; x02]))
      = Ok tt s' /\
    256 * Z_of_byte hi + Z_of_byte lo = 8 /\
    tx s' = [] ++ [hi; lo] ++ payloads ["A"%byte] 8 1 0 1 /\
    K s' = 8 /\ N s' = 16 /\
    rx s' = [] /\
    console s' = [] ++ [PrintedBytes ["A"%byte] false;
                        PrintedBytes [x01; x02] true].
Proof.
  apply (session_completes INPUT_TEXT (typed "A")
           (initial_state 0
              (queued 0 [xde; xad; xc0; xde; x00; x08; x00; x10; x01; x02]))
           (queued 0 [xde; xad; xc0; xde]) [] 0 0 0 0 x00 x08 x00 x10
           [queued 0 [x01; x02]] []).
  - vm_compute. discriminate.
  - vm_compute. discriminate.
  - vm_compute. reflexivity.
  - discriminate.
  - reflexivity.
  - reflexivity.
  - constructor.
  - vm_compute. repeat split; discriminate.
  - vm_compute. discriminate.
  - vm_compute. discriminate.
  - vm_compute. discriminate.
  - vm_compute. discriminate.
  - vm_compute. discriminate.
  - vm_compute. reflexivity.
  - reflexivity.
  - repeat constructor.
  - vm_compute. repeat split; discriminate.
  - vm_compute. discriminate.
  - vm_compute. discriminate.
Defined.

(** X17.  Mode 3 with the length 0 (which is also what [toInt] makes of a
    line that is no number): the client announces 0 bits, but the length
    passed on as 0 is no override for [sendMessageData], which counts the
    blocks from the message, C = ceil(message_bits / K), sends them and
    stores the replies; the results then show the message and no encoded
    byte at all. *)
Theorem manual_length_zero_announces_nothing_sends_all (ui : UserInput)
    (s : State) (tag : list (Z * byte)) (noise : list byte) (tk tl tn tm : Z)
    (k_hi k_lo n_hi n_lo : byte) (replies : list (list (Z * byte)))
    (rest : list (Z * byte)) :
  let message := hex_bytes (userInput ui) in
  let K_now := 256 * Z_of_byte k_hi + Z_of_byte k_lo in
  let N_now := 256 * Z_of_byte n_hi + Z_of_byte n_lo in
  let C := (8 * Z.of_nat (length message) + K_now - 1) ÷ K_now in
  let synced := clock s + typing_time INPUT_HEX_MANUAL ui
                + Z.of_nat (length tag) - 1 in
  wrap16 (lengthInput_toInt ui) = 0 ->
  strlen (userInput ui) <> 0 ->
  1024 <= Z.of_nat (length (message_buffer s)) ->
  rx s = tag ++ [(tk, k_hi); (tl, k_lo); (tn, n_hi); (tm, n_lo)]
             ++ concat replies ++ rest ->
  bytes_of tag = noise ++ TAG_BYTES ->
  Forall (fun b => b <> xde) noise ->
  on_time (clock s + typing_time INPUT_HEX_MANUAL ui) tag ->
  Z.of_nat (length tag) <= 5000 ->
  tk <= synced + 20 -> tl <= synced + 20 ->
  tn <= synced + 20 -> tm <= synced + 20 ->
  0 < K_now ->
  Z.of_nat (length replies) = C ->
  Forall (fun reply => Z.of_nat (length reply) = bytes_for N_now) replies ->
  blocks_on_time (synced + 20) (bytes_for K_now) replies ->
  bytes_for N_now <= 3000 ->
  C * bytes_for N_now <= Z.of_nat (length (encoded_buffer s)) ->
  exists s',
    handleEncoding INPUT_HEX_MANUAL ui s = Ok tt s' /\
    tx s' = tx s ++ [x00; x00]
            ++ payloads message (8 * Z.of_nat (length message))
                        (bytes_for K_now) 0 C /\
    rx s' = rest /\
    encoded_buffer s'
      = overwritten (bytes_of (concat replies)) (encoded_buffer s) /\
    console s' = console s ++
                 [PrintedBytes message true; PrintedBytes [] true].
Proof.
  intros message K_now N_now C synced Hzero Hline Hbuf Hrx Htag
         Hnoise Htime Hfew Hk Hl Hn Hm HK Hcount Hall Hblocks Hshort Hroom.
  assert (Hbits : announced_bits INPUT_HEX_MANUAL ui = 0) by exact Hzero.
  assert (Hshown : (0 + K_now - 1) ÷ K_now = 0)
    by (apply Z.quot_small; lia).
  destruct (handleEncoding_session INPUT_HEX_MANUAL ui s tag noise
              tk tl tn tm k_hi k_lo n_hi n_lo replies rest)
    as (s' & Hrun & Htx & _ & _ & Hrxs & Henc' & Hcon);
    try assumption;
    cbn [InputMode_eqb]; rewrite ?Hzero, ?Hbits;
    change (0 <? 0) with false; cbv iota;
    change (message_of INPUT_HEX_MANUAL (userInput ui)) with message;
    fold K_now N_now; try assumption.
  { rewrite Hshown, Z.mul_0_l. change (wrap16 0) with 0. lia. }
  exists s'. split; [exact Hrun|].
  cbn [InputMode_eqb] in Htx, Hcon. rewrite Hzero in Htx.
  rewrite Hbits in Htx, Hcon.
  change (0 <? 0) with false in Htx. cbv iota in Htx.
  split; [exact Htx|]. split; [exact Hrxs|]. split; [exact Henc'|].
  rewrite Hcon. fold K_now. rewrite Hshown. reflexivity.
Qed.

Lemma manual_length_zero_announces_nothing_sends_all_witness :
  exists s',
    handleEncoding INPUT_HEX_MANUAL (mkUserInput 0 0 0 "AB")
      (initial_state 0
         (queued 0 [xde; xad; xc0; xde; x00; x08; x00; x10; x01; x02]))
      = Ok tt s' /\
    tx s' = [] ++ [x00; x00] ++ payloads [xab] 8 1 0 1 /\
    rx s' = [] /\
    encoded_buffer s'
      = overwritten [x01; x02] (encoded_buffer (initial_state 0 [])) /\
    console s' = [] ++ [PrintedBytes [xab] true; PrintedBytes [] true].
Proof.
  apply (manual_length_zero_announces_nothing_sends_all
           (mkUserInput 0 0 0 "AB")
           (initial_state 0
              (queued 0 [xde; xad; xc0; xde; x00; x08; x00; x10; x01; x02]))
           (queued 0 [xde; xad; xc0; xde]) [] 0 0 0 0 x00 x08 x00 x10
           [queued 0 [x01; x02]] []).
  - reflexivity.
  - vm_compute. discriminate.
  - vm_compute. discriminate.
  - reflexivity.
  - reflexivity.
  - constructor.
  - vm_compute. repeat split; discriminate.
  - vm_compute. discriminate.
  - vm_compute. discriminate.
  - vm_compute. discriminate.
  - vm_compute. discriminate.
  - vm_compute. discriminate.
  - vm_compute. reflexivity.
  - reflexivity.
  - repeat constructor.
  - vm_compute. repeat split; discriminate.
  - vm_compute. discriminate.
  - vm_compute. discriminate.
Defined.

(** ** What can go wrong, and what cannot *)

Lemma behaves_bind {A B} (c : M A) (k : A -> M B) (s : State)
    (Q : A -> State -> Prop) (R : B -> State -> Prop) :
  behaves c s Q ->
  (forall a s', Q a s' -> behaves (k a) s' R) ->
  behaves (bind c k) s R.
Proof.
  unfold behaves, bind. intros Hc Hk.
  destruct (c s) as [a s'|f s'|]; [|exact Hc|contradiction].
  exact (Hk a s' Hc).
Qed.

Lemma behaves_step {A B} (c : M A) (k : A -> M B) (s s' : State) (a : A)
    (R : B -> State -> Prop) :
  c s = Ok a s' -> behaves (k a) s' R -> behaves (bind c k) s R.
Proof. unfold behaves, bind. intros ->. exact (fun H => H). Qed.

Lemma behaves_ret {A} (a : A) (s : State) (Q : A -> State -> Prop) :
  Q a s -> behaves (ret a) s Q.
Proof. intros H. exact H. Qed.

Lemma behaves_weaken {A} (c : M A) (s : State) (Q Q' : A -> State -> Prop) :
  behaves c s Q -> (forall a s', Q a s' -> Q' a s') -> behaves c s Q'.
Proof.
  unfold behaves. intros Hc HQ.
  destruct (c s) as [a s'|f s'|]; auto.
Qed.

(** The part of the state [well_formed] looks at. *)
Lemma well_formed_shape (s s' : State) :
  (K s', N s', message_bits s', message_buffer s')
    = (K s, N s, message_bits s, message_buffer s) ->
  well_formed s -> well_formed s'.
Proof. unfold well_formed. intros [= -> -> -> ->]. exact (fun H => H). Qed.

Lemma well_formed_parameters (s s' : State) :
  (message_bits s', message_buffer s') = (message_bits s, message_buffer s) ->
  0 <= K s' < 65536 -> 0 <= N s' < 65536 ->
  well_formed s -> well_formed s'.
Proof.
  unfold well_formed. intros [= -> ->] HK HN (_ & _ & H).
  split; [exact HK|]. split; [exact HN|exact H].
Qed.

(** A state that is well formed again, with the message it had. *)
Lemma waitForTag_behaves (s : State) :
  well_formed s ->
  behaves waitForTag s
    (fun _ s' => well_formed s' /\ entered s' = entered s).
Proof.
  intros Hwf. unfold behaves.
  destruct (waitForTag_run s) as (r & s' & cs & -> & _ & -> & _).
  split; [|reflexivity].
  revert Hwf. apply well_formed_shape. reflexivity.
Qed.

Lemma receiveParameters_behaves (s : State) :
  well_formed s ->
  behaves receiveParameters s
    (fun _ s' => well_formed s' /\ entered s' = entered s).
Proof.
  intros Hwf. unfold behaves, receiveParameters, bind, millis.
  destruct (receiveParameters_loop_run (Z.to_nat 300) (clock s) s)
    as [Hno Hyes]; try lia.
  destruct (Z.lt_ge_cases (arrived (clock s + 2990) (rx s)) 4) as [Hfew|Hfour].
  - destruct Hno as (t' & -> & _).
    { intros i Hi Hlt.
      pose proof (arrived_mono (rx s) (clock s + 10 * i) (clock s + 2990)).
      lia. }
    split; [|reflexivity].
    revert Hwf. apply well_formed_shape. reflexivity.
  - destruct (Hyes 299)
      as (tk & k_hi & tl & k_lo & tn & n_hi & tm & n_lo & rest & t' &
          _ & -> & _); try lia.
    { replace (clock s + 10 * 299) with (clock s + 2990) by lia.
      assumption. }
    pose proof (Z_of_byte_range k_hi). pose proof (Z_of_byte_range k_lo).
    pose proof (Z_of_byte_range n_hi). pose proof (Z_of_byte_range n_lo).
    split; [|reflexivity].
    revert Hwf. apply well_formed_parameters; simpl; [reflexivity|lia..].
Qed.

Lemma sendMessageData_behaves (data : list byte)
    (messageBits calculationBits : Z) (s : State) :
  well_formed s ->
  0 <= messageBits < 65536 -> 0 <= calculationBits < 65536 ->
  bytes_for messageBits <= Z.of_nat (length data) ->
  behaves (sendMessageData data messageBits calculationBits) s
    (fun _ s' => well_formed s' /\ K s' <> 0 /\ entered s' = entered s).
Proof.
  intros Hwf Hmb Hcb Hlen.
  pose proof (leaves_sendMessageData
                (fun s => (K s, N s, message_bits s, message_buffer s))
                ltac:(reflexivity) ltac:(reflexivity) ltac:(reflexivity)
                ltac:(reflexivity) data messageBits calculationBits s)
    as Hview.
  pose proof (leaves_sendMessageData entered
                ltac:(reflexivity) ltac:(reflexivity) ltac:(reflexivity)
                ltac:(reflexivity) data messageBits calculationBits s)
    as Hentered.
  destruct Hwf as (HK & HN & Hrest). unfold behaves.
  destruct (Z.eq_dec (K s) 0) as [Hzero|Hpos].
  - unfold sendMessageData, bind, get, blocks_for. rewrite Hzero. simpl.
    split; [|left; reflexivity].
    unfold well_formed. rewrite Hzero. split; [lia|]. split; assumption.
  - pose proof (sendMessageData_run data messageBits calculationBits s
                  ltac:(lia) HN Hmb Hcb Hlen) as Hrun.
    cbv zeta in Hrun.
    destruct (sendMessageData data messageBits calculationBits s)
      as [ok s'|f s'|]; [| |exact Hrun].
    + split.
      * apply (well_formed_shape s s' Hview).
        split; [exact HK|]. split; assumption.
      * split; [|exact Hentered]. injection Hview as -> _ _ _. exact Hpos.
    + split.
      * apply (well_formed_shape s s' Hview).
        split; [exact HK|]. split; assumption.
      * destruct Hrun as (index & _ & -> & _). right. left. now exists index.
Qed.

Lemma printBytes_encoded_behaves (total : Z) (s : State) :
  well_formed s ->
  behaves (printBytes (encoded_buffer s) total true) s
    (fun _ s' => well_formed s').
Proof.
  intros Hwf. unfold behaves, printBytes.
  destruct (_ <=? _).
  - revert Hwf. apply well_formed_shape. reflexivity.
  - split; [exact Hwf|]. right. right. reflexivity.
Qed.

Lemma printBytes_message_run (asHex : bool) (s : State) :
  well_formed s ->
  printBytes (message_buffer s) (bytes_for (message_bits s)) asHex s =
    Ok tt (set_console s
             (console s ++
              [PrintedBytes (take (Z.to_nat (bytes_for (message_bits s)))
                                  (message_buffer s)) asHex])).
Proof.
  intros (_ & _ & _ & Hfit & Hlen). apply printBytes_run. lia.
Qed.

Lemma dump_behaves (bits : Z) (s : State) :
  well_formed s -> K s <> 0 ->
  behaves (let! total := totalEncodedBytes bits in
           let! encoded := get encoded_buffer in
           printBytes encoded total true) s
    (fun _ s' => well_formed s').
Proof.
  intros Hwf HK.
  eapply behaves_step; [apply totalEncodedBytes_value; exact HK|].
  eapply behaves_step; [apply get_run|].
  apply printBytes_encoded_behaves. exact Hwf.
Qed.

Lemma bits_of_bytes (bits : Z) :
  0 <= bits -> bytes_for bits <= MAX_MESSAGE_LENGTH -> bits < 65536.
Proof.
  unfold bytes_for, MAX_MESSAGE_LENGTH. intros Hpos Hfit.
  rewrite Z.quot_div_nonneg in Hfit by lia.
  pose proof (Z.div_mod (bits + 7) 8 ltac:(lia)).
  pose proof (Z.mod_pos_bound (bits + 7) 8 ltac:(lia)). lia.
Qed.

Lemma handleEncoding_behaves (mode : InputMode) (ui : UserInput) (s : State) :
  well_formed s ->
  behaves (handleEncoding mode ui) s (fun _ s' => well_formed s').
Proof.
  intros Hwf.
  pose proof (message_of_length mode (userInput ui)) as Hlen.
  assert (Hroom : (length (message_of mode (userInput ui))
                   <= length (message_buffer s))%nat)
    by (destruct Hwf as (_ & _ & _ & _ & Hbuf);
        unfold MAX_MESSAGE_LENGTH in Hbuf; lia).
  unfold handleEncoding.
  eapply behaves_step; [apply store_lastInputMode_run|].
  eapply behaves_step; [apply manual_wait|].
  eapply behaves_step; [apply delay_run|].
  destruct (strlen (userInput ui) =? 0).
  { apply behaves_ret. revert Hwf. apply well_formed_shape. reflexivity. }
  eapply behaves_step; [apply codec_run; exact Hroom|].
  eapply behaves_step; [apply store_message_bits_run|].
  match goal with
  | |- behaves _ ?st _ => assert (Hwf5 : well_formed st); [|generalize dependent st]
  end.
  { destruct Hwf as (HK & HN & _ & _ & Hbuf).
    split; [exact HK|]. split; [exact HN|]. simpl.
    rewrite (Z.mul_comm 8), bytes_for_whole by lia.
    rewrite overwritten_length by exact Hroom.
    unfold MAX_MESSAGE_LENGTH in *. lia. }
  intros s5 Hwf5.
  eapply behaves_bind; [apply (waitForTag_behaves s5 Hwf5)|].
  intros tag s6 [Hwf6 _].
  destruct tag; cbv beta iota delta [negb]; [|exact Hwf6].
  eapply behaves_step; [apply get_run|].
  eapply behaves_step; [apply sendMessageLength_run|].
  cbv beta iota delta [negb].
  eapply behaves_bind.
  { apply receiveParameters_behaves.
    revert Hwf6. apply well_formed_shape. reflexivity. }
  intros params s9 [Hwf9 He9]. unfold entered in He9. simpl in He9.
  injection He9 as _ _ Hmb9 Hbuf9.
  destruct params; cbv beta iota delta [negb]; [|exact Hwf9].
  eapply behaves_step; [apply get_run|].
  rewrite <- Hmb9.
  pose proof Hwf9 as (_ & _ & Hpos9 & Hfit9 & Hlen9).
  eapply behaves_bind.
  { apply sendMessageData_behaves; try exact Hwf9.
    - split; [exact Hpos9|]. now apply bits_of_bytes.
    - destruct (InputMode_eqb mode INPUT_HEX_MANUAL); [|lia].
      apply Z.mod_pos_bound. lia.
    - lia. }
  intros done s11 (Hwf11 & HK11 & He11). unfold entered in He11.
  injection He11 as _ _ Hmb11 Hbuf11.
  destruct done; cbv beta iota delta [negb]; [|exact Hwf11].
  rewrite <- Hmb11, <- Hbuf11.
  eapply behaves_step; [apply printBytes_message_run; exact Hwf11|].
  apply dump_behaves; [|exact HK11].
  revert Hwf11. apply well_formed_shape. reflexivity.
Qed.

Lemma showLastResults_behaves (s : State) :
  well_formed s -> behaves showLastResults s (fun _ s' => well_formed s').
Proof.
  intros Hwf. unfold showLastResults.
  eapply behaves_step; [apply get_run|].
  eapply behaves_step; [apply get_run|].
  eapply behaves_step; [apply get_run|].
  destruct (Z.ltb_spec 0 (K s)); destruct (0 <? N s);
    destruct (0 <? message_bits s); cbv beta iota delta [andb];
    try (unfold behaves, say; cbv beta iota; revert Hwf;
         apply well_formed_shape; reflexivity).
  eapply behaves_step; [apply get_run|].
  eapply behaves_step; [apply get_run|].
  eapply behaves_step; [apply printBytes_message_run; exact Hwf|].
  apply dump_behaves; [|simpl; lia].
  revert Hwf. apply well_formed_shape. reflexivity.
Qed.

Lemma loop_behaves (choice : option ascii) (ui : UserInput) (s : State) :
  well_formed s -> behaves (loop choice ui) s (fun _ s' => well_formed s').
Proof.
  intros Hwf. unfold loop.
  eapply behaves_bind with (Q := fun _ s' => well_formed s').
  2:{ intros [] s' Hwf'. unfold behaves, delay. revert Hwf'.
      apply well_formed_shape. reflexivity. }
  destruct choice as [c|]; [|exact Hwf].
  destruct c as [[] [] [] [] [] [] [] []];
    lazymatch goal with
    | |- behaves (handleEncoding _ _) _ _ => now apply handleEncoding_behaves
    | |- behaves showLastResults _ _ => now apply showLastResults_behaves
    | |- behaves (ret _) _ _ => exact Hwf
    | |- _ => idtac
    end.
  unfold behaves, bind, get, say. cbv beta iota.
  revert Hwf. apply well_formed_shape. reflexivity.
Qed.

Lemma loops_behave (inputs : list (option ascii * UserInput)) :
  forall s,
    well_formed s -> behaves (loops inputs) s (fun _ s' => well_formed s').
Proof.
  induction inputs as [|[choice ui] rest IH]; intros s Hwf; simpl.
  - exact Hwf.
  - eapply behaves_bind; [apply loop_behaves; exact Hwf|].
    intros [] s' Hwf'. apply IH. exact Hwf'.
Qed.

(** X18.  Whatever the user types and the device sends, in any number of
    passes of [loop] from a well-formed state (the state after start-up is
    one): [message_bits] never counts more bytes than [message_buffer]
    holds, no store into [message_buffer] and no read of it is out of
    range, and a run can only go wrong in three ways, all on the side of
    the encoded data: a division by K = 0, a store past the end of
    [encoded_buffer], or a dump of more bytes than [encoded_buffer] has. *)
Theorem only_the_encoded_side_can_fault
    (inputs : list (option ascii * UserInput)) (s : State) :
  well_formed s ->
  match loops inputs s with
  | Ok _ s' => well_formed s'
  | Fault f s' =>
      well_formed s' /\
      (f = DivisionByZero \/
       (exists index, f = EncodedBufferOverrun index) \/
       f = ReadOverrun (Z.of_nat (length (encoded_buffer s'))))
  | Starved => False
  end.
Proof. intros Hwf. exact (loops_behave inputs s Hwf). Qed.

Lemma only_the_encoded_side_can_fault_witness :
  match loops [(Some "3"%char, mkUserInput 0 16 0 "AB");
               (Some "5"%char, typed "")]
              (initial_state 0
                 (queued 0 [xde; xad; xc0; xde; x00; x08; x00; x10;
                            x01; x02; x03; x04]))
  with
  | Ok _ s' => well_formed s'
  | Fault f s' =>
      well_formed s' /\
      (f = DivisionByZero \/
       (exists index, f = EncodedBufferOverrun index) \/
       f = ReadOverrun (Z.of_nat (length (encoded_buffer s'))))
  | Starved => False
  end.
Proof.
  apply (only_the_encoded_side_can_fault
           [(Some "3"%char, mkUserInput 0 16 0 "AB");
            (Some "5"%char, typed "")]
           (initial_state 0
              (queued 0 [xde; xad; xc0; xde; x00; x08; x00; x10;
                         x01; x02; x03; x04]))).
  unfold well_formed. simpl.
  split; [lia|]. split; [lia|]. split; [lia|].
  split; [vm_compute; discriminate|reflexivity].
Defined.

(** ** Results that are not of one session *)

Lemma bytes_for_bytes (n : nat) : bytes_for (8 * Z.of_nat n) = Z.of_nat n.
Proof. rewrite Z.mul_comm. apply bytes_for_whole. lia. Qed.

(** X19.  After a session that failed at the sync, menu entry 5 shows the
    new message beside the encoded bytes of the session before: the message
    and its bit count were replaced before the sync, K, N and
    [encoded_buffer] were not, and the number of encoded bytes shown is
    computed from the new bit count and the old K and N. *)
Theorem failed_session_shows_stale_results (mode : InputMode)
    (ui : UserInput) (s : State) :
  let message := message_of mode (userInput ui) in
  let total := wrap16 ((8 * Z.of_nat (length message) + K s - 1) ÷ K s
                       * bytes_for (N s)) in
  rx s = [] ->
  strlen (userInput ui) <> 0 ->
  1024 <= Z.of_nat (length (message_buffer s)) ->
  0 < K s -> 0 < N s -> message <> [] ->
  total <= Z.of_nat (length (encoded_buffer s)) ->
  exists s1,
    handleEncoding mode ui s = Ok tt s1 /\
    console s1 = console s /\
    showLastResults s1 =
      Ok tt (set_console s1
               (console s ++
                [PrintedBytes message (InputMode_eqb mode INPUT_HEX);
                 PrintedBytes (take (Z.to_nat total) (encoded_buffer s))
                              true])).
Proof.
  intros message total Hrx Hline Hbuf HK HN Hsome Htotal.
  pose proof (message_of_length mode (userInput ui)) as Hlen.
  assert (Hpos : 0 < Z.of_nat (length message))
    by (destruct message; [contradiction|simpl; lia]).
  to_sync mode ui s.
  step_by ltac:(apply waitForTag_silent; exact Hrx).
  cbv beta iota delta [negb].
  eexists. split; [reflexivity|]. split; [reflexivity|].
  fold message in Hlen.
  rewrite showLastResults_run; simpl; fold message; try lia.
  - rewrite bytes_for_bytes, Nat2Z.id, overwritten_take. reflexivity.
  - rewrite bytes_for_bytes, overwritten_length; lia.
Qed.

Lemma failed_session_shows_stale_results_witness :
  exists s1,
    handleEncoding INPUT_TEXT (typed "B")
      (set_N (set_K (initial_state 0 []) 8) 16) = Ok tt s1 /\
    console s1 = [] /\
    showLastResults s1 =
      Ok tt (set_console s1
               ([] ++
                [PrintedBytes ["B"%byte] false;
                 PrintedBytes [x00; x00] true])).
Proof.
  apply (failed_session_shows_stale_results INPUT_TEXT (typed "B")
           (set_N (set_K (initial_state 0 []) 8) 16)).
  - reflexivity.
  - vm_compute. discriminate.
  - vm_compute. discriminate.
  - simpl. lia.
  - simpl. lia.
  - discriminate.
  - vm_compute. discriminate.
Defined.

(** ** Pairs that are not two hexadecimal digits *)

(** X20.  [hexToBits] rejects nothing; what a pair of characters decodes
    to is what [strtol] reads of it.  Two hexadecimal digits give
    16 * d1 + d2.  A digit followed by anything else gives the digit alone,
    so "1G" is 01.  A pair that starts with a character that is no digit,
    no white space and no sign gives 00, so "G1" is 00. *)
Theorem hex_pair_decoding (c1 c2 : ascii) :
  let v := Z_of_byte (u8 (strtol16 (String c1 (String c2 EmptyString)))) in
  match hex_digit c1, hex_digit c2 with
  | Some d1, Some d2 => v = 16 * d1 + d2
  | Some d1, None => v = d1
  | None, _ =>
      isspace c1 = false -> c1 <> "+"%char -> c1 <> "-"%char -> v = 0
  end.
Proof.
  intros v. subst v.
  destruct c1 as [[] [] [] [] [] [] [] []];
    match goal with
    | |- context [hex_digit (Ascii ?a ?b ?c ?d ?e ?f ?g ?h)] =>
        first
          [ change (hex_digit (Ascii a b c d e f g h)) with (@None Z);
            cbv beta iota; intros Hs Hp Hm;
            first [ vm_compute in Hs; discriminate Hs
                  | congruence
                  | reflexivity ]
          | destruct c2 as [[] [] [] [] [] [] [] []];
            vm_compute; reflexivity ]
    end.
Qed.
